(** * pyzsync / pyrsync2: rolling-checksum delta synchronisation

    A shallow embedding of [src/pyzsync.py] and [src/pyrsync2.py].

    Conventions of the embedding:
    - a Python [int] is a [Z] (unbounded, as in the source: no modulus is
      applied anywhere in the checksum arithmetic);
    - [bytes] / [bytearray] values are lists of [Z], each element in
      [0, 256);
    - a stream object is a record holding its whole content and a cursor;
    - a [dict] whose iteration order is observable is an association list
      in insertion order; one that is only looked up is a [gmap];
    - loops that the source writes as [while True] take a fuel argument and
      report [OutOfFuel] when it is used up;
    - a raised exception is a value of [exn]. *)

From stdpp Require Import base numbers list sorting gmap.

Open Scope Z_scope.

Definition bytes := list Z.

(** ** The strong hash

    [hashlib.md5(x).digest()] is library code.  The development is
    parametric in the strong hash ([Variable md5] in the sections below);
    [MD5.digest] is RFC 1321 written out, used to run the program on
    concrete inputs. *)

Module MD5.

Definition mask32 : Z := 0xffffffff.

Definition add32 (x y : Z) : Z := Z.land (x + y) mask32.

Definition rotl32 (x n : Z) : Z :=
  Z.land (Z.lor (Z.shiftl x n) (Z.shiftr x (32 - n))) mask32.

Definition K : list Z :=
  [ 0xd76aa478; 0xe8c7b756; 0x242070db; 0xc1bdceee;
    0xf57c0faf; 0x4787c62a; 0xa8304613; 0xfd469501;
    0x698098d8; 0x8b44f7af; 0xffff5bb1; 0x895cd7be;
    0x6b901122; 0xfd987193; 0xa679438e; 0x49b40821;
    0xf61e2562; 0xc040b340; 0x265e5a51; 0xe9b6c7aa;
    0xd62f105d; 0x02441453; 0xd8a1e681; 0xe7d3fbc8;
    0x21e1cde6; 0xc33707d6; 0xf4d50d87; 0x455a14ed;
    0xa9e3e905; 0xfcefa3f8; 0x676f02d9; 0x8d2a4c8a;
    0xfffa3942; 0x8771f681; 0x6d9d6122; 0xfde5380c;
    0xa4beea44; 0x4bdecfa9; 0xf6bb4b60; 0xbebfbc70;
    0x289b7ec6; 0xeaa127fa; 0xd4ef3085; 0x04881d05;
    0xd9d4d039; 0xe6db99e5; 0x1fa27cf8; 0xc4ac5665;
    0xf4292244; 0x432aff97; 0xab9423a7; 0xfc93a039;
    0x655b59c3; 0x8f0ccc92; 0xffeff47d; 0x85845dd1;
    0x6fa87e4f; 0xfe2ce6e0; 0xa3014314; 0x4e0811a1;
    0xf7537e82; 0xbd3af235; 0x2ad7d2bb; 0xeb86d391 ].

Definition shifts : list Z :=
  [ 7; 12; 17; 22; 7; 12; 17; 22; 7; 12; 17; 22; 7; 12; 17; 22;
    5;  9; 14; 20; 5;  9; 14; 20; 5;  9; 14; 20; 5;  9; 14; 20;
    4; 11; 16; 23; 4; 11; 16; 23; 4; 11; 16; 23; 4; 11; 16; 23;
    6; 10; 15; 21; 6; 10; 15; 21; 6; 10; 15; 21; 6; 10; 15; 21 ].

Fixpoint le_bytes (k : nat) (x : Z) : bytes :=
  match k with
  | O => []
  | S k' => Z.land x 255 :: le_bytes k' (Z.shiftr x 8)
  end.

Fixpoint le_word (bs : bytes) : Z :=
  match bs with
  | [] => 0
  | b :: rest => b + 256 * le_word rest
  end.

Definition pad (msg : bytes) : bytes :=
  let n := Z.of_nat (length msg) in
  msg ++ [0x80] ++ replicate (Z.to_nat ((55 - n) mod 64)) 0 ++ le_bytes 8 (8 * n).

Fixpoint words (k : nat) (bs : bytes) : list Z :=
  match k with
  | O => []
  | S k' => le_word (take 4 bs) :: words k' (drop 4 bs)
  end.

Definition round (M : list Z) (st : Z * Z * Z * Z) (i : nat) : Z * Z * Z * Z :=
  let '(A, B, C, D) := st in
  let iz := Z.of_nat i in
  let nB := Z.lxor B mask32 in
  let nD := Z.lxor D mask32 in
  let '(F, g) :=
    if iz <? 16 then (Z.lor (Z.land B C) (Z.land nB D), iz)
    else if iz <? 32 then (Z.lor (Z.land D B) (Z.land nD C), (5 * iz + 1) mod 16)
    else if iz <? 48 then (Z.lxor (Z.lxor B C) D, (3 * iz + 5) mod 16)
    else (Z.lxor C (Z.lor B nD), (7 * iz) mod 16) in
  let F' := add32 (add32 (add32 F A) (nth i K 0)) (nth (Z.to_nat g) M 0) in
  (D, add32 B (rotl32 F' (nth i shifts 0)), B, C).

Definition chunk (st : Z * Z * Z * Z) (bs : bytes) : Z * Z * Z * Z :=
  let '(a0, b0, c0, d0) := st in
  let '(A, B, C, D) := fold_left (round (words 16 bs)) (seq 0 64) st in
  (add32 a0 A, add32 b0 B, add32 c0 C, add32 d0 D).

Fixpoint chunks (n : nat) (st : Z * Z * Z * Z) (bs : bytes) : Z * Z * Z * Z :=
  match n with
  | O => st
  | S n' => chunks n' (chunk st (take 64 bs)) (drop 64 bs)
  end.

Definition digest (msg : bytes) : bytes :=
  let p := pad msg in
  let '(a, b, c, d) :=
    chunks (length p / 64)%nat (0x67452301, 0xefcdab89, 0x98badcfe, 0x10325476) p in
  le_bytes 4 a ++ le_bytes 4 b ++ le_bytes 4 c ++ le_bytes 4 d.

End MD5.

(** ** Python values shared by both modules *)

Inductive exn : Set :=
| TypeError
| ValueError
| AttributeError
| IndexError
| ZeroDivisionError.

(** A computation that returns or raises. *)
Inductive result (A : Type) : Type :=
| Ok (x : A)
| Err (e : exn).
Arguments Ok {A} x.
Arguments Err {A} e.

(** A [while True] loop run with fuel: it returns, raises, or is still
    running when the fuel is used up. *)
Inductive outcome (A : Type) : Type :=
| Done (x : A)
| Raised (e : exn)
| OutOfFuel.
Arguments Done {A} x.
Arguments Raised {A} e.
Arguments OutOfFuel {A}.

Definition outcome_of {A : Type} (r : result A) : outcome A :=
  match r with
  | Ok x => Done x
  | Err e => Raised e
  end.

Fixpoint fold_result {A B : Type} (f : A -> B -> result A) (acc : A) (l : list B)
  : result A :=
  match l with
  | [] => Ok acc
  | x :: rest =>
      match f acc x with
      | Ok acc' => fold_result f acc' rest
      | Err e => Err e
      end
  end.

Definition len {A : Type} (l : list A) : Z := Z.of_nat (length l).

(** ** Stream objects

    The source only calls [read], [tell], [seek] and [closed] and tests the
    object for truth (a stream object is always true).  [auto_close] tells
    the two conventions for [closed] apart: an ordinary file stays open
    while it is in use ([auto_close = false]); a self-closing stream (for
    instance an HTTP response body) reports [closed] once its last byte has
    been read, and still answers [read] with the empty string. *)

Record stream : Type := Stream {
  content : bytes;
  cursor : nat;
  auto_close : bool
}.

(** [s.read(n)]: at most [n] bytes from the cursor; everything left when
    [n] is negative. *)
Definition read (n : Z) (s : stream) : bytes * stream :=
  let rest := drop (cursor s) (content s) in
  let got := if n <? 0 then rest else take (Z.to_nat n) rest in
  (got, Stream (content s) (cursor s + length got) (auto_close s)).

Definition tell (s : stream) : Z := Z.of_nat (cursor s).

(** [s.seek(offset)]: a negative offset is refused. *)
Definition seek (offset : Z) (s : stream) : result stream :=
  if offset <? 0 then Err ValueError
  else Ok (Stream (content s) (Z.to_nat offset) (auto_close s)).

Definition closed (s : stream) : bool :=
  auto_close s && bool_decide (length (content s) <= cursor s)%nat.

(** A freshly opened ordinary stream over [data]. *)
Definition open (data : bytes) : stream := Stream data 0 false.

(** ** Rolling checksum engine

    [weakchecksum] and [rollingchecksum] are the same text in
    [pyzsync.py] (lines 149-159, 112-120) and [pyrsync2.py]
    (lines 312-322, 301-309). *)

(** The [for i in range(l)] loop of [weakchecksum], entered at index [i]
    with the bytes from [i] on still to visit. *)
Fixpoint weaksum (l i : Z) (data : bytes) (a b : Z) : Z * Z :=
  match data with
  | [] => (a, b)
  | x :: rest => weaksum l (i + 1) rest (a + x) (b + (l - i) * x)
  end.

Definition weakchecksum (data : bytes) : Z * Z * Z :=
  let '(a, b) := weaksum (len data) 0 data 0 0 in
  (Z.lor (Z.shiftl b 16) a, a, b).

Definition rollingchecksum (removed new a b blocksize : Z) : Z * Z * Z :=
  let a := a - (removed - new) in
  let b := b - (removed * blocksize - a) in
  (Z.lor (Z.shiftl b 16) a, a, b).

(** A signature: [(weak, strong)]. *)
Definition signature : Type := Z * bytes.

(** The signature generator, [block_checksums] of pyzsync.py:101 and
    [blockchecksums] of pyrsync2.py:269 (same text).  One iteration of
    [while read:] per unit of fuel; [None] when the fuel does not reach the
    end of the loop. *)
Fixpoint checksums_from (md5 : bytes -> bytes) (fuel : nat) (blocksize : Z)
  (instream : stream) : option (list signature) :=
  match fuel with
  | O => None
  | S fuel' =>
      let '(rd, instream') := read blocksize instream in
      match rd with
      | [] => Some []
      | _ :: _ =>
          match checksums_from md5 fuel' blocksize instream' with
          | Some rest => Some ((fst (fst (weakchecksum rd)), md5 rd) :: rest)
          | None => None
          end
      end
  end.

(** ** pyzsync.py *)

Module Pyzsync.

(** An element of a bucket of [remote_hashes]: the pair
    [(block, strong)] of a block without a local match yet, or the triple
    [(block, strong, local_offset)] of a block that has one (module
    docstring, lines 3-16). *)
Inductive entry : Type :=
| Pair (remote_block : nat) (strong : bytes)
| Triple (remote_block : nat) (strong : bytes) (local_offset : Z).

Definition entry_block (e : entry) : nat :=
  match e with
  | Pair remote_block _ => remote_block
  | Triple remote_block _ _ => remote_block
  end.

(** [remote_hashes]: weak checksum to bucket, keys in insertion order. *)
Definition table : Type := list (Z * list entry).

(** [remote_hashes[weak]], [None] when [weak not in remote_hashes]. *)
Fixpoint tbl_get (weak : Z) (t : table) : option (list entry) :=
  match t with
  | [] => None
  | (k, bucket) :: rest => if k =? weak then Some bucket else tbl_get weak rest
  end.

(** [remote_hashes[weak] = bucket]: a key already present keeps its place,
    a new key goes last. *)
Fixpoint tbl_set (weak : Z) (bucket : list entry) (t : table) : table :=
  match t with
  | [] => [(weak, bucket)]
  | (k, old) :: rest =>
      if k =? weak then (k, bucket) :: rest else (k, old) :: tbl_set weak bucket rest
  end.

(** A slot of the blueprint array: [None], a local byte offset, the triple
    [(remote_block * blocksize, weak, strong)] of pyzsync, the pair
    [(weak, strong)] of pyrsync2, or the bytes put there by
    [merge_instructions_blocks]. *)
Inductive slot : Type :=
| SNone
| SInt (local_block : Z)
| STriple (offset weak : Z) (strong : bytes)
| SPair (weak : Z) (strong : bytes)
| SBytes (data : bytes).

(** The local state of the [while True] loop of [zsync_delta].
    [live = false] stands for [datastream is None]; [datastream] then keeps
    the last state of the stream object.  [window], [checksum], [a], [b],
    [newbyte] and [tailsize] are unbound until their first assignment; each
    is assigned before it is read (the first iteration runs lines 37-39,
    line 60 or 66 runs before line 79, line 67 before [tailsize] is read
    on line 70), so their initial values here are never observed. *)
Record scan : Type := Scan {
  datastream : stream;
  live : bool;
  remote_hashes : table;
  matched : bool;
  local_offset : Z;
  window : bytes;
  checksum : Z;
  sum_a : Z;
  sum_b : Z;
  newbyte : Z;
  tailsize : Z
}.

Inductive step_result : Type :=
| Continue (s : scan)
| Break (s : scan)
| Raise (e : exn).

Section WithStrongHash.

Variable md5 : bytes -> bytes.

(** Lines 20-27: the weak-keyed table of the remote signatures. *)
Definition add_signature (t : table) (block : nat) (sig : signature) : table :=
  let '(weak, strong) := sig in
  match tbl_get weak t with
  | Some bucket => tbl_set weak (bucket ++ [Pair block strong]) t
  | None => tbl_set weak [Pair block strong] t
  end.

Fixpoint index_signatures (block : nat) (remotesignatures : list signature)
  (t : table) : table :=
  match remotesignatures with
  | [] => t
  | sig :: rest => index_signatures (S block) rest (add_signature t block sig)
  end.

(** Lines 33-39. *)
Definition reseed (blocksize : Z) (s : scan) : scan :=
  if matched s && live s then
    let '(blk, ds) := read blocksize (datastream s) in
    let '(c, a, b) := weakchecksum blk in
    Scan ds (live s) (remote_hashes s) (matched s) (local_offset s + blocksize)
         blk c a b (newbyte s) (tailsize s)
  else s.

(** Lines 43-49: the [for] loop over the bucket.  Each element visited is
    unpacked as [(remote_offset, remote_strong)]: a triple raises
    [ValueError].  At the first equal strong hash the element is replaced
    by a triple and the loop is left; the flag tells whether that
    happened. *)
Fixpoint confirm (local_strong : bytes) (offset : Z) (bucket : list entry)
  : result (list entry * bool) :=
  match bucket with
  | [] => Ok ([], false)
  | Triple _ _ _ :: _ => Err ValueError
  | Pair remote_offset remote_strong :: rest =>
      if bool_decide (local_strong = remote_strong)
      then Ok (Triple remote_offset local_strong offset :: rest, true)
      else
        match confirm local_strong offset rest with
        | Ok (rest', hit) => Ok (Pair remote_offset remote_strong :: rest', hit)
        | Err e => Err e
        end
  end.

(** Lines 57-68: [try: if datastream: ... except TypeError: ...].
    [ord] of the empty string raises the [TypeError] that is caught;
    [% blocksize] raises [ZeroDivisionError] when [blocksize] is 0. *)
Definition pull (blocksize : Z) (s : scan) : result scan :=
  if live s then
    let '(got, ds) := read 1 (datastream s) in
    match got with
    | x :: _ =>
        Ok (Scan ds true (remote_hashes s) (matched s) (local_offset s)
                 (window s ++ [x]) (checksum s) (sum_a s) (sum_b s) x (tailsize s))
    | [] =>
        if blocksize =? 0 then Err ZeroDivisionError
        else
          Ok (Scan ds false (remote_hashes s) (matched s) (local_offset s)
                   (window s) (checksum s) (sum_a s) (sum_b s) 0
                   (tell ds mod blocksize))
    end
  else Ok s.

(** Lines 54-79: the [else] branch. *)
Definition shift (blocksize : Z) (s : scan) : step_result :=
  let s := Scan (datastream s) (live s) (remote_hashes s) false (local_offset s)
                (window s) (checksum s) (sum_a s) (sum_b s) (newbyte s) (tailsize s) in
  match pull blocksize s with
  | Err e => Raise e
  | Ok s =>
      if negb (live s) && (len (window s) <=? tailsize s) then Break s
      else
        match window s with
        | [] => Raise IndexError
        | oldbyte :: rest =>
            let '(c, a, b) :=
              rollingchecksum oldbyte (newbyte s) (sum_a s) (sum_b s) blocksize in
            Continue (Scan (datastream s) (live s) (remote_hashes s) (matched s)
                           (local_offset s + 1) rest c a b (newbyte s) (tailsize s))
        end
  end.

(** Lines 33-79: one iteration of [while True]. *)
Definition step (blocksize : Z) (s : scan) : step_result :=
  let s := reseed blocksize s in
  match tbl_get (checksum s) (remote_hashes s) with
  | Some bucket =>
      (* lines 41-52 *)
      match confirm (md5 (window s)) (local_offset s) bucket with
      | Err e => Raise e
      | Ok (bucket', hit) =>
          let s := Scan (datastream s) (live s)
                        (tbl_set (checksum s) bucket' (remote_hashes s))
                        (hit || matched s) (local_offset s) (window s)
                        (checksum s) (sum_a s) (sum_b s) (newbyte s) (tailsize s) in
          if live s then
            if closed (datastream s) then Break s else Continue s
          else Raise AttributeError
      end
  | None => shift blocksize s
  end.

Fixpoint scan_loop (fuel : nat) (blocksize : Z) (s : scan) : outcome scan :=
  match fuel with
  | O => OutOfFuel
  | S fuel' =>
      match step blocksize s with
      | Continue s' => scan_loop fuel' blocksize s'
      | Break s' => Done s'
      | Raise e => Raised e
      end
  end.

(** Lines 29-30: the state on entry to the loop. *)
Definition scan_init (ds : stream) (t : table) (blocksize : Z) : scan :=
  Scan ds true t true (- blocksize) [] 0 0 0 0 0.

(** Lines 84-99.  [instructions[remote_block] = ...] raises [IndexError]
    outside the array. *)
Definition place (blocksize weak : Z) (acc : list slot * list nat) (block : entry)
  : result (list slot * list nat) :=
  let '(instructions, to_request) := acc in
  let remote_block := entry_block block in
  if bool_decide (remote_block < length instructions)%nat then
    match block with
    | Pair _ strong =>
        Ok (<[remote_block := STriple (Z.of_nat remote_block * blocksize) weak strong]>
              instructions,
            to_request ++ [remote_block])
    | Triple _ _ local_block =>
        Ok (<[remote_block := SInt local_block]> instructions, to_request)
    end
  else Err IndexError.

Definition get_instructions (remote_hashes : table) (blocksize : Z) (num_blocks : nat)
  : result (list slot * list nat) :=
  fold_result
    (fun acc kv => fold_result (place blocksize (fst kv)) acc (snd kv))
    (replicate num_blocks SNone, [])
    remote_hashes.

(** Lines 19-82.  [remotesignatures] is the sequence of signatures the
    caller passes in. *)
Definition zsync_delta (fuel : nat) (ds : stream) (remotesignatures : list signature)
  (blocksize : Z) : outcome (list slot * list nat) :=
  let remote_hashes := index_signatures 0 remotesignatures [] in
  let num_blocks := length remotesignatures in
  match scan_loop fuel blocksize (scan_init ds remote_hashes blocksize) with
  | Done s => outcome_of (get_instructions (Pyzsync.remote_hashes s) blocksize num_blocks)
  | Raised e => Raised e
  | OutOfFuel => OutOfFuel
  end.

(** Lines 101-110. *)
Definition block_checksums (instream : stream) (blocksize : Z)
  : option (list signature) :=
  checksums_from md5 (S (length (content instream))) blocksize instream.

End WithStrongHash.

(** Lines 122-128: the pairs [(block, content)] that the generator yields,
    and the stream afterwards. *)
Fixpoint get_blocks (ds : stream) (requests : list nat) (blocksize : Z)
  : result (list (nat * bytes)) :=
  match requests with
  | [] => Ok []
  | block :: rest =>
      match seek (Z.of_nat block * blocksize) ds with
      | Err e => Err e
      | Ok ds =>
          let '(content, ds) := read blocksize ds in
          match get_blocks ds rest blocksize with
          | Ok l => Ok ((block, content) :: l)
          | Err e => Err e
          end
      end
  end.

(** [instructions[block][0]] of line 133. *)
Definition first_component (instructions : list slot) (block : nat) : result Z :=
  match instructions !! block with
  | None => Err IndexError
  | Some SNone => Err TypeError
  | Some (SInt _) => Err TypeError
  | Some (STriple offset _ _) => Ok offset
  | Some (SPair weak _) => Ok weak
  | Some (SBytes []) => Err IndexError
  | Some (SBytes (x :: _)) => Ok x
  end.

(** Lines 130-135. *)
Definition merge_instructions_blocks (instructions : list slot)
  (blocks : list (nat * bytes)) (blocksize : Z) : result (list slot) :=
  fold_result
    (fun instructions bc =>
       let '(block, content) := bc in
       let offset := Z.of_nat block * blocksize in
       match first_component instructions block with
       | Err e => Err e
       | Ok c =>
           if c =? offset then Ok (<[block := SBytes content]> instructions)
           else Ok instructions
       end)
    instructions blocks.

(** Lines 137-147.  [outstream] is the list of bytes written so far;
    [outstream.write] of anything but bytes raises [TypeError]. *)
Definition patch_element (blocksize : Z) (acc : stream * bytes) (element : slot)
  : result (stream * bytes) :=
  let '(instream, outstream) := acc in
  match element with
  | SInt offset =>
      if blocksize =? 0 then Err TypeError
      else
        match seek offset instream with
        | Err e => Err e
        | Ok instream =>
            let '(data, instream) := read blocksize instream in
            Ok (instream, outstream ++ data)
        end
  | SBytes data => Ok (instream, outstream ++ data)
  | _ => Err TypeError
  end.

Definition patchstream (instream : stream) (outstream : bytes) (delta : list slot)
  (blocksize : Z) : result (stream * bytes) :=
  fold_result (patch_element blocksize) (instream, outstream) delta.

End Pyzsync.

(** ** pyrsync2.py *)

Module Pyrsync2.

(** What [rsyncdelta] yields: [bytes(current_block)] or the [int]
    [matchblock]. *)
Inductive element : Type :=
| Literal (data : bytes)
| BlockRef (matchblock : nat).

(** The local state of the [while True] loop of [rsyncdelta] (lines
    193-266), with the elements yielded so far in [yielded].  As in
    [Pyzsync.scan], [live = false] stands for [datastream is None], and the
    variables that are unbound on entry are assigned before they are
    read. *)
Record scan : Type := Scan {
  datastream : stream;
  live : bool;
  matched : bool;
  current_block : bytes;
  window : bytes;
  window_offset : nat;
  checksum : Z;
  sum_a : Z;
  sum_b : Z;
  newbyte : Z;
  tailsize : Z;
  yielded : list element
}.

Inductive step_result : Type :=
| Continue (s : scan)
| Break (s : scan)
| Raise (e : exn) (s : scan).

(** How the generator ends. *)
Inductive ending : Type :=
| Returned
| Threw (e : exn)
| Unfinished.

(** [if len(current_block) > 0: yield bytes(current_block)]. *)
Definition flush (current_block : bytes) : list element :=
  match current_block with
  | [] => []
  | _ :: _ => [Literal current_block]
  end.

Section WithStrongHash.

Variable md5 : bytes -> bytes.

(** Lines 189-192: the dict comprehension; a later signature with the same
    weak checksum replaces the earlier one. *)
Fixpoint signature_dict (index : nat) (remotesignatures : list signature)
  (d : gmap Z (nat * bytes)) : gmap Z (nat * bytes) :=
  match remotesignatures with
  | [] => d
  | (weak, strong) :: rest => signature_dict (S index) rest (<[weak := (index, strong)]> d)
  end.

(** Lines 198-204. *)
Definition reseed (blocksize : Z) (s : scan) : scan :=
  if matched s && live s then
    let '(blk, ds) := read blocksize (datastream s) in
    let '(c, a, b) := weakchecksum blk in
    Scan ds (live s) (matched s) (current_block s) blk 0 c a b
         (newbyte s) (tailsize s) (yielded s)
  else s.

(** Lines 227-238. *)
Definition pull (blocksize : Z) (s : scan) : result scan :=
  if live s then
    let '(got, ds) := read 1 (datastream s) in
    match got with
    | x :: _ =>
        Ok (Scan ds true (matched s) (current_block s) (window s ++ [x])
                 (window_offset s) (checksum s) (sum_a s) (sum_b s) x (tailsize s)
                 (yielded s))
    | [] =>
        if blocksize =? 0 then Err ZeroDivisionError
        else
          Ok (Scan ds false (matched s) (current_block s) (window s)
                   (window_offset s) (checksum s) (sum_a s) (sum_b s) 0
                   (tell ds mod blocksize) (yielded s))
    end
  else Ok s.

(** Lines 224-263: the [else] branch. *)
Definition shift (blocksize max_buffer : Z) (s : scan) : step_result :=
  let s := Scan (datastream s) (live s) false (current_block s) (window s)
                (window_offset s) (checksum s) (sum_a s) (sum_b s) (newbyte s)
                (tailsize s) (yielded s) in
  match pull blocksize s with
  | Err e => Raise e s
  | Ok s =>
      if negb (live s)
         && (len (window s) - Z.of_nat (window_offset s) <=? tailsize s)
      then
        (* lines 244-250 *)
        Break (Scan (datastream s) (live s) (matched s)
                    (drop (window_offset s) (window s)) (window s) (window_offset s)
                    (checksum s) (sum_a s) (sum_b s) (newbyte s) (tailsize s)
                    (yielded s ++ flush (current_block s)))
      else
        match window s !! window_offset s with
        | None => Raise IndexError s
        | Some oldbyte =>
            let '(c, a, b) :=
              rollingchecksum oldbyte (newbyte s) (sum_a s) (sum_b s) blocksize in
            (* lines 257-259 *)
            let '(cb, out) :=
              if max_buffer <=? len (current_block s)
              then ([], yielded s ++ [Literal (current_block s)])
              else (current_block s, yielded s) in
            Continue (Scan (datastream s) (live s) (matched s) (cb ++ [oldbyte])
                           (window s) (S (window_offset s)) c a b (newbyte s)
                           (tailsize s) out)
        end
  end.

(** Lines 198-263: one iteration of [while True]. *)
Definition step (remotesignatures : gmap Z (nat * bytes)) (blocksize max_buffer : Z)
  (s : scan) : step_result :=
  let s := reseed blocksize s in
  match remotesignatures !! checksum s with
  | Some (matchblock, strong) =>
      if bool_decide (strong = md5 (drop (window_offset s) (window s))) then
        (* lines 210-222 *)
        let s := Scan (datastream s) (live s) true [] (window s) (window_offset s)
                      (checksum s) (sum_a s) (sum_b s) (newbyte s) (tailsize s)
                      (yielded s ++ flush (current_block s) ++ [BlockRef matchblock]) in
        if live s then
          if closed (datastream s) then Break s else Continue s
        else Raise AttributeError s
      else shift blocksize max_buffer s
  | None => shift blocksize max_buffer s
  end.

(** The loop, with the state in which it stops: at a [break]
    ([Returned]), at an exception, or with the fuel used up. *)
Fixpoint scan_loop (fuel : nat) (remotesignatures : gmap Z (nat * bytes))
  (blocksize max_buffer : Z) (s : scan) : scan * ending :=
  match fuel with
  | O => (s, Unfinished)
  | S fuel' =>
      match step remotesignatures blocksize max_buffer s with
      | Continue s' => scan_loop fuel' remotesignatures blocksize max_buffer s'
      | Break s' => (s', Returned)
      | Raise e s' => (s', Threw e)
      end
  end.

(** Lines 193-195: the state on entry to the loop. *)
Definition scan_init (ds : stream) : scan :=
  Scan ds true true [] [] 0 0 0 0 0 0 [].

(** Lines 181-266: the elements the generator yields, and how it ends.
    After a [break], lines 265-266 flush [current_block]. *)
Definition rsyncdelta (fuel : nat) (ds : stream) (remotesignatures : list signature)
  (blocksize max_buffer : Z) : list element * ending :=
  let '(s, e) :=
    scan_loop fuel (signature_dict 0 remotesignatures ∅) blocksize max_buffer
              (scan_init ds) in
  match e with
  | Returned => (yielded s ++ flush (current_block s), Returned)
  | _ => (yielded s, e)
  end.

(** Lines 269-278. *)
Definition blockchecksums (instream : stream) (blocksize : Z)
  : option (list signature) :=
  checksums_from md5 (S (length (content instream))) blocksize instream.

(** Lines 59-161: [zsyncdelta] runs the loop of [Pyzsync.zsync_delta]
    (lines 89-149 are lines 32-79 of pyzsync.py with [local_offset] called
    [local_block]) and ends in this module's [get_instructions]. *)
Definition place (weak : Z) (acc : list Pyzsync.slot * list nat) (block : Pyzsync.entry)
  : result (list Pyzsync.slot * list nat) :=
  let '(instructions, to_request) := acc in
  let remote_block := Pyzsync.entry_block block in
  if bool_decide (remote_block < length instructions)%nat then
    match block with
    | Pyzsync.Pair _ strong =>
        Ok (<[remote_block := Pyzsync.SPair weak strong]> instructions,
            to_request ++ [remote_block])
    | Pyzsync.Triple _ _ local_block =>
        Ok (<[remote_block := Pyzsync.SInt local_block]> instructions, to_request)
    end
  else Err IndexError.

(** Lines 163-178. *)
Definition get_instructions (remote_hashes : Pyzsync.table) (blocksize : Z)
  (num_blocks : nat) : result (list Pyzsync.slot * list nat) :=
  fold_result
    (fun acc kv => fold_result (place (fst kv)) acc (snd kv))
    (replicate num_blocks Pyzsync.SNone, [])
    remote_hashes.

Definition zsyncdelta (fuel : nat) (ds : stream) (remotesignatures : list signature)
  (blocksize : Z) : outcome (list Pyzsync.slot * list nat) :=
  let remote_hashes := Pyzsync.index_signatures 0 remotesignatures [] in
  let num_blocks := length remotesignatures in
  match Pyzsync.scan_loop md5 fuel blocksize
          (Pyzsync.scan_init ds remote_hashes blocksize) with
  | Done s => outcome_of (get_instructions (Pyzsync.remote_hashes s) blocksize num_blocks)
  | Raised e => Raised e
  | OutOfFuel => OutOfFuel
  end.

End WithStrongHash.

(** Lines 281-291.  [outstream] is the list of bytes written so far. *)
Definition patch_element (blocksize : Z) (acc : stream * bytes) (e : element)
  : result (stream * bytes) :=
  let '(instream, outstream) := acc in
  match e with
  | BlockRef block =>
      if blocksize =? 0 then Err TypeError
      else
        match seek (Z.of_nat block * blocksize) instream with
        | Err e => Err e
        | Ok instream =>
            let '(data, instream) := read blocksize instream in
            Ok (instream, outstream ++ data)
        end
  | Literal data => Ok (instream, outstream ++ data)
  end.

Definition patchstream (instream : stream) (outstream : bytes) (delta : list element)
  (blocksize : Z) : result (stream * bytes) :=
  fold_result (patch_element blocksize) (instream, outstream) delta.

(** Lines 294-298. *)
Definition patchstream_block (instream : stream) (outstream : bytes)
  (delta_block : element) (blocksize : Z) : result (stream * bytes) :=
  match delta_block with
  | BlockRef block =>
      if blocksize =? 0 then Err TypeError
      else
        match seek (Z.of_nat block * blocksize) instream with
        | Err e => Err e
        | Ok instream =>
            let '(data, instream) := read blocksize instream in
            Ok (instream, outstream ++ data)
        end
  | Literal data => Ok (instream, outstream ++ data)
  end.

End Pyrsync2.

(** ** Definitions that follow the specification's words *)

(** "[a] is the unweighted byte sum". *)
Fixpoint unweighted_sum (w : bytes) : Z :=
  match w with
  | [] => 0
  | x :: rest => x + unweighted_sum rest
  end.

(** "[b] is the position-weighted byte sum (weight of byte at offset [i] in
    window of length [L] is [L - i])". *)
Fixpoint weighted_sum (w : bytes) : Z :=
  match w with
  | [] => 0
  | x :: rest => len w * x + weighted_sum rest
  end.

(** "The composite weak checksum is [(b << 16) | a]". *)
Definition composite (a b : Z) : Z := Z.lor (Z.shiftl b 16) a.

(** "one entry per consecutive non-overlapping block read from the stream
    start to end-of-stream; the final block may be shorter than
    [blockSize] and is still emitted": block [i] is the at most [blocksize]
    bytes from offset [i * blocksize] on, and there is one block for every
    offset [i * blocksize] inside the content. *)
Definition block_at (blocksize : nat) (data : bytes) (i : nat) : bytes :=
  take blocksize (drop (i * blocksize) data).

Definition block_count (blocksize : nat) (data : bytes) : nat :=
  ((length data + blocksize - 1) / blocksize)%nat.

Definition blocks_of (blocksize : nat) (data : bytes) : list bytes :=
  map (block_at blocksize data) (seq 0 (block_count blocksize data)).

(** "[weak] comes from the Rolling Checksum Engine's [initial] over the raw
    block bytes; [strong] is a cryptographic content hash of the same
    bytes". *)
Definition signature_of (md5 : bytes -> bytes) (block : bytes) : signature :=
  (fst (fst (weakchecksum block)), md5 block).

(** The order in which [remote_hashes] is traversed: the weak checksums in
    order of first appearance among the signatures, and under each of them
    the indices of the blocks that carry it, in increasing order. *)
Fixpoint first_occurrences (weaks : list Z) : list Z :=
  match weaks with
  | [] => []
  | w :: rest => w :: filter (fun x => x <> w) (first_occurrences rest)
  end.

Definition group (weaks : list Z) (w : Z) : list nat :=
  filter (fun i => weaks !! i = Some w) (seq 0 (length weaks)).

Definition table_order (weaks : list Z) : list nat :=
  concat (map (group weaks) (first_occurrences weaks)).

(** A slot that still waits for its block: the tuple that
    [get_instructions] writes for a block without a match. *)
Definition unresolved_at (instructions : list Pyzsync.slot) (i : nat) : bool :=
  match instructions !! i with
  | Some (Pyzsync.STriple _ _ _) => true
  | Some (Pyzsync.SPair _ _) => true
  | _ => false
  end.

(** "The ordered sequence of instructions, with [BlockRef]s expanded to
    baseline block content and [Literal]s taken verbatim". *)
Definition expand (blocksize : nat) (baseline : bytes) (delta : list Pyrsync2.element)
  : bytes :=
  concat (map (fun e =>
                 match e with
                 | Pyrsync2.Literal data => data
                 | Pyrsync2.BlockRef j => block_at blocksize baseline j
                 end) delta).

Definition is_block_ref (e : Pyrsync2.element) : Prop :=
  match e with
  | Pyrsync2.BlockRef _ => True
  | Pyrsync2.Literal _ => False
  end.

(** "no [Literal]s (aside from an empty or absent final literal)". *)
Definition no_nonempty_literal (e : Pyrsync2.element) : Prop :=
  match e with
  | Pyrsync2.BlockRef _ => True
  | Pyrsync2.Literal data => data = []
  end.

(** The strong hash tells every window of the candidate stream from every
    baseline block with other content. *)
Definition strong_hash_separates (md5 : bytes -> bytes) (blocksize : nat)
  (candidate baseline : bytes) : Prop :=
  forall i l j,
    (i + l <= length candidate)%nat ->
    (j < block_count blocksize baseline)%nat ->
    md5 (take l (drop i candidate)) = md5 (block_at blocksize baseline j) ->
    take l (drop i candidate) = block_at blocksize baseline j.

(** No two baseline blocks with different content share a weak checksum. *)
Definition weak_checksum_separates (blocksize : nat) (baseline : bytes) : Prop :=
  forall i j,
    (i < block_count blocksize baseline)%nat ->
    (j < block_count blocksize baseline)%nat ->
    fst (fst (weakchecksum (block_at blocksize baseline i)))
    = fst (fst (weakchecksum (block_at blocksize baseline j))) ->
    block_at blocksize baseline i = block_at blocksize baseline j.

(** ** Auxiliary definitions *)

(** The elements of all buckets with their keys, in the order in which the
    nested [for] loops of [get_instructions] visit them. *)
Definition entries (t : Pyzsync.table) : list (Z * Pyzsync.entry) :=
  flat_map (fun kv => map (pair (fst kv)) (snd kv)) t.

(** The block indices in that order. *)
Definition block_order (t : Pyzsync.table) : list nat :=
  map (fun we => Pyzsync.entry_block (snd we)) (entries t).

Definition is_pair (e : Pyzsync.entry) : bool :=
  match e with
  | Pyzsync.Pair _ _ => true
  | Pyzsync.Triple _ _ _ => false
  end.

(** The body of the inner loop of [get_instructions], with the tuple written
    for a block without a match left open: [Pyzsync.place] and
    [Pyrsync2.place] are its two instances. *)
Definition place_with (mk : nat -> Z -> bytes -> Pyzsync.slot) (weak : Z)
  (acc : list Pyzsync.slot * list nat) (block : Pyzsync.entry)
  : result (list Pyzsync.slot * list nat) :=
  let '(instructions, to_request) := acc in
  let remote_block := Pyzsync.entry_block block in
  if bool_decide (remote_block < length instructions)%nat then
    match block with
    | Pyzsync.Pair _ strong =>
        Ok (<[remote_block := mk remote_block weak strong]> instructions,
            to_request ++ [remote_block])
    | Pyzsync.Triple _ _ local_block =>
        Ok (<[remote_block := Pyzsync.SInt local_block]> instructions, to_request)
    end
  else Err IndexError.

Definition slot_with (mk : nat -> Z -> bytes -> Pyzsync.slot) (weak : Z)
  (e : Pyzsync.entry) : Pyzsync.slot :=
  match e with
  | Pyzsync.Pair remote_block strong => mk remote_block weak strong
  | Pyzsync.Triple _ _ local_block => Pyzsync.SInt local_block
  end.

Definition triple_of (blocksize : Z) (remote_block : nat) (weak : Z) (strong : bytes)
  : Pyzsync.slot :=
  Pyzsync.STriple (Z.of_nat remote_block * blocksize) weak strong.

Definition pair_of (remote_block : nat) (weak : Z) (strong : bytes) : Pyzsync.slot :=
  Pyzsync.SPair weak strong.

(** The keys of a table with the block indices of their buckets: what the
    scan leaves untouched. *)
Definition shape (t : Pyzsync.table) : list (Z * list nat) :=
  map (fun kv => (fst kv, map Pyzsync.entry_block (snd kv))) t.

(** The bytes of a stream that are still to be read. *)
Definition remaining (ds : stream) : nat := (length (content ds) - cursor ds)%nat.

(** What bounds the number of iterations that the blueprint scan still has
    to make when no weak checksum is ever found in the table. *)
Definition scan_measure (s : Pyzsync.scan) : nat :=
  (remaining (Pyzsync.datastream s)
   + (if Pyzsync.matched s then 0 else length (Pyzsync.window s))
   + (if Pyzsync.live s then 1 else 0))%nat.

(** The two ways out of the scan loop of [zsync_delta].  The tail rule of
    line 70: [datastream] is [None], every byte of the stream has been
    read, [tailsize] is the position of the stream modulo the block size,
    and the window is at most that long.  Line 51: the stream object, still
    bound, reports itself closed after a weak hit. *)
Definition zsync_tail_exit (blocksize : Z) (s : Pyzsync.scan) : Prop :=
  Pyzsync.live s = false
  /\ remaining (Pyzsync.datastream s) = 0%nat
  /\ Pyzsync.tailsize s = tell (Pyzsync.datastream s) mod blocksize
  /\ len (Pyzsync.window s) <= Pyzsync.tailsize s.

Definition zsync_closed_exit (s : Pyzsync.scan) : Prop :=
  Pyzsync.live s = true
  /\ closed (Pyzsync.datastream s) = true
  /\ is_Some (Pyzsync.tbl_get (Pyzsync.checksum s) (Pyzsync.remote_hashes s)).

(** The same for [rsyncdelta] (lines 240 and 220), where the live window is
    [window[window_offset:]] and line 220 is reached after a confirmed
    match only. *)
Definition rsync_tail_exit (blocksize : Z) (s : Pyrsync2.scan) : Prop :=
  Pyrsync2.live s = false
  /\ remaining (Pyrsync2.datastream s) = 0%nat
  /\ Pyrsync2.tailsize s = tell (Pyrsync2.datastream s) mod blocksize
  /\ len (Pyrsync2.window s) - Z.of_nat (Pyrsync2.window_offset s) <= Pyrsync2.tailsize s.

Definition rsync_closed_exit (s : Pyrsync2.scan) : Prop :=
  Pyrsync2.live s = true
  /\ closed (Pyrsync2.datastream s) = true
  /\ Pyrsync2.matched s = true.

(** What holds of the state of [zsync_delta] once [datastream] is [None]. *)
Definition zsync_exhausted (blocksize : Z) (s : Pyzsync.scan) : Prop :=
  Pyzsync.live s = false ->
  remaining (Pyzsync.datastream s) = 0%nat
  /\ Pyzsync.tailsize s = tell (Pyzsync.datastream s) mod blocksize.

(** What holds of the state of [rsyncdelta] once [datastream] is [None]. *)
Definition rsync_exhausted (blocksize : Z) (s : Pyrsync2.scan) : Prop :=
  Pyrsync2.live s = false ->
  remaining (Pyrsync2.datastream s) = 0%nat
  /\ Pyrsync2.tailsize s = tell (Pyrsync2.datastream s) mod blocksize.

(** The checks behind [strong_hash_separates] and
    [weak_checksum_separates], for running them on concrete streams. *)
Definition strong_hash_separates_b (md5 : bytes -> bytes) (blocksize : nat)
  (candidate baseline : bytes) : bool :=
  forallb (fun i =>
    forallb (fun l =>
      forallb (fun j =>
        implb (bool_decide (md5 (take l (drop i candidate))
                            = md5 (block_at blocksize baseline j)))
              (bool_decide (take l (drop i candidate)
                            = block_at blocksize baseline j)))
        (seq 0 (block_count blocksize baseline)))
      (seq 0 (S (length candidate))))
    (seq 0 (S (length candidate))).

(** The invariant of the scan loop of [rsyncdelta] over the candidate
    content [candidate]: what has been yielded, the pending literal, the
    live part of the window and the unread rest of the stream make up the
    candidate, in this order. *)
Definition rsync_inv (blocksize : nat) (candidate baseline : bytes)
  (s : Pyrsync2.scan) : Prop :=
  content (Pyrsync2.datastream s) = candidate
  /\ expand blocksize baseline (Pyrsync2.yielded s)
     ++ Pyrsync2.current_block s
     ++ (if Pyrsync2.matched s then []
         else drop (Pyrsync2.window_offset s) (Pyrsync2.window s))
     ++ drop (cursor (Pyrsync2.datastream s)) candidate
     = candidate
  /\ (Pyrsync2.live s = false ->
      Pyrsync2.matched s = false
      /\ remaining (Pyrsync2.datastream s) = 0%nat
      /\ 0 <= Pyrsync2.tailsize s)
  /\ (Pyrsync2.window_offset s <= length (Pyrsync2.window s))%nat.

(** The same once lines 198-204 have run: the window is live whatever
    [match] says. *)
Definition rsync_seeded (blocksize : nat) (candidate baseline : bytes)
  (s : Pyrsync2.scan) : Prop :=
  content (Pyrsync2.datastream s) = candidate
  /\ expand blocksize baseline (Pyrsync2.yielded s)
     ++ Pyrsync2.current_block s
     ++ drop (Pyrsync2.window_offset s) (Pyrsync2.window s)
     ++ drop (cursor (Pyrsync2.datastream s)) candidate
     = candidate
  /\ (Pyrsync2.live s = false ->
      remaining (Pyrsync2.datastream s) = 0%nat /\ 0 <= Pyrsync2.tailsize s)
  /\ (Pyrsync2.window_offset s <= length (Pyrsync2.window s))%nat.

(** What bounds the number of iterations that [rsyncdelta] still has to
    make. *)
Definition rsync_measure (s : Pyrsync2.scan) : nat :=
  (remaining (Pyrsync2.datastream s)
   + (if Pyrsync2.matched s then 0
      else length (Pyrsync2.window s) - Pyrsync2.window_offset s)
   + (if Pyrsync2.live s then 1 else 0))%nat.

Definition rsync_seeded_measure (s : Pyrsync2.scan) : nat :=
  (remaining (Pyrsync2.datastream s)
   + (length (Pyrsync2.window s) - Pyrsync2.window_offset s)
   + (if Pyrsync2.live s then 1 else 0))%nat.

(** The state of [rsyncdelta] between two blocks of a candidate that has
    matched block by block so far: only block references yielded, no
    pending literal, the stream at a multiple of the block size. *)
Definition rsync_aligned (blocksize : nat) (baseline : bytes) (s : Pyrsync2.scan)
  : Prop :=
  content (Pyrsync2.datastream s) = baseline
  /\ Pyrsync2.live s = true
  /\ Pyrsync2.matched s = true
  /\ Pyrsync2.current_block s = []
  /\ Forall is_block_ref (Pyrsync2.yielded s)
  /\ exists k, cursor (Pyrsync2.datastream s) = (k * blocksize)%nat
               /\ (k * blocksize <= length baseline)%nat.

(** Projections of a [Pyrsync2.scan] state built by one step. *)
Ltac rsync_simpl :=
  cbn [Pyrsync2.live Pyrsync2.window Pyrsync2.tailsize Pyrsync2.newbyte
       Pyrsync2.sum_a Pyrsync2.sum_b Pyrsync2.datastream Pyrsync2.window_offset
       Pyrsync2.current_block Pyrsync2.matched Pyrsync2.checksum Pyrsync2.yielded
       negb andb].

(** ** The blueprint scan over the candidate content *)

(** The strong hash of an element of the table. *)
Definition entry_strong (e : Pyzsync.entry) : bytes :=
  match e with
  | Pyzsync.Pair _ strong => strong
  | Pyzsync.Triple _ strong _ => strong
  end.

(** Every element of the table carries the signature of its block. *)
Definition table_of (sigs : list signature) (t : Pyzsync.table) : Prop :=
  forall w e, (w, e) ∈ entries t ->
    sigs !! Pyzsync.entry_block e = Some (w, entry_strong e).

(** The candidate has, at byte offset [off], a window with the signature
    [(w, strong)]. *)
Definition matches_at (md5 : bytes -> bytes) (n : nat) (candidate : bytes)
  (w : Z) (strong : bytes) (off : Z) : Prop :=
  0 <= off
  /\ signature_of md5 (take n (drop (Z.to_nat off) candidate)) = (w, strong).

(** Every match recorded in the table is a match. *)
Definition resolved_ok (md5 : bytes -> bytes) (n : nat) (candidate : bytes)
  (t : Pyzsync.table) : Prop :=
  forall w b strong off,
    (w, Pyzsync.Triple b strong off) ∈ entries t ->
    matches_at md5 n candidate w strong off.

(** The window of the blueprint scan is the candidate's bytes at
    [local_offset], with their checksum. *)
Definition zsync_window (n : nat) (candidate : bytes) (s : Pyzsync.scan) : Prop :=
  0 <= Pyzsync.local_offset s
  /\ Pyzsync.window s = take n (drop (Z.to_nat (Pyzsync.local_offset s)) candidate)
  /\ weakchecksum (Pyzsync.window s)
     = (Pyzsync.checksum s, Pyzsync.sum_a s, Pyzsync.sum_b s)
  /\ ((length (Pyzsync.window s) = n
       /\ cursor (Pyzsync.datastream s) = (Z.to_nat (Pyzsync.local_offset s) + n)%nat)
      \/ (remaining (Pyzsync.datastream s) = 0%nat
          /\ (length candidate <= Z.to_nat (Pyzsync.local_offset s) + n)%nat)).

(** After a match: the next window is read where [local_offset] will
    point. *)
Definition zsync_next (n : nat) (candidate : bytes) (s : Pyzsync.scan) : Prop :=
  0 <= Pyzsync.local_offset s + Z.of_nat n
  /\ (cursor (Pyzsync.datastream s) = Z.to_nat (Pyzsync.local_offset s + Z.of_nat n)
      \/ (remaining (Pyzsync.datastream s) = 0%nat
          /\ (length candidate <= Z.to_nat (Pyzsync.local_offset s + Z.of_nat n))%nat)).

(** The invariant of the blueprint scan over the candidate content. *)
Definition zsync_inv (md5 : bytes -> bytes) (n : nat) (candidate : bytes)
  (sigs : list signature) (s : Pyzsync.scan) : Prop :=
  content (Pyzsync.datastream s) = candidate
  /\ table_of sigs (Pyzsync.remote_hashes s)
  /\ resolved_ok md5 n candidate (Pyzsync.remote_hashes s)
  /\ (Pyzsync.live s = true ->
      if Pyzsync.matched s then zsync_next n candidate s
      else zsync_window n candidate s).

Ltac zsync_simpl :=
  cbn [Pyzsync.live Pyzsync.window Pyzsync.tailsize Pyzsync.newbyte
       Pyzsync.sum_a Pyzsync.sum_b Pyzsync.datastream Pyzsync.remote_hashes
       Pyzsync.local_offset Pyzsync.matched Pyzsync.checksum negb andb orb].

(** ** Slots of a blueprint *)

(** What [Pyzsync.patchstream] writes for a slot: [blocksize] bytes of the
    source from the offset on, or the bytes of the slot. *)
Definition slot_bytes (blocksize : nat) (source : bytes) (e : Pyzsync.slot) : bytes :=
  match e with
  | Pyzsync.SInt offset => take blocksize (drop (Z.to_nat offset) source)
  | Pyzsync.SBytes data => data
  | _ => []
  end.

(** The slots that [Pyzsync.patchstream] can apply. *)
Definition patchable (e : Pyzsync.slot) : Prop :=
  match e with
  | Pyzsync.SInt offset => 0 <= offset
  | Pyzsync.SBytes _ => True
  | _ => False
  end.

(** The slot that [Pyrsync2.get_instructions] writes where
    [Pyzsync.get_instructions] writes the given one. *)
Definition without_offset (e : Pyzsync.slot) : Pyzsync.slot :=
  match e with
  | Pyzsync.STriple _ weak strong => Pyzsync.SPair weak strong
  | _ => e
  end.


(** A value of a [bytes] object. *)
Definition is_byte (x : Z) : Prop := 0 <= x < 256.

(** ** Elements of a delta *)

(** An element of a delta over [num_blocks] signatures: a reference to one
    of the blocks, or a non-empty literal of at most [max_len] bytes. *)
Definition element_within (num_blocks : nat) (max_len : Z) (e : Pyrsync2.element)
  : Prop :=
  match e with
  | Pyrsync2.BlockRef j => (j < num_blocks)%nat
  | Pyrsync2.Literal data => 1 <= len data <= max_len
  end.

(** What the loop of [rsyncdelta] keeps true of its output: the elements
    yielded, the pending literal, and [tailsize] once it is set. *)
Definition rsync_bounded (num_blocks : nat) (blocksize max_buffer : Z)
  (s : Pyrsync2.scan) : Prop :=
  Forall (element_within num_blocks max_buffer) (Pyrsync2.yielded s)
  /\ len (Pyrsync2.current_block s) <= max_buffer
  /\ (Pyrsync2.live s = false -> 0 <= Pyrsync2.tailsize s < blocksize).

(** ** The blueprint scan block by block *)

(** The table of a blueprint scan that has matched the first [k] blocks,
    each at its own offset, and no other: the blocks below [k] are triples
    with the offset [block * blocksize], the others are pairs. *)
Definition progress_ok (k : nat) (blocksize : Z) (t : Pyzsync.table) : Prop :=
  forall w e, (w, e) ∈ entries t ->
    match e with
    | Pyzsync.Pair b _ => (k <= b)%nat
    | Pyzsync.Triple b _ off => (b < k)%nat /\ off = Z.of_nat b * blocksize
    end.

Definition blueprint_progress (sigs : list signature) (k : nat) (blocksize : Z)
  (t : Pyzsync.table) : Prop :=
  shape t = shape (Pyzsync.index_signatures 0 sigs [])
  /\ table_of sigs t
  /\ progress_ok k blocksize t.

(** The state of the blueprint scan of a file against its own signatures,
    between two blocks. *)
Definition zsync_aligned (n : nat) (data : bytes) (sigs : list signature) (k : nat)
  (s : Pyzsync.scan) : Prop :=
  content (Pyzsync.datastream s) = data
  /\ Pyzsync.live s = true
  /\ Pyzsync.matched s = true
  /\ cursor (Pyzsync.datastream s) = Nat.min (k * n) (length data)
  /\ Pyzsync.local_offset s = Z.of_nat k * Z.of_nat n - Z.of_nat n
  /\ blueprint_progress sigs k (Z.of_nat n) (Pyzsync.remote_hashes s).

(** The slot of a blueprint that stands for an element of a delta: a block
    reference becomes the byte offset of the block. *)
Definition slot_of_element (blocksize : Z) (e : Pyrsync2.element) : Pyzsync.slot :=
  match e with
  | Pyrsync2.BlockRef j => Pyzsync.SInt (Z.of_nat j * blocksize)
  | Pyrsync2.Literal data => Pyzsync.SBytes data
  end.

(** The state of [rsyncdelta] run on a file against its own signatures,
    between two blocks, [k] blocks done. *)
Definition rsync_block_aligned (n : nat) (baseline : bytes) (k : nat)
  (s : Pyrsync2.scan) : Prop :=
  content (Pyrsync2.datastream s) = baseline
  /\ Pyrsync2.live s = true
  /\ Pyrsync2.matched s = true
  /\ Pyrsync2.current_block s = []
  /\ Forall is_block_ref (Pyrsync2.yielded s)
  /\ length (Pyrsync2.yielded s) = k
  /\ cursor (Pyrsync2.datastream s) = Nat.min (k * n) (length baseline).

(** A block that a merge leaves the array as it is for: the test of line
    133 can be made and fails, or the slot holds the bytes of the block
    already. *)
Definition settled (blocksize : Z) (instructions : list Pyzsync.slot)
  (bc : nat * bytes) : Prop :=
  exists v,
    Pyzsync.first_component instructions (fst bc) = Ok v
    /\ (v = Z.of_nat (fst bc) * blocksize ->
        instructions !! fst bc = Some (Pyzsync.SBytes (snd bc))).

(** * Properties *)

(** ** The strong hash: MD5 test vectors *)

Example md5_empty :
  MD5.digest [] = [212; 29; 140; 217; 143; 0; 178; 4; 233; 128; 9; 152; 236; 248; 66; 126].
Proof. vm_compute. reflexivity. Qed.

Example md5_abc :
  MD5.digest [97; 98; 99]
  = [144; 1; 80; 152; 60; 210; 79; 176; 214; 150; 63; 125; 40; 225; 127; 114].
Proof. vm_compute. reflexivity. Qed.

Example md5_two_chunks :
  MD5.digest (map Z.of_nat (seq 0 70))
  = [95; 31; 95; 100; 184; 68; 0; 251; 154; 214; 216; 236; 217; 193; 66; 160].
Proof. vm_compute. reflexivity. Qed.

(** ** Rolling checksum engine *)

Lemma len_cons {A : Type} (x : A) (l : list A) : len (x :: l) = len l + 1.
Proof. unfold len. simpl length. lia. Qed.

Lemma len_app {A : Type} (l k : list A) : len (l ++ k) = len l + len k.
Proof. unfold len. rewrite length_app. lia. Qed.

Lemma len_nonneg {A : Type} (l : list A) : 0 <= len l.
Proof. unfold len. lia. Qed.

Lemma weaksum_sums (data : bytes) :
  forall l i a b,
    l - i = len data ->
    weaksum l i data a b = (a + unweighted_sum data, b + weighted_sum data).
Proof.
  induction data as [|x rest IH]; intros l i a b Hl.
  - simpl. f_equal; lia.
  - cbn [weaksum unweighted_sum weighted_sum].
    rewrite len_cons in Hl |- *. rewrite IH by lia.
    f_equal; lia.
Qed.

Lemma weakchecksum_sums (data : bytes) :
  weakchecksum data
  = (composite (unweighted_sum data) (weighted_sum data),
     unweighted_sum data, weighted_sum data).
Proof.
  unfold weakchecksum. rewrite weaksum_sums by lia.
  rewrite !Z.add_0_l. reflexivity.
Qed.

Lemma unweighted_sum_snoc (w : bytes) (n : Z) :
  unweighted_sum (w ++ [n]) = unweighted_sum w + n.
Proof. induction w as [|x w IH]; simpl; lia. Qed.

Lemma weighted_sum_snoc (w : bytes) (n : Z) :
  weighted_sum (w ++ [n]) = weighted_sum w + unweighted_sum w + n.
Proof.
  induction w as [|x w IH].
  - unfold weighted_sum, len. simpl. lia.
  - change ((x :: w) ++ [n]) with (x :: (w ++ [n])).
    cbn [weighted_sum unweighted_sum].
    rewrite IH, !len_cons, len_app. change (len [n]) with 1. lia.
Qed.

(** C2.  Sliding a window of exactly [blocksize] bytes one byte to the
    right: [rollingchecksum], fed the checksum state of the old window, the
    byte that leaves and the byte that enters, returns exactly what
    [weakchecksum] computes from scratch on the new window; and that is the
    unweighted sum, the position-weighted sum and their composite
    [(b << 16) | a] of the new window. *)
Theorem rollingchecksum_slides_window :
  forall (w : bytes) (blocksize removed n c a b : Z),
    len w = blocksize ->
    head w = Some removed ->
    weakchecksum w = (c, a, b) ->
    rollingchecksum removed n a b blocksize = weakchecksum (tail w ++ [n])
    /\ weakchecksum (tail w ++ [n])
       = (composite (unweighted_sum (tail w ++ [n])) (weighted_sum (tail w ++ [n])),
          unweighted_sum (tail w ++ [n]),
          weighted_sum (tail w ++ [n])).
Proof.
  intros w blocksize removed n c a b Hlen Hhead Hsum.
  split; [|apply weakchecksum_sums].
  destruct w as [|x rest]; [discriminate|].
  injection Hhead as ->.
  rewrite weakchecksum_sums in Hsum. injection Hsum as _ <- <-.
  rewrite weakchecksum_sums. cbn [tail].
  unfold rollingchecksum, composite.
  rewrite weighted_sum_snoc, unweighted_sum_snoc.
  cbn [weighted_sum unweighted_sum]. rewrite <- Hlen.
  repeat f_equal; lia.
Qed.

Lemma rollingchecksum_slides_window_witness :
  rollingchecksum 3 7 (3 + 1 + 4) (3 * 3 + 2 * 1 + 1 * 4) 3 = weakchecksum [1; 4; 7].
Proof.
  apply (rollingchecksum_slides_window [3; 1; 4] 3 3 7 (composite 8 15) 8 15);
    reflexivity.
Defined.

(** ** Signature generator *)

Section Blocks.

Variable n : nat.
Hypothesis n_pos : (0 < n)%nat.

Lemma block_count_nil : block_count n [] = 0%nat.
Proof.
  unfold block_count. simpl length. apply Nat.div_small. lia.
Qed.

Lemma block_count_unfold (data : bytes) :
  data <> [] -> block_count n data = S (block_count n (drop n data)).
Proof.
  intros Hne. unfold block_count. rewrite length_drop.
  assert (0 < length data)%nat by (destruct data; [done | simpl; lia]).
  destruct (decide (length data < n)%nat) as [Hlt|Hge].
  - replace (length data - n)%nat with 0%nat by lia.
    rewrite (Nat.div_small (0 + n - 1)) by lia.
    symmetry. apply (Nat.div_unique _ _ 1 (length data - 1)); lia.
  - replace (length data + n - 1)%nat with ((length data - n + n - 1) + 1 * n)%nat by lia.
    rewrite Nat.div_add by lia. lia.
Qed.

Lemma blocks_of_nil : blocks_of n [] = [].
Proof. unfold blocks_of. rewrite block_count_nil. reflexivity. Qed.

Lemma blocks_of_unfold (data : bytes) :
  data <> [] -> blocks_of n data = take n data :: blocks_of n (drop n data).
Proof.
  intros Hne. unfold blocks_of. rewrite (block_count_unfold data Hne).
  rewrite <- cons_seq. cbn [map]. f_equal.
  rewrite <- seq_shift, map_map. apply map_ext. intros i.
  unfold block_at. rewrite drop_drop. f_equal; f_equal; lia.
Qed.

Lemma blocks_induction (P : bytes -> Prop) :
  P [] ->
  (forall data, data <> [] -> P (drop n data) -> P data) ->
  forall data, P data.
Proof.
  intros Hnil Hstep data.
  remember (length data) as k eqn:Hk. revert data Hk.
  induction k as [k IH] using lt_wf_ind. intros data Hk.
  destruct data as [|x rest]; [exact Hnil|].
  apply Hstep; [done|].
  apply (IH (length (drop n (x :: rest)))); [|reflexivity].
  rewrite length_drop. subst k. simpl. lia.
Qed.

Lemma concat_blocks_of (data : bytes) : concat (blocks_of n data) = data.
Proof.
  induction data as [|data Hne IH] using blocks_induction.
  - rewrite blocks_of_nil. reflexivity.
  - rewrite blocks_of_unfold by done. cbn [concat]. rewrite IH. apply take_drop.
Qed.

Lemma length_blocks_of (data : bytes) :
  length (blocks_of n data) = block_count n data.
Proof. unfold blocks_of. rewrite length_map, length_seq. reflexivity. Qed.

Lemma lookup_blocks_of (data : bytes) (i : nat) :
  (i < block_count n data)%nat ->
  blocks_of n data !! i = Some (block_at n data i).
Proof.
  intros Hi. unfold blocks_of.
  change (map ?f ?l) with (f <$> l).
  rewrite list_lookup_fmap, lookup_seq_lt by done. reflexivity.
Qed.

Lemma block_count_bounds (data : bytes) (i : nat) :
  (i < block_count n data)%nat <-> (i * n < length data)%nat.
Proof.
  unfold block_count. split.
  - intros Hi.
    assert (S i * n <= length data + n - 1)%nat; [|lia].
    etransitivity; [|apply (Nat.Div0.mul_div_le _ n)].
    rewrite (Nat.mul_comm n). apply Nat.mul_le_mono_r. lia.
  - intros Hi. unfold lt. apply Nat.div_le_lower_bound; lia.
Qed.

Lemma block_at_nonempty (data : bytes) (i : nat) :
  (i < block_count n data)%nat -> block_at n data i <> [].
Proof.
  intros Hi%block_count_bounds Hnil.
  apply (f_equal length) in Hnil. unfold block_at in Hnil.
  rewrite length_take, length_drop in Hnil. simpl in Hnil. lia.
Qed.

Lemma block_at_full (data : bytes) (i : nat) :
  (S i < block_count n data)%nat -> length (block_at n data i) = n.
Proof.
  intros Hi%block_count_bounds. unfold block_at.
  rewrite length_take, length_drop. lia.
Qed.

End Blocks.

Section SignatureGenerator.

Variable md5 : bytes -> bytes.

Lemma read_block (blocksize : Z) (s : stream) :
  0 < blocksize ->
  read blocksize s
  = (take (Z.to_nat blocksize) (drop (cursor s) (content s)),
     Stream (content s)
            (cursor s + length (take (Z.to_nat blocksize) (drop (cursor s) (content s))))
            (auto_close s)).
Proof.
  intros HB. unfold read.
  destruct (blocksize <? 0) eqn:E; [lia|]. reflexivity.
Qed.

Lemma checksums_from_blocks (blocksize : Z) :
  0 < blocksize ->
  forall fuel s,
    (length (content s) - cursor s < fuel)%nat ->
    checksums_from md5 fuel blocksize s
    = Some (map (signature_of md5)
                (blocks_of (Z.to_nat blocksize) (drop (cursor s) (content s)))).
Proof.
  intros HB. assert (Hn : (0 < Z.to_nat blocksize)%nat) by lia.
  induction fuel as [|fuel IH]; intros s Hfuel; [lia|].
  cbn [checksums_from]. rewrite read_block by done.
  destruct (drop (cursor s) (content s)) as [|x rest] eqn:Hrest.
  - rewrite take_nil, blocks_of_nil by done. reflexivity.
  - rewrite (blocks_of_unfold _ Hn (x :: rest)) by done.
    destruct (take (Z.to_nat blocksize) (x :: rest)) as [|y blk] eqn:Hblk.
    { destruct (Z.to_nat blocksize); [lia | discriminate]. }
    rewrite IH.
    + cbn [content cursor map]. rewrite <- Hblk, <- Hrest.
      rewrite length_take, drop_drop, length_drop.
      do 4 f_equal.
      destruct (decide (Z.to_nat blocksize <= length (content s) - cursor s)%nat).
      * f_equal. lia.
      * rewrite !drop_ge; [done| |]; rewrite ?length_drop; lia.
    + cbn [content cursor]. rewrite <- Hblk, <- Hrest.
      rewrite length_take, length_drop.
      assert (0 < length (drop (cursor s) (content s)))%nat
        by (rewrite Hrest; simpl; lia).
      rewrite length_drop in *. lia.
Qed.

(** C8.  For a positive block size, the signature generator run on a
    stream positioned at its start yields, in block order, one pair per
    consecutive non-overlapping block of the content: the weak checksum
    that [weakchecksum] computes on the block and the strong hash of the
    same bytes.  The blocks cover the content exactly; every one is
    non-empty, every one but the last has [blocksize] bytes, and the last,
    possibly shorter, one has its entry too. *)
Theorem block_checksums_one_entry_per_block :
  forall (data : bytes) (flag : bool) (blocksize : Z),
    0 < blocksize ->
    let n := Z.to_nat blocksize in
    let sigs := map (signature_of md5) (blocks_of n data) in
    Pyzsync.block_checksums md5 (Stream data 0 flag) blocksize = Some sigs
    /\ Pyrsync2.blockchecksums md5 (Stream data 0 flag) blocksize = Some sigs
    /\ length sigs = ((length data + n - 1) / n)%nat
    /\ concat (blocks_of n data) = data
    /\ forall i, (i < length sigs)%nat ->
         blocks_of n data !! i = Some (take n (drop (i * n) data))
         /\ sigs !! i
            = Some (fst (fst (weakchecksum (take n (drop (i * n) data)))),
                    md5 (take n (drop (i * n) data)))
         /\ take n (drop (i * n) data) <> []
         /\ ((S i < length sigs)%nat -> length (take n (drop (i * n) data)) = n).
Proof.
  intros data flag blocksize HB n sigs.
  assert (Hn : (0 < n)%nat) by (unfold n; lia).
  assert (Hlen : length sigs = block_count n data)
    by (unfold sigs; rewrite length_map; apply length_blocks_of).
  split; [|split; [|split; [|split]]].
  - unfold Pyzsync.block_checksums.
    rewrite checksums_from_blocks by (cbn; lia). reflexivity.
  - unfold Pyrsync2.blockchecksums.
    rewrite checksums_from_blocks by (cbn; lia). reflexivity.
  - exact Hlen.
  - apply concat_blocks_of. exact Hn.
  - intros i Hi. rewrite Hlen in Hi.
    pose proof (lookup_blocks_of n data i Hi) as Hblk. unfold block_at in Hblk.
    split; [exact Hblk|]. split; [|split].
    + unfold sigs. change (map ?f ?l) with (f <$> l).
      rewrite list_lookup_fmap, Hblk. reflexivity.
    + apply (block_at_nonempty n Hn data i Hi).
    + rewrite Hlen. apply (block_at_full n Hn data i).
Qed.

End SignatureGenerator.

Lemma block_checksums_one_entry_per_block_witness :
  Pyzsync.block_checksums MD5.digest (Stream [1; 0; 1; 0; 2; 0; 7] 0 false) 3
  = Some (map (signature_of MD5.digest) [[1; 0; 1]; [0; 2; 0]; [7]]).
Proof.
  apply (block_checksums_one_entry_per_block MD5.digest [1; 0; 1; 0; 2; 0; 7] false 3).
  lia.
Defined.


(** ** Blueprint encoder *)

Section Blueprint.

Lemma place_is_place_with (blocksize : Z) :
  Pyzsync.place blocksize = place_with (triple_of blocksize).
Proof. reflexivity. Qed.

Lemma place2_is_place_with : Pyrsync2.place = place_with pair_of.
Proof. reflexivity. Qed.

Lemma fold_result_app {A B : Type} (f : A -> B -> result A) (l k : list B) :
  forall acc,
    fold_result f acc (l ++ k)
    = match fold_result f acc l with
      | Ok acc' => fold_result f acc' k
      | Err e => Err e
      end.
Proof.
  induction l as [|x l IH]; intros acc; [reflexivity|].
  cbn [fold_result app]. destruct (f acc x); [apply IH | reflexivity].
Qed.

Lemma fold_result_keyed {A : Type} (f : Z -> A -> Pyzsync.entry -> result A)
  (k : Z) (bucket : list Pyzsync.entry) :
  forall acc,
    fold_result (fun acc we => f (fst we) acc (snd we)) acc (map (pair k) bucket)
    = fold_result (f k) acc bucket.
Proof.
  induction bucket as [|e bucket IH]; intros acc; [reflexivity|].
  cbn [fold_result map fst snd]. destruct (f k acc e); [apply IH | reflexivity].
Qed.

Lemma fold_result_entries {A : Type} (f : Z -> A -> Pyzsync.entry -> result A)
  (t : Pyzsync.table) :
  forall acc,
    fold_result (fun acc kv => fold_result (f (fst kv)) acc (snd kv)) acc t
    = fold_result (fun acc we => f (fst we) acc (snd we)) acc (entries t).
Proof.
  induction t as [|[k bucket] t IH]; intros acc; [reflexivity|].
  unfold entries. cbn [flat_map fold_result fst snd].
  rewrite fold_result_app, fold_result_keyed.
  destruct (fold_result (f k) acc bucket); [apply IH | reflexivity].
Qed.

Variable mk : nat -> Z -> bytes -> Pyzsync.slot.

Lemma place_with_pair (w : Z) (b : nat) (s : bytes) instructions to_request :
  (b < length instructions)%nat ->
  place_with mk w (instructions, to_request) (Pyzsync.Pair b s)
  = Ok (<[b := mk b w s]> instructions, to_request ++ [b]).
Proof.
  intros Hb. unfold place_with. cbn [Pyzsync.entry_block].
  rewrite bool_decide_eq_true_2 by done. reflexivity.
Qed.

Lemma place_with_triple (w : Z) (b : nat) (s : bytes) (off : Z) instructions to_request :
  (b < length instructions)%nat ->
  place_with mk w (instructions, to_request) (Pyzsync.Triple b s off)
  = Ok (<[b := Pyzsync.SInt off]> instructions, to_request).
Proof.
  intros Hb. unfold place_with. cbn [Pyzsync.entry_block].
  rewrite bool_decide_eq_true_2 by done. reflexivity.
Qed.

Lemma fold_place_with (es : list (Z * Pyzsync.entry)) :
  forall instructions to_request,
    NoDup (map (fun we => Pyzsync.entry_block (snd we)) es) ->
    Forall (fun we => (Pyzsync.entry_block (snd we) < length instructions)%nat) es ->
    exists instructions',
      fold_result (fun acc we => place_with mk (fst we) acc (snd we))
                  (instructions, to_request) es
      = Ok (instructions',
            to_request
            ++ map (fun we => Pyzsync.entry_block (snd we))
                   (filter (fun we => is_pair (snd we) = true) es))
      /\ length instructions' = length instructions
      /\ (forall w e, (w, e) ∈ es ->
            instructions' !! Pyzsync.entry_block e = Some (slot_with mk w e))
      /\ (forall i, i ∉ map (fun we => Pyzsync.entry_block (snd we)) es ->
            instructions' !! i = instructions !! i).
Proof.
  induction es as [|[w e] es IH]; intros instructions to_request Hnd Hlt.
  - exists instructions. cbn. rewrite app_nil_r.
    split; [reflexivity|]. split; [done|]. split; [|done].
    intros w e H. inversion H.
  - cbn [map snd] in Hnd. apply NoDup_cons in Hnd as [Hnotin Hnd].
    apply Forall_cons in Hlt as [Hb Hlt]. cbn [snd] in Hb.
    cbn [fold_result fst snd].
    destruct e as [i0 s | i0 s off]; cbn [Pyzsync.entry_block] in *.
    + rewrite place_with_pair by done.
      destruct (IH (<[i0 := mk i0 w s]> instructions) (to_request ++ [i0]) Hnd)
        as (ins & Hfold & Hlen & Hin & Hout).
      { eapply Forall_impl; [exact Hlt|]. intros we. rewrite length_insert. done. }
      exists ins. rewrite Hfold. rewrite filter_cons_True by done.
      cbn [map snd Pyzsync.entry_block]. rewrite <- app_assoc.
      split; [reflexivity|]. split; [by rewrite Hlen, length_insert|]. split.
      * intros w' e' [Heq|Hin']%elem_of_cons.
        -- injection Heq as -> ->. cbn [Pyzsync.entry_block slot_with].
           rewrite Hout by done. apply list_lookup_insert_eq. done.
        -- apply Hin. done.
      * intros i Hi. cbn [map snd Pyzsync.entry_block] in Hi.
        apply not_elem_of_cons in Hi as [Hne Hi].
        rewrite Hout by done. apply list_lookup_insert_ne. done.
    + rewrite place_with_triple by done.
      destruct (IH (<[i0 := Pyzsync.SInt off]> instructions) to_request Hnd)
        as (ins & Hfold & Hlen & Hin & Hout).
      { eapply Forall_impl; [exact Hlt|]. intros we. rewrite length_insert. done. }
      exists ins. rewrite Hfold. rewrite filter_cons_False by done.
      split; [reflexivity|]. split; [by rewrite Hlen, length_insert|]. split.
      * intros w' e' [Heq|Hin']%elem_of_cons.
        -- injection Heq as -> ->. cbn [Pyzsync.entry_block slot_with].
           rewrite Hout by done. apply list_lookup_insert_eq. done.
        -- apply Hin. done.
      * intros i Hi. cbn [map snd Pyzsync.entry_block] in Hi.
        apply not_elem_of_cons in Hi as [Hne Hi].
        rewrite Hout by done. apply list_lookup_insert_ne. done.
Qed.

End Blueprint.

Section TableShape.

Lemma block_order_shape (t : Pyzsync.table) :
  block_order t = concat (map snd (shape t)).
Proof.
  unfold block_order, entries, shape.
  induction t as [|[k bucket] t IH]; [reflexivity|].
  cbn [flat_map map concat fst snd]. rewrite map_app, IH. f_equal.
  rewrite map_map. reflexivity.
Qed.

Lemma tbl_set_shape (k : Z) (bucket bucket' : list Pyzsync.entry) (t : Pyzsync.table) :
  Pyzsync.tbl_get k t = Some bucket ->
  map Pyzsync.entry_block bucket' = map Pyzsync.entry_block bucket ->
  shape (Pyzsync.tbl_set k bucket' t) = shape t.
Proof.
  intros Hget Hsame. induction t as [|[k0 b0] t IH]; [discriminate|].
  cbn [Pyzsync.tbl_get Pyzsync.tbl_set] in *.
  destruct (k0 =? k) eqn:E.
  - injection Hget as ->. cbn [shape map fst snd]. rewrite Hsame. reflexivity.
  - cbn [shape map fst snd]. f_equal. apply IH. exact Hget.
Qed.

Lemma confirm_shape (local_strong : bytes) (offset : Z) (bucket : list Pyzsync.entry) :
  forall bucket' hit,
    Pyzsync.confirm local_strong offset bucket = Ok (bucket', hit) ->
    map Pyzsync.entry_block bucket' = map Pyzsync.entry_block bucket.
Proof.
  induction bucket as [|e bucket IH]; intros bucket' hit H.
  - injection H as <- <-. reflexivity.
  - destruct e as [b s | b s off]; cbn [Pyzsync.confirm] in H; [|discriminate].
    case_bool_decide.
    + injection H as <- <-. reflexivity.
    + destruct (Pyzsync.confirm local_strong offset bucket) as [[rest' hit']|] eqn:E;
        [|discriminate].
      injection H as <- <-. cbn [map]. f_equal. eapply IH. reflexivity.
Qed.

Lemma reseed_table (blocksize : Z) (s : Pyzsync.scan) :
  Pyzsync.remote_hashes (Pyzsync.reseed blocksize s) = Pyzsync.remote_hashes s.
Proof.
  unfold Pyzsync.reseed.
  destruct (Pyzsync.matched s && Pyzsync.live s); [|reflexivity].
  destruct (read blocksize (Pyzsync.datastream s)) as [blk ds].
  destruct (weakchecksum blk) as [[c a] b]. reflexivity.
Qed.

Lemma pull_table (blocksize : Z) (s s' : Pyzsync.scan) :
  Pyzsync.pull blocksize s = Ok s' ->
  Pyzsync.remote_hashes s' = Pyzsync.remote_hashes s.
Proof.
  unfold Pyzsync.pull. intros H.
  destruct (Pyzsync.live s); [|by injection H as <-].
  destruct (read 1 (Pyzsync.datastream s)) as [[|x got] ds].
  - destruct (blocksize =? 0); [discriminate|]. by injection H as <-.
  - by injection H as <-.
Qed.

Lemma shift_table (blocksize : Z) (s s' : Pyzsync.scan) :
  Pyzsync.shift blocksize s = Pyzsync.Continue s' \/ Pyzsync.shift blocksize s = Pyzsync.Break s' ->
  Pyzsync.remote_hashes s' = Pyzsync.remote_hashes s.
Proof.
  unfold Pyzsync.shift.
  destruct (Pyzsync.pull blocksize _) as [s1|e] eqn:Hpull; [|intros [?|?]; discriminate].
  apply pull_table in Hpull. cbn [Pyzsync.remote_hashes] in Hpull.
  destruct (negb (Pyzsync.live s1) && _).
  - intros [H|H]; [discriminate|]. injection H as <-. exact Hpull.
  - destruct (Pyzsync.window s1) as [|oldbyte rest]; [intros [?|?]; discriminate|].
    destruct (rollingchecksum _ _ _ _ _) as [[c a] b].
    intros [H|H]; [|discriminate]. injection H as <-. exact Hpull.
Qed.

Variable md5 : bytes -> bytes.

Lemma step_shape (blocksize : Z) (s s' : Pyzsync.scan) :
  Pyzsync.step md5 blocksize s = Pyzsync.Continue s'
  \/ Pyzsync.step md5 blocksize s = Pyzsync.Break s' ->
  shape (Pyzsync.remote_hashes s') = shape (Pyzsync.remote_hashes s).
Proof.
  unfold Pyzsync.step. rewrite <- (reseed_table blocksize s).
  set (s0 := Pyzsync.reseed blocksize s).
  destruct (Pyzsync.tbl_get _ _) as [bucket|] eqn:Hget.
  - destruct (Pyzsync.confirm _ _ _) as [[bucket' hit]|e] eqn:Hconfirm;
      [|intros [?|?]; discriminate].
    cbn [Pyzsync.live Pyzsync.datastream].
    assert (Hshape : shape (Pyzsync.tbl_set (Pyzsync.checksum s0) bucket'
                              (Pyzsync.remote_hashes s0))
                     = shape (Pyzsync.remote_hashes s0)).
    { eapply tbl_set_shape; [exact Hget|]. eapply confirm_shape, Hconfirm. }
    destruct (Pyzsync.live s0); [|intros [?|?]; discriminate].
    destruct (closed _); intros [H|H]; try discriminate;
      injection H as <-; exact Hshape.
  - intros H. apply shift_table in H. rewrite H. reflexivity.
Qed.

Lemma scan_loop_shape (blocksize : Z) :
  forall fuel s s',
    Pyzsync.scan_loop md5 fuel blocksize s = Done s' ->
    shape (Pyzsync.remote_hashes s') = shape (Pyzsync.remote_hashes s).
Proof.
  induction fuel as [|fuel IH]; intros s s' H; [discriminate|].
  cbn [Pyzsync.scan_loop] in H.
  destruct (Pyzsync.step md5 blocksize s) as [s1|s1|e] eqn:Hstep.
  - rewrite (IH _ _ H). apply (step_shape blocksize). left. exact Hstep.
  - injection H as <-. apply (step_shape blocksize). right. exact Hstep.
  - discriminate.
Qed.

End TableShape.

Section TableBuild.

Lemma block_order_cons (k : Z) (bucket : list Pyzsync.entry) (t : Pyzsync.table) :
  block_order ((k, bucket) :: t) = map Pyzsync.entry_block bucket ++ block_order t.
Proof.
  unfold block_order, entries. cbn [flat_map fst snd].
  rewrite map_app, map_map. reflexivity.
Qed.

Lemma tbl_set_absent (k : Z) (bucket : list Pyzsync.entry) (t : Pyzsync.table) :
  Pyzsync.tbl_get k t = None ->
  Pyzsync.tbl_set k bucket t = t ++ [(k, bucket)].
Proof.
  induction t as [|[k0 b0] t IH]; [reflexivity|].
  cbn [Pyzsync.tbl_get Pyzsync.tbl_set]. destruct (k0 =? k); [discriminate|].
  intros H. rewrite IH by done. reflexivity.
Qed.

Lemma block_order_snoc (k : Z) (bucket : list Pyzsync.entry) (t : Pyzsync.table) :
  block_order (t ++ [(k, bucket)]) = block_order t ++ map Pyzsync.entry_block bucket.
Proof.
  induction t as [|[k0 b0] t IH].
  - rewrite app_nil_l, block_order_cons. unfold block_order at 1. cbn.
    rewrite app_nil_r. reflexivity.
  - rewrite <- app_comm_cons, !block_order_cons, IH, app_assoc. reflexivity.
Qed.

Lemma block_order_extend (k : Z) (bucket : list Pyzsync.entry) (e : Pyzsync.entry)
  (t : Pyzsync.table) :
  Pyzsync.tbl_get k t = Some bucket ->
  block_order (Pyzsync.tbl_set k (bucket ++ [e]) t)
  ≡ₚ block_order t ++ [Pyzsync.entry_block e].
Proof.
  induction t as [|[k0 b0] t IH]; [discriminate|].
  cbn [Pyzsync.tbl_get Pyzsync.tbl_set]. destruct (k0 =? k).
  - intros H. injection H as ->. rewrite !block_order_cons, map_app.
    cbn [map]. rewrite <- !app_assoc. apply Permutation_app_head, Permutation_app_comm.
  - intros H. rewrite !block_order_cons, IH by done. rewrite app_assoc. reflexivity.
Qed.

Lemma block_order_add_signature (t : Pyzsync.table) (block : nat) (sig : signature) :
  block_order (Pyzsync.add_signature t block sig) ≡ₚ block_order t ++ [block].
Proof.
  destruct sig as [weak strong]. unfold Pyzsync.add_signature.
  destruct (Pyzsync.tbl_get weak t) as [bucket|] eqn:Hget.
  - apply (block_order_extend weak bucket (Pyzsync.Pair block strong) t Hget).
  - rewrite tbl_set_absent, block_order_snoc by done. reflexivity.
Qed.

Lemma block_order_index_signatures (sigs : list signature) :
  forall block t,
    block_order (Pyzsync.index_signatures block sigs t)
    ≡ₚ block_order t ++ seq block (length sigs).
Proof.
  induction sigs as [|sig sigs IH]; intros block t.
  - cbn. rewrite app_nil_r. reflexivity.
  - cbn [Pyzsync.index_signatures length seq].
    rewrite IH, block_order_add_signature, <- app_assoc. reflexivity.
Qed.

Lemma block_order_initial (sigs : list signature) :
  block_order (Pyzsync.index_signatures 0 sigs []) ≡ₚ seq 0 (length sigs).
Proof. apply (block_order_index_signatures sigs 0 []). Qed.

End TableBuild.

Section BlueprintEncoder.

Variable md5 : bytes -> bytes.

Lemma NoDup_map_inj {A B : Type} (f : A -> B) (l : list A) (x y : A) :
  NoDup (map f l) -> x ∈ l -> y ∈ l -> f x = f y -> x = y.
Proof.
  induction l as [|a l IH]; intros Hnd Hx Hy Hf; [inversion Hx|].
  cbn [map] in Hnd. apply NoDup_cons in Hnd as [Ha Hnd].
  apply elem_of_cons in Hx as [->|Hx]; apply elem_of_cons in Hy as [->|Hy].
  - reflexivity.
  - exfalso. apply Ha. rewrite Hf. apply (list_elem_of_fmap_2 f). exact Hy.
  - exfalso. apply Ha. rewrite <- Hf. apply (list_elem_of_fmap_2 f). exact Hx.
  - apply IH; assumption.
Qed.

Lemma filter_absent (l : list nat) (i : nat) :
  i ∉ l -> filter (fun j => j = i) l = [].
Proof.
  induction l as [|a l IH]; intros Hi; [reflexivity|].
  apply not_elem_of_cons in Hi as [Hne Hi].
  rewrite filter_cons_False by congruence. apply IH. exact Hi.
Qed.

Lemma occurs_once (l : list nat) (i : nat) :
  NoDup l -> i ∈ l -> length (filter (fun j => j = i) l) = 1%nat.
Proof.
  induction l as [|a l IH]; intros Hnd Hi; [inversion Hi|].
  apply NoDup_cons in Hnd as [Ha Hnd].
  destruct (decide (a = i)) as [->|Hne].
  - rewrite filter_cons_True, filter_absent by done. reflexivity.
  - rewrite filter_cons_False by done. apply IH; [done|].
    apply elem_of_cons in Hi as [->|Hi]; done.
Qed.

(** What [get_instructions] computes on a table that holds every block
    index below [num_blocks] once. *)
Lemma get_instructions_with (mk : nat -> Z -> bytes -> Pyzsync.slot)
  (t : Pyzsync.table) (num_blocks : nat) :
  block_order t ≡ₚ seq 0 num_blocks ->
  exists instructions,
    fold_result (fun acc kv => fold_result (place_with mk (fst kv)) acc (snd kv))
                (replicate num_blocks Pyzsync.SNone, []) t
    = Ok (instructions,
          map (fun we => Pyzsync.entry_block (snd we))
              (filter (fun we => is_pair (snd we) = true) (entries t)))
    /\ length instructions = num_blocks
    /\ (forall w e, (w, e) ∈ entries t ->
          instructions !! Pyzsync.entry_block e = Some (slot_with mk w e)).
Proof.
  intros Hperm. rewrite fold_result_entries.
  destruct (fold_place_with mk (entries t) (replicate num_blocks Pyzsync.SNone) [])
    as (ins & Hfold & Hlen & Hin & _).
  - fold (block_order t). rewrite Hperm. apply NoDup_seq.
  - apply Forall_forall. intros [w e] Hwe. rewrite length_replicate.
    assert (Pyzsync.entry_block e ∈ block_order t) as Hb
      by (apply (list_elem_of_fmap_2 (fun we => Pyzsync.entry_block (snd we)) _ _ Hwe)).
    rewrite Hperm in Hb. apply elem_of_seq in Hb. cbn [snd]. lia.
  - exists ins. rewrite Hfold, length_replicate in *. done.
Qed.

Lemma scan_keeps_blocks (fuel : nat) (ds : stream) (sigs : list signature)
  (blocksize : Z) (s : Pyzsync.scan) :
  Pyzsync.scan_loop md5 fuel blocksize
    (Pyzsync.scan_init ds (Pyzsync.index_signatures 0 sigs []) blocksize) = Done s ->
  shape (Pyzsync.remote_hashes s) = shape (Pyzsync.index_signatures 0 sigs [])
  /\ block_order (Pyzsync.remote_hashes s) ≡ₚ seq 0 (length sigs).
Proof.
  intros H. apply scan_loop_shape in H. cbn [Pyzsync.scan_init Pyzsync.remote_hashes] in H.
  split; [exact H|].
  rewrite block_order_shape, H, <- block_order_shape. apply block_order_initial.
Qed.

(** The entry of a block in a table that holds every block index once. *)
Lemma entry_of_block (t : Pyzsync.table) (num_blocks i : nat) :
  block_order t ≡ₚ seq 0 num_blocks ->
  (i < num_blocks)%nat ->
  exists w e, (w, e) ∈ entries t /\ Pyzsync.entry_block e = i.
Proof.
  intros Hperm Hi.
  assert (i ∈ block_order t) as Hin by (rewrite Hperm; apply elem_of_seq; lia).
  apply list_elem_of_fmap in Hin as ([w e] & -> & Hin). eauto.
Qed.

Lemma requested_iff_pair (t : Pyzsync.table) (num_blocks : nat) (w : Z)
  (e : Pyzsync.entry) :
  block_order t ≡ₚ seq 0 num_blocks ->
  (w, e) ∈ entries t ->
  Pyzsync.entry_block e
    ∈ map (fun we => Pyzsync.entry_block (snd we))
          (filter (fun we => is_pair (snd we) = true) (entries t))
  <-> is_pair e = true.
Proof.
  intros Hperm Hwe. split.
  - intros ([w' e'] & Hb & Hin)%list_elem_of_fmap.
    apply list_elem_of_filter in Hin as [Hpair Hin]. cbn [snd] in *.
    assert ((w, e) = (w', e')) as Heq.
    { apply (NoDup_map_inj (fun we => Pyzsync.entry_block (snd we)) (entries t));
        [|done..].
      fold (block_order t). rewrite Hperm. apply NoDup_seq. }
    injection Heq as -> ->. exact Hpair.
  - intros Hpair.
    apply (list_elem_of_fmap_2 (fun we => Pyzsync.entry_block (snd we)) _ (w, e)).
    apply list_elem_of_filter. done.
Qed.

Lemma requested_NoDup (t : Pyzsync.table) (num_blocks : nat) :
  block_order t ≡ₚ seq 0 num_blocks ->
  NoDup (map (fun we => Pyzsync.entry_block (snd we))
             (filter (fun we => is_pair (snd we) = true) (entries t))).
Proof.
  intros Hperm. apply (sublist_NoDup _ (block_order t)).
  - rewrite Hperm. apply NoDup_seq.
  - apply fmap_sublist, sublist_filter.
Qed.

(** A completed blueprint scan, slot by slot. *)
Lemma blueprint_slot_cases (fuel : nat) (ds : stream) (sigs : list signature)
  (blocksize : Z) (instructions : list Pyzsync.slot) (to_request : list nat) :
  Pyzsync.zsync_delta md5 fuel ds sigs blocksize = Done (instructions, to_request) ->
  length instructions = length sigs
  /\ NoDup to_request
  /\ (forall i, i ∈ to_request -> (i < length sigs)%nat)
  /\ forall i, (i < length sigs)%nat ->
       ((exists local_offset, instructions !! i = Some (Pyzsync.SInt local_offset))
        /\ i ∉ to_request)
       \/ ((exists weak strong,
              instructions !! i
              = Some (Pyzsync.STriple (Z.of_nat i * blocksize) weak strong))
           /\ i ∈ to_request).
Proof.
  intros H. unfold Pyzsync.zsync_delta in H.
  destruct (Pyzsync.scan_loop md5 fuel blocksize _) as [s| |] eqn:Hloop; try discriminate.
  apply scan_keeps_blocks in Hloop as [_ Hperm].
  destruct (get_instructions_with (triple_of blocksize) _ _ Hperm)
    as (ins & Hget & Hlen & Hslot).
  unfold Pyzsync.get_instructions in H. rewrite place_is_place_with, Hget in H.
  injection H as <- <-.
  split; [exact Hlen|]. split; [apply (requested_NoDup _ _ Hperm)|]. split.
  - intros i ([w e] & -> & Hin)%list_elem_of_fmap.
    apply list_elem_of_filter in Hin as [_ Hin].
    assert (Pyzsync.entry_block e ∈ block_order (Pyzsync.remote_hashes s)) as Hb
      by (apply (list_elem_of_fmap_2 (fun we => Pyzsync.entry_block (snd we)) _ _ Hin)).
    rewrite Hperm in Hb. apply elem_of_seq in Hb. cbn [snd]. lia.
  - intros i Hi.
    destruct (entry_of_block _ _ i Hperm Hi) as (w & e & Hwe & Hb).
    pose proof (Hslot w e Hwe) as Hs. rewrite Hb in Hs.
    pose proof (requested_iff_pair _ _ w e Hperm Hwe) as Hreq. rewrite Hb in Hreq.
    destruct e as [b st | b st off]; cbn [slot_with is_pair Pyzsync.entry_block] in *.
    + right. split; [|by apply Hreq]. subst b. unfold triple_of in Hs. eauto.
    + left. split; [eauto|]. intros Hin. apply Hreq in Hin. discriminate.
Qed.

(** C6.  After a blueprint scan that ran to completion the array has one
    slot per signature, and every block index below [num_blocks] is in
    exactly one of two states: its slot holds a local byte offset and the
    index is not in [to_request], or its slot holds the triple of an
    unmatched block and the index occurs exactly once in [to_request]. *)
Theorem blueprint_resolved_xor_requested :
  forall (fuel : nat) (ds : stream) (sigs : list signature) (blocksize : Z)
         (instructions : list Pyzsync.slot) (to_request : list nat),
    Pyzsync.zsync_delta md5 fuel ds sigs blocksize = Done (instructions, to_request) ->
    length instructions = length sigs
    /\ forall i, (i < length sigs)%nat ->
         ((exists local_offset, instructions !! i = Some (Pyzsync.SInt local_offset))
          /\ i ∉ to_request)
         \/ ((exists weak strong,
                instructions !! i
                = Some (Pyzsync.STriple (Z.of_nat i * blocksize) weak strong))
             /\ length (filter (fun j => j = i) to_request) = 1%nat).
Proof.
  intros fuel ds sigs blocksize instructions to_request H.
  destruct (blueprint_slot_cases _ _ _ _ _ _ H) as (Hlen & Hnd & _ & Hcases).
  split; [exact Hlen|]. intros i Hi.
  destruct (Hcases i Hi) as [Hres|[Hun Hin]]; [left; exact Hres|].
  right. split; [exact Hun|]. apply occurs_once; assumption.
Qed.

End BlueprintEncoder.

Lemma blueprint_resolved_xor_requested_witness :
  exists instructions to_request,
    Pyzsync.zsync_delta MD5.digest 20 (open [9; 1; 2; 3; 4; 5; 6; 7; 8])
      (map (signature_of MD5.digest) [[1; 2; 3]; [4; 5; 6]; [7]]) 3
    = Done (instructions, to_request)
    /\ length instructions = 3%nat.
Proof.
  eexists _, _. split; [vm_compute; reflexivity|].
  eapply (blueprint_resolved_xor_requested MD5.digest 20
            (open [9; 1; 2; 3; 4; 5; 6; 7; 8])
            (map (signature_of MD5.digest) [[1; 2; 3]; [4; 5; 6]; [7]]) 3).
  vm_compute. reflexivity.
Defined.

Section Merge.

Variable md5 : bytes -> bytes.

Lemma get_blocks_indices (requests : list nat) (blocksize : Z) :
  forall ds blocks,
    Pyzsync.get_blocks ds requests blocksize = Ok blocks ->
    map fst blocks = requests.
Proof.
  induction requests as [|block rest IH]; intros ds blocks H.
  - injection H as <-. reflexivity.
  - cbn [Pyzsync.get_blocks] in H.
    destruct (seek _ ds) as [ds1|e]; [|discriminate].
    destruct (read blocksize ds1) as [content ds2].
    destruct (Pyzsync.get_blocks ds2 rest blocksize) as [l|e] eqn:E; [|discriminate].
    injection H as <-. cbn [map fst]. f_equal. eapply IH, E.
Qed.

Lemma merge_unresolved (blocksize : Z) (blocks : list (nat * bytes)) :
  forall instructions,
    NoDup (map fst blocks) ->
    (forall i c, (i, c) ∈ blocks ->
       exists weak strong,
         instructions !! i = Some (Pyzsync.STriple (Z.of_nat i * blocksize) weak strong)) ->
    exists merged,
      Pyzsync.merge_instructions_blocks instructions blocks blocksize = Ok merged
      /\ length merged = length instructions
      /\ (forall i c, (i, c) ∈ blocks -> merged !! i = Some (Pyzsync.SBytes c))
      /\ (forall i, i ∉ map fst blocks -> merged !! i = instructions !! i).
Proof.
  induction blocks as [|[block content] blocks IH]; intros instructions Hnd Hun.
  - exists instructions. split; [reflexivity|]. split; [done|]. split; [|done].
    intros i c H. inversion H.
  - cbn [map fst] in Hnd. apply NoDup_cons in Hnd as [Hfresh Hnd].
    destruct (Hun block content) as (weak & strong & Hslot); [left|].
    assert (Hlt : (block < length instructions)%nat)
      by (eapply lookup_lt_Some, Hslot).
    destruct (IH (<[block := Pyzsync.SBytes content]> instructions) Hnd)
      as (merged & Hmerge & Hlen & Hin & Hout).
    { intros i c Hic. destruct (Hun i c) as (w & s & Hs); [by right|].
      exists w, s. rewrite list_lookup_insert_ne; [exact Hs|].
      intros <-. apply Hfresh.
      apply (list_elem_of_fmap_2 fst _ _ Hic). }
    exists merged. split; [|split; [|split]].
    + unfold Pyzsync.merge_instructions_blocks in *. cbn [fold_result].
      unfold Pyzsync.first_component. rewrite Hslot, Z.eqb_refl. exact Hmerge.
    + rewrite Hlen. apply length_insert.
    + intros i c [Heq|Hic]%elem_of_cons.
      * injection Heq as -> ->. rewrite Hout by done.
        apply list_lookup_insert_eq. exact Hlt.
      * apply Hin. exact Hic.
    + intros i Hi. cbn [map fst] in Hi. apply not_elem_of_cons in Hi as [Hne Hi].
      rewrite Hout by done. apply list_lookup_insert_ne. done.
Qed.

(** C10.  After a blueprint scan that ran to completion every slot of the
    array is either an integer (the local byte offset of the match) or a
    triple whose first component is the slot's index times [blocksize].
    Merging the pairs that [get_blocks] yields for the indices of
    [to_request] then succeeds, puts the fetched bytes in exactly the slots
    listed in [to_request] (the slots that held a triple) and leaves every
    other slot as it was, so that only integers and bytes remain. *)
Theorem blueprint_slots_and_merge :
  forall (fuel : nat) (ds : stream) (sigs : list signature) (blocksize : Z)
         (instructions : list Pyzsync.slot) (to_request : list nat),
    Pyzsync.zsync_delta md5 fuel ds sigs blocksize = Done (instructions, to_request) ->
    (forall i slot, instructions !! i = Some slot ->
       (exists local_offset, slot = Pyzsync.SInt local_offset)
       \/ (exists weak strong,
             slot = Pyzsync.STriple (Z.of_nat i * blocksize) weak strong))
    /\ (forall i, i ∈ to_request <->
          exists o weak strong, instructions !! i = Some (Pyzsync.STriple o weak strong))
    /\ forall (source : stream) (blocks : list (nat * bytes)),
         Pyzsync.get_blocks source to_request blocksize = Ok blocks ->
         exists merged,
           Pyzsync.merge_instructions_blocks instructions blocks blocksize = Ok merged
           /\ length merged = length instructions
           /\ (forall i c, (i, c) ∈ blocks -> merged !! i = Some (Pyzsync.SBytes c))
           /\ (forall i, i ∉ to_request -> merged !! i = instructions !! i)
           /\ (forall i slot, merged !! i = Some slot ->
                 (exists local_offset, slot = Pyzsync.SInt local_offset)
                 \/ (exists c, slot = Pyzsync.SBytes c)).
Proof.
  intros fuel ds sigs blocksize instructions to_request H.
  destruct (blueprint_slot_cases md5 _ _ _ _ _ _ H) as (Hlen & Hnd & Hbound & Hcases).
  assert (Hshape : forall i slot, instructions !! i = Some slot ->
            ((exists local_offset, slot = Pyzsync.SInt local_offset) /\ i ∉ to_request)
            \/ ((exists weak strong,
                   slot = Pyzsync.STriple (Z.of_nat i * blocksize) weak strong)
                /\ i ∈ to_request)).
  { intros i slot Hslot.
    assert (Hi : (i < length sigs)%nat)
      by (rewrite <- Hlen; eapply lookup_lt_Some, Hslot).
    destruct (Hcases i Hi) as [[[off Hoff] Hnot]|[(w & s & Hws) Hin]].
    - left. split; [|exact Hnot]. exists off. congruence.
    - right. split; [|exact Hin]. exists w, s. congruence. }
  assert (Hreq : forall i, i ∈ to_request <->
            exists o weak strong,
              instructions !! i = Some (Pyzsync.STriple o weak strong)).
  { intros i. split.
    - intros Hin.
      destruct (Hcases i (Hbound i Hin)) as [[_ Hnot]|[(w & s & Hws) _]]; [done|eauto].
    - intros (o & w & s & Hslot).
      destruct (Hshape i _ Hslot) as [[[off Hoff] _]|[_ Hin]]; [discriminate|done]. }
  split; [|split; [exact Hreq|]].
  - intros i slot Hslot. destruct (Hshape i slot Hslot) as [[? _]|[? _]]; eauto.
  - intros source blocks Hblocks.
    pose proof (get_blocks_indices _ _ _ _ Hblocks) as Hidx.
    destruct (merge_unresolved blocksize blocks instructions) as
      (merged & Hmerge & Hmlen & Hin & Hout).
    { rewrite Hidx. exact Hnd. }
    { intros i c Hic.
      assert (Hi : i ∈ to_request)
        by (rewrite <- Hidx; apply (list_elem_of_fmap_2 fst _ _ Hic)).
      destruct (Hcases i (Hbound i Hi)) as [[_ Hnot]|[Hws _]]; [done|exact Hws]. }
    exists merged. split; [exact Hmerge|]. split; [exact Hmlen|].
    split; [exact Hin|]. split; [intros i Hi; apply Hout; by rewrite Hidx|].
    intros i slot Hslot.
    destruct (decide (i ∈ to_request)) as [Hi|Hi].
    + rewrite <- Hidx in Hi. apply list_elem_of_fmap in Hi as ([i' c] & -> & Hic).
      cbn [fst] in Hslot. rewrite (Hin _ _ Hic) in Hslot. injection Hslot as <-. eauto.
    + rewrite Hout in Hslot by (by rewrite Hidx).
      destruct (Hshape i slot Hslot) as [[? _]|[_ ?]]; [eauto|done].
Qed.

End Merge.

Lemma blueprint_slots_and_merge_witness :
  2%nat ∈ [2%nat] <->
  exists o weak strong,
    [Pyzsync.SInt 1; Pyzsync.SInt 4; Pyzsync.STriple 6 458759 (MD5.digest [7])]
      !! 2%nat
    = Some (Pyzsync.STriple o weak strong).
Proof.
  refine (proj1 (proj2 (blueprint_slots_and_merge MD5.digest 20
            (open [9; 1; 2; 3; 4; 5; 6; 7; 8])
            (map (signature_of MD5.digest) [[1; 2; 3]; [4; 5; 6]; [7]]) 3
            [Pyzsync.SInt 1; Pyzsync.SInt 4; Pyzsync.STriple 6 458759 (MD5.digest [7])]
            [2%nat] _)) 2%nat).
  vm_compute. reflexivity.
Defined.

Section TableOrder.

Lemma index_signatures_snoc (sigs : list signature) (sig : signature) :
  forall block t,
    Pyzsync.index_signatures block (sigs ++ [sig]) t
    = Pyzsync.add_signature (Pyzsync.index_signatures block sigs t)
                            (block + length sigs) sig.
Proof.
  induction sigs as [|x sigs IH]; intros block t.
  - cbn. rewrite Nat.add_0_r. reflexivity.
  - cbn [app Pyzsync.index_signatures length]. rewrite IH. f_equal. lia.
Qed.

Lemma elem_of_first_occurrences (weaks : list Z) (w : Z) :
  w ∈ first_occurrences weaks <-> w ∈ weaks.
Proof.
  induction weaks as [|x weaks IH]; [reflexivity|].
  cbn [first_occurrences]. rewrite !elem_of_cons, list_elem_of_filter, IH.
  destruct (decide (w = x)); tauto.
Qed.

Lemma NoDup_first_occurrences (weaks : list Z) : NoDup (first_occurrences weaks).
Proof.
  induction weaks as [|x weaks IH]; [constructor|].
  cbn [first_occurrences]. apply NoDup_cons. split.
  - rewrite list_elem_of_filter. intros [Hne _]. by apply Hne.
  - apply NoDup_filter, IH.
Qed.

Lemma first_occurrences_snoc (weaks : list Z) (w : Z) :
  first_occurrences (weaks ++ [w])
  = if decide (w ∈ weaks) then first_occurrences weaks
    else first_occurrences weaks ++ [w].
Proof.
  induction weaks as [|x weaks IH]; [reflexivity|].
  cbn [app first_occurrences]. rewrite IH.
  destruct (decide (w ∈ weaks)) as [Hin|Hnot].
  - rewrite decide_True by (by right). reflexivity.
  - rewrite filter_app. destruct (decide (w = x)) as [->|Hne].
    + rewrite decide_True by (by left).
      rewrite (filter_cons_False _ x) by (intros Hne; by apply Hne).
      rewrite filter_nil, app_nil_r. reflexivity.
    + rewrite decide_False by (rewrite elem_of_cons; tauto).
      rewrite (filter_cons_True _ w) by done. reflexivity.
Qed.

Lemma filter_ext_elem_of {A : Type} (P Q : A -> Prop)
  `{!forall x, Decision (P x)} `{!forall x, Decision (Q x)} (l : list A) :
  (forall x, x ∈ l -> P x <-> Q x) -> filter P l = filter Q l.
Proof.
  induction l as [|a l IH]; intros Hext; [reflexivity|].
  assert (filter P l = filter Q l) as Hl
    by (apply IH; intros x Hx; apply Hext; by right).
  destruct (decide (P a)) as [Hp|Hp].
  - rewrite !filter_cons_True, Hl; [done| |done]. apply Hext; [by left | done].
  - rewrite !filter_cons_False, Hl; [done| |done].
    intros Hq. apply Hp, Hext; [by left | done].
Qed.

Lemma group_snoc (weaks : list Z) (w k : Z) :
  group (weaks ++ [w]) k
  = group weaks k ++ (if decide (k = w) then [length weaks] else []).
Proof.
  unfold group. rewrite length_app. cbn [length].
  rewrite Nat.add_1_r, seq_S, filter_app. cbn [Nat.add]. f_equal.
  - apply filter_ext_elem_of. intros i Hi%elem_of_seq.
    rewrite lookup_app_l by lia. reflexivity.
  - assert ((weaks ++ [w]) !! length weaks = Some w) as Hlast
      by (rewrite lookup_app_r, Nat.sub_diag by lia; reflexivity).
    destruct (decide (k = w)) as [->|Hne].
    + rewrite filter_cons_True by done. reflexivity.
    + rewrite filter_cons_False by (rewrite Hlast; congruence). reflexivity.
Qed.

Lemma group_absent (weaks : list Z) (w : Z) : w ∉ weaks -> group weaks w = [].
Proof.
  intros Hw. unfold group.
  induction (seq 0 (length weaks)) as [|i l IH]; [reflexivity|].
  rewrite filter_cons_False; [exact IH|].
  intros Hi. apply Hw. eapply list_elem_of_lookup_2, Hi.
Qed.

Lemma shape_cons (k : Z) (bucket : list Pyzsync.entry) (t : Pyzsync.table) :
  shape ((k, bucket) :: t) = (k, map Pyzsync.entry_block bucket) :: shape t.
Proof. reflexivity. Qed.

(** Adding a block under a key that the table already has. *)
Lemma shape_extend (g : Z -> list nat) (w : Z) (e : Pyzsync.entry) (keys : list Z) :
  forall t,
    shape t = map (fun k => (k, g k)) keys ->
    NoDup keys ->
    w ∈ keys ->
    exists bucket,
      Pyzsync.tbl_get w t = Some bucket
      /\ shape (Pyzsync.tbl_set w (bucket ++ [e]) t)
         = map (fun k =>
                  (k, g k ++ (if decide (k = w) then [Pyzsync.entry_block e] else [])))
               keys.
Proof.
  induction keys as [|k keys IH]; intros t Hshape Hnd Hw; [inversion Hw|].
  destruct t as [|[k0 b0] t]; [discriminate|].
  rewrite shape_cons in Hshape. cbn [map] in Hshape.
  injection Hshape as -> Hb0 Hrest.
  apply NoDup_cons in Hnd as [Hk Hnd].
  cbn [Pyzsync.tbl_get Pyzsync.tbl_set].
  destruct (k =? w) eqn:E.
  - apply Z.eqb_eq in E as ->. exists b0. split; [reflexivity|].
    rewrite shape_cons. cbn [map]. rewrite decide_True by done.
    rewrite map_app, Hb0. cbn [map]. f_equal.
    rewrite Hrest. apply map_ext_in. intros k' Hk'.
    rewrite decide_False; [by rewrite app_nil_r|].
    intros ->. apply Hk. apply list_elem_of_In. exact Hk'.
  - apply Z.eqb_neq in E. apply elem_of_cons in Hw as [->|Hw]; [done|].
    destruct (IH t Hrest Hnd Hw) as (bucket & Hget & Hset).
    exists bucket. split; [exact Hget|].
    rewrite shape_cons. cbn [map].
    rewrite Hset, decide_False, app_nil_r, Hb0 by done. reflexivity.
Qed.

Lemma tbl_get_absent (g : Z -> list nat) (w : Z) (keys : list Z) :
  forall t,
    shape t = map (fun k => (k, g k)) keys ->
    w ∉ keys ->
    Pyzsync.tbl_get w t = None.
Proof.
  induction keys as [|k keys IH]; intros t Hshape Hw.
  - destruct t; [reflexivity | discriminate].
  - destruct t as [|[k0 b0] t]; [discriminate|].
    rewrite shape_cons in Hshape. cbn [map] in Hshape.
    injection Hshape as -> _ Hrest.
    apply not_elem_of_cons in Hw as [Hne Hw].
    cbn [Pyzsync.tbl_get]. destruct (k =? w) eqn:E; [apply Z.eqb_eq in E; done|].
    apply IH; assumption.
Qed.

Lemma shape_snoc (t : Pyzsync.table) (k : Z) (bucket : list Pyzsync.entry) :
  shape (t ++ [(k, bucket)]) = shape t ++ [(k, map Pyzsync.entry_block bucket)].
Proof. unfold shape. rewrite map_app. reflexivity. Qed.

(** The table of lines 20-27, bucket by bucket. *)
Lemma shape_index_signatures (sigs : list signature) :
  shape (Pyzsync.index_signatures 0 sigs [])
  = map (fun k => (k, group (map fst sigs) k)) (first_occurrences (map fst sigs)).
Proof.
  induction sigs as [|[w s] sigs IH] using rev_ind; [reflexivity|].
  rewrite index_signatures_snoc, map_app. cbn [map fst Nat.add].
  rewrite first_occurrences_snoc. unfold Pyzsync.add_signature.
  destruct (decide (w ∈ map fst sigs)) as [Hin|Hnot].
  - destruct (shape_extend (group (map fst sigs)) w (Pyzsync.Pair (length sigs) s)
                (first_occurrences (map fst sigs)) _ IH
                (NoDup_first_occurrences (map fst sigs)))
      as (bucket & Hget & Hset); [by apply elem_of_first_occurrences|].
    rewrite decide_True by done.
    rewrite Hget, Hset. apply map_ext. intros k.
    rewrite group_snoc, length_map. reflexivity.
  - pose proof (tbl_get_absent (group (map fst sigs)) w
                  (first_occurrences (map fst sigs)) _ IH) as Hget.
    rewrite elem_of_first_occurrences in Hget. specialize (Hget Hnot).
    rewrite decide_False by done.
    rewrite Hget, tbl_set_absent by exact Hget.
    rewrite shape_snoc, IH, map_app. cbn [map Pyzsync.entry_block]. f_equal.
    + apply map_ext_in. intros k Hk. rewrite group_snoc, decide_False, app_nil_r; [done|].
      intros ->. apply Hnot, elem_of_first_occurrences, list_elem_of_In, Hk.
    + rewrite group_snoc, decide_True, group_absent, length_map by done. reflexivity.
Qed.

Lemma block_order_index_signatures_exact (sigs : list signature) :
  block_order (Pyzsync.index_signatures 0 sigs []) = table_order (map fst sigs).
Proof.
  rewrite block_order_shape, shape_index_signatures, map_map. reflexivity.
Qed.

(** Without weak collisions the table is traversed in block order. *)
Lemma table_order_NoDup (weaks : list Z) :
  NoDup weaks -> table_order weaks = seq 0 (length weaks).
Proof.
  unfold table_order.
  induction weaks as [|w weaks IH] using rev_ind; intros Hnd; [reflexivity|].
  apply NoDup_app in Hnd as (Hnd & Hw & _).
  assert (w ∉ weaks) as Hnot by (intros H; apply (Hw w H); by left).
  rewrite first_occurrences_snoc, decide_False, map_app, concat_app by done.
  rewrite length_app, Nat.add_1_r, seq_S. cbn [map concat Nat.add]. f_equal.
  - rewrite <- IH by done. f_equal. apply map_ext_in. intros k Hk.
    rewrite group_snoc, decide_False, app_nil_r; [done|].
    intros ->. apply Hnot, elem_of_first_occurrences, list_elem_of_In, Hk.
  - rewrite group_snoc, decide_True, group_absent, app_nil_r by done. reflexivity.
Qed.

Lemma StronglySorted_seq (j n : nat) : StronglySorted lt (seq j n).
Proof.
  revert j. induction n as [|n IH]; intros j; [constructor|].
  cbn [seq]. constructor; [apply IH|].
  apply Forall_forall. intros i Hi%elem_of_seq. lia.
Qed.

Lemma StronglySorted_filter_lt (P : nat -> Prop) `{!forall i, Decision (P i)}
  (l : list nat) :
  StronglySorted lt l -> StronglySorted lt (filter P l).
Proof.
  induction 1 as [|a l Hl IH Ha]; [constructor|].
  destruct (decide (P a)).
  - rewrite filter_cons_True by done. constructor; [exact IH|].
    apply Forall_forall. intros i [_ Hi]%list_elem_of_filter.
    eapply Forall_forall in Ha; eauto.
  - rewrite filter_cons_False by done. exact IH.
Qed.

End TableOrder.

Section RequestOrder.

Variable md5 : bytes -> bytes.

Lemma requested_filter (mk : nat -> Z -> bytes -> Pyzsync.slot)
  (instructions : list Pyzsync.slot) (es : list (Z * Pyzsync.entry)) :
  (forall b w s, match mk b w s with
                 | Pyzsync.STriple _ _ _ | Pyzsync.SPair _ _ => True
                 | _ => False
                 end) ->
  (forall w e, (w, e) ∈ es ->
     instructions !! Pyzsync.entry_block e = Some (slot_with mk w e)) ->
  map (fun we => Pyzsync.entry_block (snd we))
      (filter (fun we => is_pair (snd we) = true) es)
  = filter (fun i => unresolved_at instructions i = true)
           (map (fun we => Pyzsync.entry_block (snd we)) es).
Proof.
  intros Hmk. induction es as [|[w e] es IH]; intros Hslot; [reflexivity|].
  assert (IH' := IH (fun w' e' H => Hslot w' e' (list_elem_of_further _ _ _ H))).
  pose proof (Hslot w e (list_elem_of_here _ _)) as Hs.
  cbn [map snd].
  destruct e as [b s | b s off]; cbn [Pyzsync.entry_block slot_with] in *.
  - rewrite filter_cons_True by done.
    rewrite (filter_cons_True (fun i => unresolved_at instructions i = true)).
    + cbn [map snd Pyzsync.entry_block]. f_equal. exact IH'.
    + unfold unresolved_at. rewrite Hs. specialize (Hmk b w s).
      destruct (mk b w s); done.
  - rewrite filter_cons_False by done.
    rewrite (filter_cons_False (fun i => unresolved_at instructions i = true)).
    + exact IH'.
    + unfold unresolved_at. rewrite Hs. done.
Qed.

Lemma scan_keeps_order (fuel : nat) (ds : stream) (sigs : list signature)
  (blocksize : Z) (s : Pyzsync.scan) :
  Pyzsync.scan_loop md5 fuel blocksize
    (Pyzsync.scan_init ds (Pyzsync.index_signatures 0 sigs []) blocksize) = Done s ->
  block_order (Pyzsync.remote_hashes s) = table_order (map fst sigs).
Proof.
  intros H. apply scan_keeps_blocks in H as [Hshape _].
  rewrite block_order_shape, Hshape, <- block_order_shape.
  apply block_order_index_signatures_exact.
Qed.

(** C7, as the code has it.  After a blueprint scan that ran to completion
    ([zsync_delta] of pyzsync.py or [zsyncdelta] of pyrsync2.py),
    [to_request] lists the indices of the slots left without a match in the
    order in which the weak-keyed table is traversed: weak checksums in
    order of first appearance among the signatures, block indices in
    increasing order under one weak checksum.  When no two signatures share
    a weak checksum this is strictly increasing block-index order. *)
Theorem to_request_in_table_order :
  forall (fuel : nat) (ds : stream) (sigs : list signature) (blocksize : Z)
         (instructions : list Pyzsync.slot) (to_request : list nat),
    Pyzsync.zsync_delta md5 fuel ds sigs blocksize = Done (instructions, to_request)
    \/ Pyrsync2.zsyncdelta md5 fuel ds sigs blocksize = Done (instructions, to_request) ->
    to_request
    = filter (fun i => unresolved_at instructions i = true) (table_order (map fst sigs))
    /\ (NoDup (map fst sigs) ->
          to_request
          = filter (fun i => unresolved_at instructions i = true) (seq 0 (length sigs))
          /\ StronglySorted lt to_request).
Proof.
  intros fuel ds sigs blocksize instructions to_request H.
  assert (Hreq : to_request
                 = filter (fun i => unresolved_at instructions i = true)
                          (table_order (map fst sigs))).
  { destruct H as [H|H].
    - unfold Pyzsync.zsync_delta in H.
      destruct (Pyzsync.scan_loop md5 fuel blocksize _) as [s| |] eqn:Hloop;
        try discriminate.
      pose proof (scan_keeps_order _ _ _ _ _ Hloop) as Horder.
      apply scan_keeps_blocks in Hloop as [_ Hperm].
      destruct (get_instructions_with (triple_of blocksize) _ _ Hperm)
        as (ins & Hget & _ & Hslot).
      unfold Pyzsync.get_instructions in H. rewrite place_is_place_with, Hget in H.
      injection H as <- <-. rewrite <- Horder.
      apply (requested_filter (triple_of blocksize)); [done | exact Hslot].
    - unfold Pyrsync2.zsyncdelta in H.
      destruct (Pyzsync.scan_loop md5 fuel blocksize _) as [s| |] eqn:Hloop;
        try discriminate.
      pose proof (scan_keeps_order _ _ _ _ _ Hloop) as Horder.
      apply scan_keeps_blocks in Hloop as [_ Hperm].
      destruct (get_instructions_with pair_of _ _ Hperm) as (ins & Hget & _ & Hslot).
      unfold Pyrsync2.get_instructions in H. rewrite place2_is_place_with, Hget in H.
      injection H as <- <-. rewrite <- Horder.
      apply (requested_filter pair_of); [done | exact Hslot]. }
  split; [exact Hreq|]. intros Hnd.
  rewrite (table_order_NoDup _ Hnd), length_map in Hreq.
  split; [exact Hreq|]. rewrite Hreq.
  apply StronglySorted_filter_lt, StronglySorted_seq.
Qed.

End RequestOrder.

Lemma to_request_in_table_order_witness :
  StronglySorted lt [2%nat].
Proof.
  refine (proj2 (proj2 (to_request_in_table_order MD5.digest 20
            (open [9; 1; 2; 3; 4; 5; 6; 7; 8])
            (map (signature_of MD5.digest) [[1; 2; 3]; [4; 5; 6]; [7]]) 3
            [Pyzsync.SInt 1; Pyzsync.SInt 4; Pyzsync.STriple 6 458759 (MD5.digest [7])]
            [2%nat] _) _)).
  - left. vm_compute. reflexivity.
  - vm_compute. repeat (apply NoDup_cons_2 || apply NoDup_nil_2);
      rewrite ?elem_of_cons, ?elem_of_nil; lia.
Defined.

(** C7 as stated fails: with signatures 0 and 2 sharing a weak checksum and
    signature 1 carrying another, nothing matched, [to_request] is
    [0; 2; 1]. *)
Lemma to_request_not_increasing :
  exists instructions,
    Pyzsync.zsync_delta MD5.digest 10 (open [])
      (map (signature_of MD5.digest) [[1; 0; 1]; [5; 5; 5]; [0; 2; 0]]) 3
    = Done (instructions, [0; 2; 1]%nat)
    /\ ~ StronglySorted lt [0; 2; 1]%nat.
Proof.
  eexists. split; [vm_compute; reflexivity|].
  intros H. apply StronglySorted_inv in H as [H _].
  apply StronglySorted_inv in H as [_ H].
  apply Forall_cons in H as [H _]. lia.
Qed.

(** ** Block matcher *)

Section EmptyBaseline.

Variable md5 : bytes -> bytes.

Lemma read_facts (n : Z) (ds : stream) :
  0 < n ->
  let '(got, ds') := read n ds in
  got = take (Z.to_nat n) (drop (cursor ds) (content ds))
  /\ content ds' = content ds
  /\ auto_close ds' = auto_close ds
  /\ cursor ds' = (cursor ds + length got)%nat
  /\ length got = Nat.min (Z.to_nat n) (remaining ds)
  /\ remaining ds' = (remaining ds - length got)%nat.
Proof.
  intros Hn. rewrite read_block by done. unfold remaining. cbn [content cursor auto_close].
  rewrite length_take, length_drop. repeat split; lia.
Qed.

(** The [else] branch either leaves the loop or consumes a byte of the
    stream or of the window. *)
Lemma shift_progress (blocksize : Z) (s : Pyzsync.scan) :
  0 < blocksize ->
  (Pyzsync.live s = false -> 0 <= Pyzsync.tailsize s) ->
  match Pyzsync.shift blocksize s with
  | Pyzsync.Break s' => Pyzsync.remote_hashes s' = Pyzsync.remote_hashes s
  | Pyzsync.Continue s' =>
      Pyzsync.remote_hashes s' = Pyzsync.remote_hashes s
      /\ Pyzsync.matched s' = false
      /\ (Pyzsync.live s' = false -> 0 <= Pyzsync.tailsize s')
      /\ (remaining (Pyzsync.datastream s') + length (Pyzsync.window s')
          + (if Pyzsync.live s' then 1 else 0)
          < remaining (Pyzsync.datastream s) + length (Pyzsync.window s)
            + (if Pyzsync.live s then 1 else 0))%nat
  | Pyzsync.Raise _ => False
  end.
Proof.
  intros HB. destruct s as [ds lv t m off w c a b nb ts].
  cbn [Pyzsync.live Pyzsync.tailsize]. intros Htail.
  unfold Pyzsync.shift, Pyzsync.pull.
  cbn [Pyzsync.live Pyzsync.window Pyzsync.tailsize Pyzsync.newbyte
       Pyzsync.sum_a Pyzsync.sum_b Pyzsync.datastream Pyzsync.remote_hashes
       Pyzsync.local_offset Pyzsync.matched Pyzsync.checksum].
  destruct lv.
  - pose proof (read_facts 1 ds ltac:(lia)) as Hread.
    destruct (read 1 ds) as [got ds1].
    destruct Hread as (_ & _ & _ & Hcur & Hlen & Hrem).
    destruct got as [|x got].
    + (* the stream is exhausted *)
      destruct (blocksize =? 0) eqn:E0; [lia|].
      cbn [Pyzsync.live Pyzsync.window Pyzsync.tailsize negb andb Pyzsync.newbyte
           Pyzsync.sum_a Pyzsync.sum_b Pyzsync.datastream Pyzsync.remote_hashes
           Pyzsync.local_offset Pyzsync.matched].
      assert (Htell : 0 <= tell ds1 mod blocksize) by (apply Z.mod_pos_bound; lia).
      destruct (len w <=? tell ds1 mod blocksize) eqn:Ew; [reflexivity|].
      apply Z.leb_gt in Ew. unfold len in Ew.
      destruct w as [|oldbyte rest]; [simpl length in Ew; lia|].
      destruct (rollingchecksum _ _ _ _ _) as [[c1 a1] b1].
      cbn [Pyzsync.live Pyzsync.window Pyzsync.tailsize Pyzsync.datastream
           Pyzsync.remote_hashes Pyzsync.matched length].
      cbn [length] in Hrem. repeat split; [done | lia].
    + (* one more byte *)
      cbn [Pyzsync.live Pyzsync.window Pyzsync.tailsize negb andb Pyzsync.newbyte
           Pyzsync.sum_a Pyzsync.sum_b Pyzsync.datastream Pyzsync.remote_hashes
           Pyzsync.local_offset Pyzsync.matched].
      destruct (w ++ [x]) as [|oldbyte rest] eqn:Hw.
      { destruct w; discriminate. }
      destruct (rollingchecksum _ _ _ _ _) as [[c1 a1] b1].
      cbn [Pyzsync.live Pyzsync.window Pyzsync.tailsize Pyzsync.datastream
           Pyzsync.remote_hashes Pyzsync.matched].
      assert (S (length rest) = S (length w)) as Hrest
        by (change (S (length rest)) with (length (oldbyte :: rest));
            rewrite <- Hw, length_app; simpl length; lia).
      cbn [length] in Hlen, Hrem.
      repeat split; [discriminate | lia].
  - (* [datastream] is [None] *)
    cbn [Pyzsync.live Pyzsync.window Pyzsync.tailsize negb andb Pyzsync.newbyte
         Pyzsync.sum_a Pyzsync.sum_b Pyzsync.datastream Pyzsync.remote_hashes
         Pyzsync.local_offset Pyzsync.matched].
    specialize (Htail eq_refl).
    destruct (len w <=? ts) eqn:Ew; [reflexivity|].
    apply Z.leb_gt in Ew. unfold len in Ew.
    destruct w as [|oldbyte rest]; [simpl length in Ew; lia|].
    destruct (rollingchecksum _ _ _ _ _) as [[c1 a1] b1].
    cbn [Pyzsync.live Pyzsync.window Pyzsync.tailsize Pyzsync.datastream
         Pyzsync.remote_hashes Pyzsync.matched length].
    repeat split; [done | lia].
Qed.

(** What lines 33-39 do to the state. *)
Lemma reseed_facts (blocksize : Z) (s : Pyzsync.scan) :
  0 < blocksize ->
  let s0 := Pyzsync.reseed blocksize s in
  Pyzsync.remote_hashes s0 = Pyzsync.remote_hashes s
  /\ Pyzsync.live s0 = Pyzsync.live s
  /\ Pyzsync.tailsize s0 = Pyzsync.tailsize s
  /\ if Pyzsync.matched s && Pyzsync.live s
     then (remaining (Pyzsync.datastream s0) + length (Pyzsync.window s0)
           <= remaining (Pyzsync.datastream s))%nat
     else s0 = s.
Proof.
  intros HB. unfold Pyzsync.reseed.
  destruct (Pyzsync.matched s && Pyzsync.live s); [|done].
  pose proof (read_facts blocksize (Pyzsync.datastream s) HB) as Hread.
  destruct (read blocksize (Pyzsync.datastream s)) as [blk ds].
  destruct Hread as (_ & _ & _ & _ & Hlen & Hrem).
  destruct (weakchecksum blk) as [[c a] b]. cbn. repeat split; lia.
Qed.

(** With an empty table every iteration takes the [else] branch, and the
    loop comes to its [break]. *)
Lemma scan_loop_empty_table (blocksize : Z) :
  0 < blocksize ->
  forall fuel s,
    (scan_measure s < fuel)%nat ->
    Pyzsync.remote_hashes s = [] ->
    (Pyzsync.live s = false -> 0 <= Pyzsync.tailsize s) ->
    (Pyzsync.matched s = true -> Pyzsync.live s = true) ->
    exists s',
      Pyzsync.scan_loop md5 fuel blocksize s = Done s'
      /\ Pyzsync.remote_hashes s' = [].
Proof.
  intros HB. induction fuel as [|fuel IH]; intros s Hfuel Htable Htail Hmatched; [lia|].
  cbn [Pyzsync.scan_loop]. unfold Pyzsync.step.
  destruct (reseed_facts blocksize s HB) as (Hseed & Hlive & Htl & Hrem).
  rewrite Hseed, Htable. cbn [Pyzsync.tbl_get].
  pose proof (shift_progress blocksize (Pyzsync.reseed blocksize s) HB) as Hshift.
  rewrite Hlive, Htl, Hseed, Htable in Hshift. specialize (Hshift Htail).
  destruct (Pyzsync.shift blocksize (Pyzsync.reseed blocksize s)) as [s1|s1|e];
    [|eauto|done].
  destruct Hshift as (Ht1 & Hm1 & Htail1 & Hless).
  apply IH; [|done..|by rewrite Hm1].
  unfold scan_measure in *. rewrite Hm1.
  destruct (Pyzsync.matched s) eqn:Em.
  - rewrite (Hmatched eq_refl) in *. cbn [andb] in Hrem. lia.
  - cbn [andb] in Hrem. rewrite Hrem in Hless. lia.
Qed.

(** C9.  With no signatures at all, the blueprint scan of any candidate
    stream, at any positive block size, ends after at most as many
    iterations as the stream has bytes left plus two, and returns the empty
    array and the empty request list. *)
Theorem empty_baseline_blueprint :
  forall (ds : stream) (blocksize : Z) (fuel : nat),
    0 < blocksize ->
    (remaining ds + 2 <= fuel)%nat ->
    Pyzsync.zsync_delta md5 fuel ds [] blocksize = Done ([], []).
Proof.
  intros ds blocksize fuel HB Hfuel. unfold Pyzsync.zsync_delta.
  cbn [Pyzsync.index_signatures length].
  destruct (scan_loop_empty_table blocksize HB fuel (Pyzsync.scan_init ds [] blocksize))
    as (s' & -> & ->); try done.
  unfold scan_measure. cbn. lia.
Qed.

End EmptyBaseline.

Lemma empty_baseline_blueprint_witness :
  Pyzsync.zsync_delta MD5.digest 9 (open [3; 1; 4; 1; 5; 9; 2]) [] 3 = Done ([], []).
Proof.
  apply (empty_baseline_blueprint MD5.digest (open [3; 1; 4; 1; 5; 9; 2]) 3 9).
  - lia.
  - unfold remaining. cbn. lia.
Defined.

Section BlockMatcher.

Variable md5 : bytes -> bytes.

Lemma tbl_set_same (k : Z) (bucket : list Pyzsync.entry) (t : Pyzsync.table) :
  Pyzsync.tbl_get k t = Some bucket -> Pyzsync.tbl_set k bucket t = t.
Proof.
  induction t as [|[k0 b0] t IH]; [discriminate|].
  cbn [Pyzsync.tbl_get Pyzsync.tbl_set]. destruct (k0 =? k).
  - intros H. injection H as ->. reflexivity.
  - intros H. rewrite IH by done. reflexivity.
Qed.

Lemma confirm_no_match (local_strong : bytes) (offset : Z) (bucket : list Pyzsync.entry) :
  Forall (fun e => exists b strong, e = Pyzsync.Pair b strong /\ strong <> local_strong)
         bucket ->
  Pyzsync.confirm local_strong offset bucket = Ok (bucket, false).
Proof.
  induction 1 as [|e bucket (b & strong & -> & Hne) _ IH]; [reflexivity|].
  cbn [Pyzsync.confirm]. rewrite bool_decide_eq_false_2 by congruence.
  rewrite IH. reflexivity.
Qed.

(** A weak hit without a strong match, on a stream that is neither [None]
    nor closed: the iteration ends after lines 33-39 with nothing else
    changed; in particular no byte is shifted.  When the window had not just
    been reseeded ([match] is false) the next iteration starts from the very
    same state. *)
Lemma step_weak_hit_only (blocksize : Z) (s : Pyzsync.scan) (bucket : list Pyzsync.entry) :
  let s0 := Pyzsync.reseed blocksize s in
  Pyzsync.tbl_get (Pyzsync.checksum s0) (Pyzsync.remote_hashes s0) = Some bucket ->
  Forall (fun e => exists b strong,
            e = Pyzsync.Pair b strong /\ strong <> md5 (Pyzsync.window s0)) bucket ->
  Pyzsync.live s0 = true ->
  closed (Pyzsync.datastream s0) = false ->
  Pyzsync.step md5 blocksize s = Pyzsync.Continue s0
  /\ (Pyzsync.matched s = false -> Pyzsync.step md5 blocksize s = Pyzsync.Continue s).
Proof.
  intros s0 Hget Hmiss Hlive Hopen.
  assert (Hstep : Pyzsync.step md5 blocksize s = Pyzsync.Continue s0).
  { unfold Pyzsync.step. fold s0. clearbody s0.
    destruct s0 as [ds lv t m off w c a b nb ts].
    cbn [Pyzsync.live Pyzsync.datastream Pyzsync.checksum Pyzsync.remote_hashes
         Pyzsync.window] in *.
    subst lv. rewrite Hget, (confirm_no_match _ _ _ Hmiss).
    cbn [Pyzsync.live Pyzsync.datastream Pyzsync.checksum Pyzsync.remote_hashes
         Pyzsync.window Pyzsync.matched Pyzsync.local_offset Pyzsync.sum_a
         Pyzsync.sum_b Pyzsync.newbyte Pyzsync.tailsize orb].
    rewrite Hopen, (tbl_set_same _ _ _ Hget). reflexivity. }
  split; [exact Hstep|]. intros Hm. rewrite Hstep. f_equal.
  unfold s0, Pyzsync.reseed. rewrite Hm. reflexivity.
Qed.

Lemma scan_loop_stuck (blocksize : Z) (s : Pyzsync.scan) :
  Pyzsync.step md5 blocksize s = Pyzsync.Continue s ->
  forall fuel, Pyzsync.scan_loop md5 fuel blocksize s = OutOfFuel.
Proof.
  intros Hstep. induction fuel as [|fuel IH]; [reflexivity|].
  cbn [Pyzsync.scan_loop]. rewrite Hstep. exact IH.
Qed.

End BlockMatcher.

(** One block [0; 2; 0] in the baseline, block size 3, candidate
    [9; 1; 0; 1]: after the first byte shift the window is [1; 0; 1], whose
    weak checksum is that of [0; 2; 0] and whose strong hash is not.  From
    then on every iteration leaves the state as it is. *)
Lemma scan_loop_stalls_on_weak_hit :
  forall fuel,
    Pyzsync.scan_loop MD5.digest fuel 3
      (Pyzsync.scan_init (open [9; 1; 0; 1])
         (Pyzsync.index_signatures 0 [signature_of MD5.digest [0; 2; 0]] []) 3)
    = OutOfFuel.
Proof.
  intros [|fuel]; [reflexivity|]. cbn [Pyzsync.scan_loop].
  destruct (Pyzsync.step MD5.digest 3 _) as [s1|s1|e] eqn:Hstep;
    vm_compute in Hstep; try discriminate.
  injection Hstep as <-.
  apply scan_loop_stuck.
  apply step_weak_hit_only with
    (bucket := [Pyzsync.Pair 0 (MD5.digest [0; 2; 0])]).
  - vm_compute. reflexivity.
  - constructor; [|constructor]. eexists _, _. split; [reflexivity|].
    vm_compute. discriminate.
  - reflexivity.
  - reflexivity.
  - reflexivity.
Qed.

(** C3 fails on the code: on that input the blueprint scan, in
    [zsync_delta] of pyzsync.py and in [zsyncdelta] of pyrsync2.py alike,
    never shifts a byte again after the weak hit and never ends, whatever
    the fuel. *)
Theorem weak_hit_without_strong_match_never_shifts :
  forall fuel,
    Pyzsync.zsync_delta MD5.digest fuel (open [9; 1; 0; 1])
      [signature_of MD5.digest [0; 2; 0]] 3
    = OutOfFuel
    /\ Pyrsync2.zsyncdelta MD5.digest fuel (open [9; 1; 0; 1])
         [signature_of MD5.digest [0; 2; 0]] 3
       = OutOfFuel.
Proof.
  intros fuel. unfold Pyzsync.zsync_delta, Pyrsync2.zsyncdelta.
  rewrite scan_loop_stalls_on_weak_hit. split; reflexivity.
Qed.

(** One block [5; 5] in the baseline, block size 2, candidate
    [5; 5; 5; 5]: the first window matches block 0 and turns its bucket
    element into a triple; the second window has the same weak checksum,
    and unpacking that triple as a pair raises [ValueError]. *)
Lemma scan_loop_raises_on_second_occurrence :
  forall fuel,
    Pyzsync.scan_loop MD5.digest (S (S fuel)) 2
      (Pyzsync.scan_init (open [5; 5; 5; 5])
         (Pyzsync.index_signatures 0 [signature_of MD5.digest [5; 5]] []) 2)
    = Raised ValueError.
Proof.
  intros fuel. cbn [Pyzsync.scan_loop].
  destruct (Pyzsync.step MD5.digest 2 _) as [s1|s1|e] eqn:Hstep;
    vm_compute in Hstep; try discriminate.
  injection Hstep as <-.
  destruct (Pyzsync.step MD5.digest 2 _) as [s2|s2|e] eqn:Hstep;
    vm_compute in Hstep; try discriminate.
  injection Hstep as <-. reflexivity.
Qed.

(** C5 fails on the code: on that input the second occurrence of the block
    is not ignored; the scan, in [zsync_delta] of pyzsync.py and in
    [zsyncdelta] of pyrsync2.py alike, is aborted by the [ValueError]. *)
Theorem second_occurrence_raises :
  forall fuel,
    Pyzsync.zsync_delta MD5.digest (S (S fuel)) (open [5; 5; 5; 5])
      [signature_of MD5.digest [5; 5]] 2
    = Raised ValueError
    /\ Pyrsync2.zsyncdelta MD5.digest (S (S fuel)) (open [5; 5; 5; 5])
         [signature_of MD5.digest [5; 5]] 2
       = Raised ValueError.
Proof.
  intros fuel. unfold Pyzsync.zsync_delta, Pyrsync2.zsyncdelta.
  rewrite scan_loop_raises_on_second_occurrence. split; reflexivity.
Qed.

Section ScanExit.

Variable md5 : bytes -> bytes.

Lemma read_auto_close (n : Z) (ds : stream) :
  auto_close (snd (read n ds)) = auto_close ds.
Proof. reflexivity. Qed.

Lemma read_one_empty (ds ds' : stream) :
  read 1 ds = ([], ds') -> remaining ds' = 0%nat /\ auto_close ds' = auto_close ds.
Proof.
  intros H. pose proof (read_facts 1 ds ltac:(lia)) as Hread. rewrite H in Hread.
  destruct Hread as (_ & _ & Hac & _ & Hlen & Hrem). cbn [length] in *.
  split; [lia | exact Hac].
Qed.

Lemma tbl_get_set (k : Z) (bucket : list Pyzsync.entry) (t : Pyzsync.table) :
  Pyzsync.tbl_get k (Pyzsync.tbl_set k bucket t) = Some bucket.
Proof.
  induction t as [|[k0 b0] t IH].
  - cbn. rewrite Z.eqb_refl. reflexivity.
  - cbn [Pyzsync.tbl_set]. destruct (k0 =? k) eqn:E; cbn [Pyzsync.tbl_get]; rewrite E; done.
Qed.

Lemma zsync_reseed_exhausted (blocksize : Z) (s : Pyzsync.scan) :
  zsync_exhausted blocksize s ->
  zsync_exhausted blocksize (Pyzsync.reseed blocksize s)
  /\ auto_close (Pyzsync.datastream (Pyzsync.reseed blocksize s))
     = auto_close (Pyzsync.datastream s).
Proof.
  destruct s as [ds lv t m off w c a b nb ts].
  unfold Pyzsync.reseed, zsync_exhausted.
  cbn [Pyzsync.live Pyzsync.matched Pyzsync.datastream Pyzsync.tailsize].
  intros Hinv. destruct m, lv; cbn [andb]; try (split; [exact Hinv | reflexivity]).
  pose proof (read_auto_close blocksize ds) as Hac.
  destruct (read blocksize ds) as [blk ds1].
  destruct (weakchecksum blk) as [[c1 a1] b1]. cbn. split; [congruence | exact Hac].
Qed.

Lemma zsync_shift_exit (blocksize : Z) (s : Pyzsync.scan) :
  zsync_exhausted blocksize s ->
  match Pyzsync.shift blocksize s with
  | Pyzsync.Continue s' =>
      zsync_exhausted blocksize s'
      /\ auto_close (Pyzsync.datastream s') = auto_close (Pyzsync.datastream s)
  | Pyzsync.Break s' =>
      zsync_tail_exit blocksize s'
      /\ auto_close (Pyzsync.datastream s') = auto_close (Pyzsync.datastream s)
  | Pyzsync.Raise _ => True
  end.
Proof.
  destruct s as [ds lv t m off w c a b nb ts].
  unfold zsync_exhausted, zsync_tail_exit, Pyzsync.shift, Pyzsync.pull.
  cbn [Pyzsync.live Pyzsync.window Pyzsync.tailsize Pyzsync.newbyte
       Pyzsync.sum_a Pyzsync.sum_b Pyzsync.datastream Pyzsync.remote_hashes
       Pyzsync.local_offset Pyzsync.matched Pyzsync.checksum].
  intros Hinv. destruct lv.
  - destruct (read 1 ds) as [[|x got] ds1] eqn:Hread.
    + apply read_one_empty in Hread as [Hrem Hac].
      destruct (blocksize =? 0); [done|].
      cbn [Pyzsync.live Pyzsync.window Pyzsync.tailsize negb andb Pyzsync.newbyte
           Pyzsync.sum_a Pyzsync.sum_b Pyzsync.datastream Pyzsync.remote_hashes
           Pyzsync.local_offset Pyzsync.matched].
      destruct (len w <=? tell ds1 mod blocksize) eqn:Ew.
      * apply Z.leb_le in Ew. done.
      * destruct w as [|oldbyte rest]; [done|].
        destruct (rollingchecksum _ _ _ _ _) as [[c1 a1] b1]. done.
    + pose proof (read_auto_close 1 ds) as Hac. rewrite Hread in Hac.
      cbn [Pyzsync.live Pyzsync.window Pyzsync.tailsize negb andb Pyzsync.newbyte
           Pyzsync.sum_a Pyzsync.sum_b Pyzsync.datastream Pyzsync.remote_hashes
           Pyzsync.local_offset Pyzsync.matched].
      destruct (w ++ [x]) as [|oldbyte rest]; [done|].
      destruct (rollingchecksum _ _ _ _ _) as [[c1 a1] b1]. done.
  - destruct (Hinv eq_refl) as [Hrem Hts].
    cbn [Pyzsync.live Pyzsync.window Pyzsync.tailsize negb andb Pyzsync.newbyte
         Pyzsync.sum_a Pyzsync.sum_b Pyzsync.datastream Pyzsync.remote_hashes
         Pyzsync.local_offset Pyzsync.matched].
    destruct (len w <=? ts) eqn:Ew.
    + apply Z.leb_le in Ew. done.
    + destruct w as [|oldbyte rest]; [done|].
      destruct (rollingchecksum _ _ _ _ _) as [[c1 a1] b1]. done.
Qed.

Lemma zsync_step_exit (blocksize : Z) (s : Pyzsync.scan) :
  zsync_exhausted blocksize s ->
  match Pyzsync.step md5 blocksize s with
  | Pyzsync.Continue s' =>
      zsync_exhausted blocksize s'
      /\ auto_close (Pyzsync.datastream s') = auto_close (Pyzsync.datastream s)
  | Pyzsync.Break s' =>
      (zsync_tail_exit blocksize s' \/ zsync_closed_exit s')
      /\ auto_close (Pyzsync.datastream s') = auto_close (Pyzsync.datastream s)
  | Pyzsync.Raise _ => True
  end.
Proof.
  intros Hinv. apply zsync_reseed_exhausted in Hinv as [Hinv Hac].
  unfold Pyzsync.step. rewrite <- Hac.
  set (s0 := Pyzsync.reseed blocksize s) in *. clearbody s0.
  destruct (Pyzsync.tbl_get _ _) as [bucket|] eqn:Hget.
  - destruct (Pyzsync.confirm _ _ _) as [[bucket' hit]|e]; [|done].
    cbn [Pyzsync.live Pyzsync.datastream].
    destruct (Pyzsync.live s0) eqn:El; [|done].
    destruct (closed (Pyzsync.datastream s0)) eqn:Ec.
    + split; [|done]. right. unfold zsync_closed_exit.
      cbn [Pyzsync.live Pyzsync.datastream Pyzsync.checksum Pyzsync.remote_hashes].
      rewrite tbl_get_set. done.
    + split; [|done]. unfold zsync_exhausted. cbn. congruence.
  - pose proof (zsync_shift_exit blocksize s0 Hinv) as Hshift.
    destruct (Pyzsync.shift blocksize s0); [done| |done].
    destruct Hshift as [Hexit Hac']. split; [by left | done].
Qed.

Lemma zsync_loop_exit (blocksize : Z) :
  forall fuel s s',
    zsync_exhausted blocksize s ->
    Pyzsync.scan_loop md5 fuel blocksize s = Done s' ->
    (zsync_tail_exit blocksize s' \/ zsync_closed_exit s')
    /\ auto_close (Pyzsync.datastream s') = auto_close (Pyzsync.datastream s).
Proof.
  induction fuel as [|fuel IH]; intros s s' Hinv H; [discriminate|].
  cbn [Pyzsync.scan_loop] in H.
  pose proof (zsync_step_exit blocksize s Hinv) as Hstep.
  destruct (Pyzsync.step md5 blocksize s) as [s1|s1|e]; [| |discriminate].
  - destruct Hstep as [Hinv1 Hac]. rewrite <- Hac. eapply IH; eassumption.
  - injection H as <-. exact Hstep.
Qed.

Lemma rsync_reseed_exhausted (blocksize : Z) (s : Pyrsync2.scan) :
  rsync_exhausted blocksize s ->
  rsync_exhausted blocksize (Pyrsync2.reseed blocksize s)
  /\ auto_close (Pyrsync2.datastream (Pyrsync2.reseed blocksize s))
     = auto_close (Pyrsync2.datastream s).
Proof.
  destruct s as [ds lv m cb w wo c a b nb ts out].
  unfold Pyrsync2.reseed, rsync_exhausted.
  cbn [Pyrsync2.live Pyrsync2.matched Pyrsync2.datastream Pyrsync2.tailsize].
  intros Hinv. destruct m, lv; cbn [andb]; try (split; [exact Hinv | reflexivity]).
  pose proof (read_auto_close blocksize ds) as Hac.
  destruct (read blocksize ds) as [blk ds1].
  destruct (weakchecksum blk) as [[c1 a1] b1]. cbn. split; [congruence | exact Hac].
Qed.

Lemma rsync_shift_exit (blocksize max_buffer : Z) (s : Pyrsync2.scan) :
  rsync_exhausted blocksize s ->
  match Pyrsync2.shift blocksize max_buffer s with
  | Pyrsync2.Continue s' =>
      rsync_exhausted blocksize s'
      /\ auto_close (Pyrsync2.datastream s') = auto_close (Pyrsync2.datastream s)
  | Pyrsync2.Break s' =>
      rsync_tail_exit blocksize s'
      /\ auto_close (Pyrsync2.datastream s') = auto_close (Pyrsync2.datastream s)
  | Pyrsync2.Raise _ _ => True
  end.
Proof.
  destruct s as [ds lv m cb w wo c a b nb ts out].
  unfold rsync_exhausted, rsync_tail_exit, Pyrsync2.shift, Pyrsync2.pull.
  cbn [Pyrsync2.live Pyrsync2.window Pyrsync2.tailsize Pyrsync2.newbyte
       Pyrsync2.sum_a Pyrsync2.sum_b Pyrsync2.datastream Pyrsync2.window_offset
       Pyrsync2.current_block Pyrsync2.matched Pyrsync2.checksum Pyrsync2.yielded].
  intros Hinv. destruct lv.
  - destruct (read 1 ds) as [[|x got] ds1] eqn:Hread.
    + apply read_one_empty in Hread as [Hrem Hac].
      destruct (blocksize =? 0); [done|].
      cbn [Pyrsync2.live Pyrsync2.window Pyrsync2.tailsize Pyrsync2.newbyte negb andb
           Pyrsync2.sum_a Pyrsync2.sum_b Pyrsync2.datastream Pyrsync2.window_offset
           Pyrsync2.current_block Pyrsync2.matched Pyrsync2.checksum Pyrsync2.yielded].
      destruct (len w - Z.of_nat wo <=? tell ds1 mod blocksize) eqn:Ew.
      * apply Z.leb_le in Ew. done.
      * destruct (_ !! wo); [|done].
        destruct (rollingchecksum _ _ _ _ _) as [[c1 a1] b1].
        destruct (max_buffer <=? len cb); done.
    + pose proof (read_auto_close 1 ds) as Hac. rewrite Hread in Hac.
      cbn [Pyrsync2.live Pyrsync2.window Pyrsync2.tailsize Pyrsync2.newbyte negb andb
           Pyrsync2.sum_a Pyrsync2.sum_b Pyrsync2.datastream Pyrsync2.window_offset
           Pyrsync2.current_block Pyrsync2.matched Pyrsync2.checksum Pyrsync2.yielded].
      destruct (_ !! wo); [|done].
      destruct (rollingchecksum _ _ _ _ _) as [[c1 a1] b1].
      destruct (max_buffer <=? len cb); done.
  - destruct (Hinv eq_refl) as [Hrem Hts].
    cbn [Pyrsync2.live Pyrsync2.window Pyrsync2.tailsize Pyrsync2.newbyte negb andb
         Pyrsync2.sum_a Pyrsync2.sum_b Pyrsync2.datastream Pyrsync2.window_offset
         Pyrsync2.current_block Pyrsync2.matched Pyrsync2.checksum Pyrsync2.yielded].
    destruct (len w - Z.of_nat wo <=? ts) eqn:Ew.
    + apply Z.leb_le in Ew. done.
    + destruct (_ !! wo); [|done].
      destruct (rollingchecksum _ _ _ _ _) as [[c1 a1] b1].
      destruct (max_buffer <=? len cb); done.
Qed.

Lemma rsync_step_exit (d : gmap Z (nat * bytes)) (blocksize max_buffer : Z)
  (s : Pyrsync2.scan) :
  rsync_exhausted blocksize s ->
  match Pyrsync2.step md5 d blocksize max_buffer s with
  | Pyrsync2.Continue s' =>
      rsync_exhausted blocksize s'
      /\ auto_close (Pyrsync2.datastream s') = auto_close (Pyrsync2.datastream s)
  | Pyrsync2.Break s' =>
      (rsync_tail_exit blocksize s' \/ rsync_closed_exit s')
      /\ auto_close (Pyrsync2.datastream s') = auto_close (Pyrsync2.datastream s)
  | Pyrsync2.Raise _ _ => True
  end.
Proof.
  intros Hinv. apply rsync_reseed_exhausted in Hinv as [Hinv Hac].
  unfold Pyrsync2.step. rewrite <- Hac.
  set (s0 := Pyrsync2.reseed blocksize s) in *. clearbody s0.
  pose proof (rsync_shift_exit blocksize max_buffer s0 Hinv) as Hshift.
  assert (Hshift' :
    match Pyrsync2.shift blocksize max_buffer s0 with
    | Pyrsync2.Continue s' =>
        rsync_exhausted blocksize s'
        /\ auto_close (Pyrsync2.datastream s') = auto_close (Pyrsync2.datastream s0)
    | Pyrsync2.Break s' =>
        (rsync_tail_exit blocksize s' \/ rsync_closed_exit s')
        /\ auto_close (Pyrsync2.datastream s') = auto_close (Pyrsync2.datastream s0)
    | Pyrsync2.Raise _ _ => True
    end).
  { destruct (Pyrsync2.shift blocksize max_buffer s0); [done| |done].
    destruct Hshift as [Hexit Hac']. split; [by left | done]. }
  destruct (d !! Pyrsync2.checksum s0) as [[matchblock strong]|]; [|exact Hshift'].
  case_bool_decide; [|exact Hshift'].
  cbn [Pyrsync2.live Pyrsync2.datastream].
  destruct (Pyrsync2.live s0) eqn:El; [|done].
  destruct (closed (Pyrsync2.datastream s0)) eqn:Ec.
  - split; [|done]. right. unfold rsync_closed_exit. cbn. done.
  - split; [|done]. unfold rsync_exhausted. cbn. congruence.
Qed.

Lemma rsync_loop_exit (d : gmap Z (nat * bytes)) (blocksize max_buffer : Z) :
  forall fuel s s',
    rsync_exhausted blocksize s ->
    Pyrsync2.scan_loop md5 fuel d blocksize max_buffer s = (s', Pyrsync2.Returned) ->
    (rsync_tail_exit blocksize s' \/ rsync_closed_exit s')
    /\ auto_close (Pyrsync2.datastream s') = auto_close (Pyrsync2.datastream s).
Proof.
  induction fuel as [|fuel IH]; intros s s' Hinv H; [discriminate|].
  cbn [Pyrsync2.scan_loop] in H.
  pose proof (rsync_step_exit d blocksize max_buffer s Hinv) as Hstep.
  destruct (Pyrsync2.step md5 d blocksize max_buffer s) as [s1|s1|e s1]; [| |discriminate].
  - destruct Hstep as [Hinv1 Hac]. rewrite <- Hac. eapply IH; eassumption.
  - injection H as <-. exact Hstep.
Qed.

(** C4, as the code has it.  When the scan loop of [zsync_delta] or of
    [rsyncdelta] is left through a [break], then either the tail rule
    applies (the stream is exhausted, [tailsize] is its position modulo the
    block size and the window is at most that long), or the stream object
    is one that reports itself closed and does so at that moment, right
    after a weak hit ([zsync_delta]) or a confirmed match ([rsyncdelta]).
    On a stream that never reports itself closed the loop is therefore only
    left by the tail rule. *)
Theorem scan_exit_tail_rule_or_closed_stream :
  forall (fuel : nat) (ds : stream) (sigs : list signature)
         (blocksize max_buffer : Z),
    (forall s',
       Pyzsync.scan_loop md5 fuel blocksize
         (Pyzsync.scan_init ds (Pyzsync.index_signatures 0 sigs []) blocksize)
       = Done s' ->
       (zsync_tail_exit blocksize s' \/ (auto_close ds = true /\ zsync_closed_exit s'))
       /\ (auto_close ds = false -> zsync_tail_exit blocksize s'))
    /\ (forall s',
          Pyrsync2.scan_loop md5 fuel (Pyrsync2.signature_dict 0 sigs ∅)
            blocksize max_buffer (Pyrsync2.scan_init ds)
          = (s', Pyrsync2.Returned) ->
          (rsync_tail_exit blocksize s'
           \/ (auto_close ds = true /\ rsync_closed_exit s'))
          /\ (auto_close ds = false -> rsync_tail_exit blocksize s')).
Proof.
  intros fuel ds sigs blocksize max_buffer. split; intros s' H.
  - apply zsync_loop_exit in H as [Hexit Hac]; [|by unfold zsync_exhausted].
    cbn [Pyzsync.scan_init Pyzsync.datastream] in Hac.
    assert (Hclosed : zsync_closed_exit s' -> auto_close ds = true).
    { intros (_ & Hc & _). unfold closed in Hc. rewrite Hac in Hc.
      by apply andb_prop in Hc as [? _]. }
    split.
    + destruct Hexit as [?|Hc]; [by left | right; split; [by apply Hclosed | done]].
    + intros Hopen. destruct Hexit as [?|Hc]; [done|].
      apply Hclosed in Hc. congruence.
  - apply rsync_loop_exit in H as [Hexit Hac]; [|by unfold rsync_exhausted].
    cbn [Pyrsync2.scan_init Pyrsync2.datastream] in Hac.
    assert (Hclosed : rsync_closed_exit s' -> auto_close ds = true).
    { intros (_ & Hc & _). unfold closed in Hc. rewrite Hac in Hc.
      by apply andb_prop in Hc as [? _]. }
    split.
    + destruct Hexit as [?|Hc]; [by left | right; split; [by apply Hclosed | done]].
    + intros Hopen. destruct Hexit as [?|Hc]; [done|].
      apply Hclosed in Hc. congruence.
Qed.

End ScanExit.

Lemma scan_exit_tail_rule_or_closed_stream_witness :
  exists s',
    Pyzsync.scan_loop MD5.digest 20 3
      (Pyzsync.scan_init (open [9; 1; 2; 3; 4; 5; 6; 7; 8])
         (Pyzsync.index_signatures 0
            (map (signature_of MD5.digest) [[1; 2; 3]; [4; 5; 6]; [7]]) []) 3)
    = Done s'
    /\ zsync_tail_exit 3 s'.
Proof.
  eexists. split; [vm_compute; reflexivity|].
  apply (proj1 (scan_exit_tail_rule_or_closed_stream MD5.digest 20
                  (open [9; 1; 2; 3; 4; 5; 6; 7; 8])
                  (map (signature_of MD5.digest) [[1; 2; 3]; [4; 5; 6]; [7]]) 3 3)).
  - vm_compute. reflexivity.
  - reflexivity.
Defined.

(** C4 as stated fails: on a stream that reports itself closed once its
    last byte is read, the scan of [5; 5] against the signature of [5; 5]
    is left at the first match, with [datastream] still bound and a window
    of two bytes, where the tail rule asks for at most [2 mod 2 = 0]. *)
Lemma scan_ends_at_closed_stream :
  exists s',
    Pyzsync.scan_loop MD5.digest 1 2
      (Pyzsync.scan_init (Stream [5; 5] 0 true)
         (Pyzsync.index_signatures 0 [signature_of MD5.digest [5; 5]] []) 2)
    = Done s'
    /\ Pyzsync.live s' = true
    /\ len (Pyzsync.window s') = 2
    /\ tell (Pyzsync.datastream s') mod 2 = 0
    /\ ~ zsync_tail_exit 2 s'.
Proof.
  eexists. split; [vm_compute; reflexivity|].
  repeat split. intros (Hlive & _). discriminate.
Qed.

(** ** Streaming encoder *)

Lemma take_drop_join {A : Type} (l : list A) (c k : nat) :
  take k (drop c l) ++ drop (c + length (take k (drop c l))) l = drop c l.
Proof.
  rewrite <- drop_drop. set (m := drop c l). rewrite length_take.
  destruct (decide (k <= length m)%nat).
  - rewrite Nat.min_l by lia. apply take_drop.
  - rewrite Nat.min_r by lia. rewrite drop_all, take_ge by lia. apply app_nil_r.
Qed.

Lemma drop_exhausted (ds : stream) : remaining ds = 0%nat -> drop (cursor ds) (content ds) = [].
Proof. unfold remaining. intros H. apply drop_ge. lia. Qed.

Section StreamingEncoder.

Variable md5 : bytes -> bytes.
Variable n : nat.
Hypothesis n_pos : (0 < n)%nat.
Variables candidate baseline : bytes.

Lemma expand_app (l k : list Pyrsync2.element) :
  expand n baseline (l ++ k) = expand n baseline l ++ expand n baseline k.
Proof. unfold expand. rewrite map_app, concat_app. reflexivity. Qed.

Lemma expand_flush (cb : bytes) : expand n baseline (Pyrsync2.flush cb) = cb.
Proof. destruct cb; [reflexivity|]. unfold expand. cbn. by rewrite app_nil_r. Qed.

Lemma expand_block_ref (j : nat) :
  expand n baseline [Pyrsync2.BlockRef j] = block_at n baseline j.
Proof. unfold expand. cbn. by rewrite app_nil_r. Qed.

Lemma expand_literal (cb : bytes) : expand n baseline [Pyrsync2.Literal cb] = cb.
Proof. unfold expand. cbn. by rewrite app_nil_r. Qed.

(** Lines 198-204 make the window live. *)
Lemma rsync_reseed_seeded (s : Pyrsync2.scan) :
  rsync_inv n candidate baseline s ->
  rsync_seeded n candidate baseline (Pyrsync2.reseed (Z.of_nat n) s)
  /\ (rsync_seeded_measure (Pyrsync2.reseed (Z.of_nat n) s) <= rsync_measure s)%nat.
Proof.
  destruct s as [ds lv m cb w wo c a b nb ts out].
  unfold rsync_inv, rsync_seeded, rsync_measure, rsync_seeded_measure, Pyrsync2.reseed.
  rsync_simpl.
  intros (Hcontent & Hsplit & Hdead & Hwo).
  destruct m; [destruct lv|]; rsync_simpl.
  - pose proof (read_facts (Z.of_nat n) ds ltac:(lia)) as Hread.
    destruct (read (Z.of_nat n) ds) as [blk ds1].
    destruct Hread as (Hblk & Hc1 & _ & Hcur & Hlen & Hrem).
    destruct (weakchecksum blk) as [[c1 a1] b1].
    rsync_simpl.
    rewrite drop_0. split; [|lia].
    split; [congruence|]. split; [|split; [done | lia]].
    assert (Hjoin : blk ++ drop (cursor ds1) candidate = drop (cursor ds) candidate).
    { rewrite Hcur, Hblk, Hcontent. apply take_drop_join. }
    etrans; [|exact Hsplit]. rewrite Hjoin. reflexivity.
  - destruct (Hdead eq_refl) as (? & _). discriminate.
  - split; [|lia].
    split; [done|]. split; [done|]. split; [|done].
    intros Hlv. destruct (Hdead Hlv) as (_ & ? & ?). done.
Qed.

(** Lines 257-263, as far as the reconstruction is concerned. *)
Lemma expand_buffered (max_buffer : Z) (out : list Pyrsync2.element) (cb : bytes) :
  let '(cb0, out0) :=
    if max_buffer <=? len cb then ([], out ++ [Pyrsync2.Literal cb]) else (cb, out) in
  expand n baseline out0 ++ cb0 = expand n baseline out ++ cb.
Proof.
  destruct (max_buffer <=? len cb); [|reflexivity].
  rewrite expand_app, expand_literal, app_nil_r. reflexivity.
Qed.

(** The [else] branch: it leaves the loop with the candidate spelled out,
    or goes on with a smaller measure. *)
Lemma rsync_shift_step (max_buffer : Z) (s : Pyrsync2.scan) :
  rsync_seeded n candidate baseline s ->
  match Pyrsync2.shift (Z.of_nat n) max_buffer s with
  | Pyrsync2.Continue s' =>
      rsync_inv n candidate baseline s'
      /\ (rsync_measure s' < rsync_seeded_measure s)%nat
  | Pyrsync2.Break s' =>
      expand n baseline (Pyrsync2.yielded s' ++ Pyrsync2.flush (Pyrsync2.current_block s'))
      = candidate
  | Pyrsync2.Raise _ _ => False
  end.
Proof.
  destruct s as [ds lv m cb w wo c a b nb ts out].
  unfold rsync_inv, rsync_seeded, rsync_measure, rsync_seeded_measure,
    Pyrsync2.shift, Pyrsync2.pull.
  rsync_simpl.
  intros (Hcontent & Hsplit & Hdead & Hwo).
  assert (Hbreak : drop (cursor ds) candidate = [] ->
            expand n baseline ((out ++ Pyrsync2.flush cb) ++ Pyrsync2.flush (drop wo w))
            = candidate).
  { intros Hend. rewrite !expand_app, !expand_flush, <- app_assoc.
    etrans; [|exact Hsplit]. rewrite Hend, app_nil_r. reflexivity. }
  assert (Hpop : forall (oldbyte : Z) (rest tail : bytes) (cur : nat),
            drop wo w ++ tail = oldbyte :: rest ->
            tail ++ drop cur candidate = drop (cursor ds) candidate ->
            let '(cb0, out0) :=
              if max_buffer <=? len cb then ([], out ++ [Pyrsync2.Literal cb])
              else (cb, out) in
            expand n baseline out0 ++ (cb0 ++ [oldbyte]) ++ rest ++ drop cur candidate
            = candidate).
  { intros oldbyte rest tail cur Hhead Htail.
    pose proof (expand_buffered max_buffer out cb) as Hbuf.
    destruct (if max_buffer <=? len cb then _ else _) as [cb0 out0].
    etrans; [|exact Hsplit]. rewrite <- Htail.
    rewrite (app_assoc (drop wo w) tail), Hhead.
    rewrite <- (app_assoc cb0 [oldbyte]), (app_assoc (expand n baseline out0) cb0), Hbuf.
    rewrite <- app_assoc. reflexivity. }
  destruct lv.
  - pose proof (read_facts 1 ds ltac:(lia)) as Hread.
    destruct (read 1 ds) as [got ds1].
    destruct Hread as (Hgot & Hc1 & _ & Hcur & Hlen & Hrem).
    destruct got as [|x got].
    + (* the stream is exhausted *)
      destruct (Z.of_nat n =? 0) eqn:E0; [lia|].
      rsync_simpl.
      cbn [length] in Hcur, Hlen, Hrem.
      assert (Hend : drop (cursor ds) candidate = []).
      { rewrite <- Hcontent. apply drop_exhausted. lia. }
      assert (Htell : 0 <= tell ds1 mod Z.of_nat n) by (apply Z.mod_pos_bound; lia).
      destruct (len w - Z.of_nat wo <=? tell ds1 mod Z.of_nat n) eqn:Ew.
      * cbn [Pyrsync2.yielded Pyrsync2.current_block]. by apply Hbreak.
      * apply Z.leb_gt in Ew. unfold len in Ew.
        destruct (_ !! wo) as [oldbyte|] eqn:Hold;
          [|apply lookup_ge_None in Hold; lia].
        destruct (rollingchecksum _ _ _ _ _) as [[c1 a1] b1].
        pose proof (Hpop oldbyte (drop (S wo) w) [] (cursor ds1)) as Hinv.
        rewrite app_nil_r, app_nil_l, Hcur, Nat.add_0_r in Hinv.
        specialize (Hinv (drop_S _ _ _ Hold) eq_refl).
        destruct (if max_buffer <=? len cb then _ else _) as [cb0 out0].
        rsync_simpl.
        apply lookup_lt_Some in Hold.
        rewrite Hcur, Nat.add_0_r.
        split; [|lia]. split; [congruence|]. split; [exact Hinv|].
        split; [|lia]. intros _. split; [done|]. split; [lia | done].
    + (* one more byte *)
      rsync_simpl.
      assert (Hone : got = []).
      { cbn [length] in Hlen. destruct got; [done | cbn [length] in Hlen; lia]. }
      subst got. cbn [length] in Hcur, Hlen, Hrem.
      destruct (_ !! wo) as [oldbyte|] eqn:Hold;
        [|apply lookup_ge_None in Hold; rewrite length_app in Hold; cbn in Hold; lia].
      destruct (rollingchecksum _ _ _ _ _) as [[c1 a1] b1].
      pose proof (Hpop oldbyte (drop (S wo) (w ++ [x])) [x] (cursor ds1)) as Hinv.
      assert (Hhead : drop wo w ++ [x] = oldbyte :: drop (S wo) (w ++ [x]))
        by (rewrite <- drop_app_le by done; apply drop_S, Hold).
      specialize (Hinv Hhead).
      assert (Hjoin : [x] ++ drop (cursor ds1) candidate = drop (cursor ds) candidate).
      { pose proof (take_drop_join candidate (cursor ds) (Z.to_nat 1)) as Hj.
        rewrite Hcontent in Hgot. rewrite <- Hgot in Hj. rewrite Hcur. exact Hj. }
      specialize (Hinv Hjoin).
      destruct (if max_buffer <=? len cb then _ else _) as [cb0 out0].
      rsync_simpl.
      apply lookup_lt_Some in Hold. rewrite length_app in *. cbn [length] in *.
      split; [|lia]. split; [congruence|]. split; [exact Hinv|].
      split; [discriminate | lia].
  - (* [datastream] is [None] *)
    destruct (Hdead eq_refl) as [Hrem Hts].
    rsync_simpl.
    assert (Hend : drop (cursor ds) candidate = []).
    { rewrite <- Hcontent. apply drop_exhausted. exact Hrem. }
    destruct (len w - Z.of_nat wo <=? ts) eqn:Ew.
    + cbn [Pyrsync2.yielded Pyrsync2.current_block]. by apply Hbreak.
    + apply Z.leb_gt in Ew. unfold len in Ew.
      destruct (_ !! wo) as [oldbyte|] eqn:Hold;
        [|apply lookup_ge_None in Hold; lia].
      destruct (rollingchecksum _ _ _ _ _) as [[c1 a1] b1].
      pose proof (Hpop oldbyte (drop (S wo) w) [] (cursor ds)) as Hinv.
      rewrite app_nil_r, app_nil_l in Hinv.
      specialize (Hinv (drop_S _ _ _ Hold) eq_refl).
      destruct (if max_buffer <=? len cb then _ else _) as [cb0 out0].
      rsync_simpl.
      apply lookup_lt_Some in Hold.
      split; [|lia]. split; [done|]. split; [exact Hinv|].
      split; [|lia]. intros _. done.
Qed.


(** The dict of lines 189-192 only holds signatures of the sequence. *)
Lemma signature_dict_lookup (sigs : list signature) :
  forall index d w j strong,
    Pyrsync2.signature_dict index sigs d !! w = Some (j, strong) ->
    ((index <= j)%nat /\ sigs !! (j - index)%nat = Some (w, strong))
    \/ d !! w = Some (j, strong).
Proof.
  induction sigs as [|[w0 s0] sigs IH]; intros index d w j strong H; [by right|].
  cbn [Pyrsync2.signature_dict] in H. apply IH in H as [[Hle Hj]|H].
  - left. split; [lia|].
    replace (j - index)%nat with (S (j - S index)) by lia. exact Hj.
  - destruct (decide (w0 = w)) as [->|Hne].
    + rewrite lookup_insert_eq in H. injection H as <- <-.
      left. split; [lia|]. rewrite Nat.sub_diag. reflexivity.
    + rewrite lookup_insert_ne in H by done. by right.
Qed.

(** Every weak checksum of the sequence is a key of the dict. *)
Lemma signature_dict_key (sigs : list signature) :
  forall index d w,
    (is_Some (d !! w) \/ exists k strong, sigs !! k = Some (w, strong)) ->
    is_Some (Pyrsync2.signature_dict index sigs d !! w).
Proof.
  induction sigs as [|[w0 s0] sigs IH]; intros index d w H.
  - destruct H as [H|(k & strong & H)]; [exact H | discriminate].
  - cbn [Pyrsync2.signature_dict]. apply IH.
    destruct H as [H|(k & strong & H)].
    + left. destruct (decide (w0 = w)) as [->|Hne].
      * rewrite lookup_insert_eq. eauto.
      * rewrite lookup_insert_ne by done. exact H.
    + destruct k as [|k].
      * injection H as -> ->. left. rewrite lookup_insert_eq. eauto.
      * right. exists k, strong. exact H.
Qed.

Lemma lookup_signatures (j : nat) (w : Z) (strong : bytes) :
  map (signature_of md5) (blocks_of n baseline) !! j = Some (w, strong) ->
  (j < block_count n baseline)%nat
  /\ w = fst (fst (weakchecksum (block_at n baseline j)))
  /\ strong = md5 (block_at n baseline j).
Proof.
  intros H.
  assert (Hj : (j < block_count n baseline)%nat).
  { apply lookup_lt_Some in H. rewrite length_map, length_blocks_of in H. exact H. }
  change (map ?f ?l) with (f <$> l) in H.
  rewrite list_lookup_fmap, lookup_blocks_of in H by done.
  injection H as <- <-. done.
Qed.

Let remotesignatures : gmap Z (nat * bytes) :=
  Pyrsync2.signature_dict 0 (map (signature_of md5) (blocks_of n baseline)) ∅.

Lemma remotesignatures_lookup (w : Z) (j : nat) (strong : bytes) :
  remotesignatures !! w = Some (j, strong) ->
  (j < block_count n baseline)%nat
  /\ w = fst (fst (weakchecksum (block_at n baseline j)))
  /\ strong = md5 (block_at n baseline j).
Proof.
  intros H. apply signature_dict_lookup in H as [[_ H]|H].
  - rewrite Nat.sub_0_r in H. by apply lookup_signatures.
  - rewrite lookup_empty in H. discriminate.
Qed.

Hypothesis separates : strong_hash_separates md5 n candidate baseline.

(** One iteration of the loop of [rsyncdelta]. *)
Lemma rsync_step_inv (max_buffer : Z) (s : Pyrsync2.scan) :
  rsync_inv n candidate baseline s ->
  match Pyrsync2.step md5 remotesignatures (Z.of_nat n) max_buffer s with
  | Pyrsync2.Continue s' =>
      rsync_inv n candidate baseline s' /\ (rsync_measure s' < rsync_measure s)%nat
  | Pyrsync2.Break s' =>
      expand n baseline (Pyrsync2.yielded s' ++ Pyrsync2.flush (Pyrsync2.current_block s'))
      = candidate
  | Pyrsync2.Raise e _ => e = AttributeError
  end.
Proof.
  intros Hinv. apply rsync_reseed_seeded in Hinv as [Hseeded Hmeasure].
  unfold Pyrsync2.step.
  set (s0 := Pyrsync2.reseed (Z.of_nat n) s) in *. clearbody s0.
  pose proof (rsync_shift_step max_buffer s0 Hseeded) as Hshift.
  assert (Hshift' :
    match Pyrsync2.shift (Z.of_nat n) max_buffer s0 with
    | Pyrsync2.Continue s' =>
        rsync_inv n candidate baseline s' /\ (rsync_measure s' < rsync_measure s)%nat
    | Pyrsync2.Break s' =>
        expand n baseline
          (Pyrsync2.yielded s' ++ Pyrsync2.flush (Pyrsync2.current_block s'))
        = candidate
    | Pyrsync2.Raise e _ => e = AttributeError
    end).
  { destruct (Pyrsync2.shift (Z.of_nat n) max_buffer s0); [|done..].
    destruct Hshift as [? ?]. split; [done | lia]. }
  clear Hshift.
  destruct (remotesignatures !! Pyrsync2.checksum s0) as [[j strong]|] eqn:Hget;
    [|exact Hshift'].
  case_bool_decide as Hstrong; [|exact Hshift']. clear Hshift'.
  apply remotesignatures_lookup in Hget as (Hj & _ & Hmd5).
  destruct s0 as [ds lv m cb w wo c a b nb ts out].
  unfold rsync_seeded, rsync_seeded_measure, rsync_inv, rsync_measure in *.
  revert Hseeded Hmeasure Hstrong. rsync_simpl.
  intros (Hcontent & Hsplit & Hdead & Hwo) Hmeasure Hstrong.
  (* the window is the block that the dict names *)
  assert (Hwindow : drop wo w = block_at n baseline j).
  { assert (Hslice : drop wo w
                     = take (length (drop wo w))
                            (drop (length (expand n baseline out ++ cb)) candidate)).
    { clear -Hsplit. remember (drop (cursor ds) candidate) as rest eqn:Hrest.
      clear Hrest. subst candidate.
      rewrite (app_assoc _ cb), drop_app_length, take_app_length. reflexivity. }
    rewrite Hslice. apply separates; [|exact Hj|].
    - apply (f_equal length) in Hsplit. rewrite !length_app in Hsplit.
      rewrite length_app. lia.
    - rewrite <- Hslice, <- Hmd5. symmetry. exact Hstrong. }
  assert (Hnonempty : (0 < length (drop wo w))%nat).
  { rewrite Hwindow. pose proof (block_at_nonempty n n_pos baseline j Hj).
    destruct (block_at n baseline j); [done | cbn; lia]. }
  assert (Hout : expand n baseline (out ++ Pyrsync2.flush cb ++ [Pyrsync2.BlockRef j])
                 ++ drop (cursor ds) candidate = candidate).
  { rewrite !expand_app, expand_flush, expand_block_ref, <- Hwindow, <- !app_assoc.
    exact Hsplit. }
  destruct lv; [|reflexivity].
  destruct (closed ds) eqn:Hclosed.
  - rsync_simpl. cbn [Pyrsync2.flush]. rewrite app_nil_r.
    etrans; [|exact Hout].
    assert (drop (cursor ds) candidate = []) as ->; [|by rewrite app_nil_r].
    unfold closed in Hclosed. apply andb_prop in Hclosed as [_ Hclosed].
    apply bool_decide_eq_true_1 in Hclosed. apply drop_ge. rewrite <- Hcontent. exact Hclosed.
  - rsync_simpl. rewrite length_drop in Hnonempty.
    split; [|lia]. split; [exact Hcontent|]. split; [exact Hout|].
    split; [discriminate | exact Hwo].
Qed.

(** The loop ends before [rsync_measure] units of fuel are used up: at a
    [break], with the candidate spelled out, or at the [AttributeError] of
    line 220. *)
Lemma rsync_loop_completes (max_buffer : Z) :
  forall fuel s,
    (rsync_measure s < fuel)%nat ->
    rsync_inv n candidate baseline s ->
    exists s' e,
      Pyrsync2.scan_loop md5 fuel remotesignatures (Z.of_nat n) max_buffer s = (s', e)
      /\ ((e = Pyrsync2.Returned
           /\ expand n baseline
                (Pyrsync2.yielded s' ++ Pyrsync2.flush (Pyrsync2.current_block s'))
              = candidate)
          \/ e = Pyrsync2.Threw AttributeError).
Proof.
  induction fuel as [|fuel IH]; intros s Hfuel Hinv; [lia|].
  cbn [Pyrsync2.scan_loop].
  pose proof (rsync_step_inv max_buffer s Hinv) as Hstep.
  destruct (Pyrsync2.step md5 remotesignatures (Z.of_nat n) max_buffer s) as [s1|s1|e s1].
  - destruct Hstep as [Hinv1 Hless]. apply IH; [lia | exact Hinv1].
  - eexists _, _. split; [reflexivity|]. left. done.
  - eexists _, _. split; [reflexivity|]. right. by rewrite Hstep.
Qed.

End StreamingEncoder.

Lemma whole_block_fits (total n k : nat) :
  (0 < n)%nat -> (total mod n = 0)%nat -> (k * n < total)%nat ->
  (S k * n <= total)%nat.
Proof.
  intros Hn Hmod Hk. apply Nat.Div0.div_exact in Hmod.
  set (q := (total / n)%nat) in *. rewrite Hmod in *.
  assert (k < q)%nat by (apply (Nat.mul_lt_mono_pos_l n); lia).
  assert (n * S k <= n * q)%nat by (apply Nat.mul_le_mono_l; lia). lia.
Qed.

Section IdenticalStreams.

Variable md5 : bytes -> bytes.
Variable n : nat.
Hypothesis n_pos : (0 < n)%nat.
Variable baseline : bytes.

Lemma patch_block_ref (instream : stream) (out : bytes) (j : nat) :
  content instream = baseline ->
  exists instream',
    Pyrsync2.patch_element (Z.of_nat n) (instream, out) (Pyrsync2.BlockRef j)
    = Ok (instream', out ++ block_at n baseline j)
    /\ content instream' = baseline.
Proof.
  intros Hcontent. unfold Pyrsync2.patch_element.
  destruct (Z.of_nat n =? 0) eqn:E0; [lia|].
  unfold seek. destruct (Z.of_nat j * Z.of_nat n <? 0) eqn:Eneg;
    [apply Z.ltb_lt in Eneg; nia|].
  rewrite read_block by lia. cbn [content cursor auto_close].
  assert (Hblock : take (Z.to_nat (Z.of_nat n))
                        (drop (Z.to_nat (Z.of_nat j * Z.of_nat n)) (content instream))
                   = block_at n baseline j).
  { unfold block_at. rewrite Hcontent. repeat f_equal; lia. }
  rewrite Hblock. eexists. split; [reflexivity | exact Hcontent].
Qed.

(** [patchstream] writes the expansion of the delta. *)
Lemma patchstream_expand (delta : list Pyrsync2.element) :
  forall instream out,
    content instream = baseline ->
    exists instream',
      Pyrsync2.patchstream instream out delta (Z.of_nat n)
      = Ok (instream', out ++ expand n baseline delta).
Proof.
  unfold Pyrsync2.patchstream.
  induction delta as [|e delta IH]; intros instream out Hcontent.
  - exists instream. cbn. by rewrite app_nil_r.
  - cbn [fold_result]. destruct e as [data|j].
    + change (Pyrsync2.patch_element (Z.of_nat n) (instream, out) (Pyrsync2.Literal data))
        with (@Ok (stream * bytes) (instream, out ++ data)).
      cbv beta iota.
      destruct (IH instream (out ++ data) Hcontent) as [ins' Hins].
      exists ins'. etrans; [exact Hins|].
      unfold expand. cbn [map concat]. by rewrite app_assoc.
    + destruct (patch_block_ref instream out j Hcontent) as (ins1 & -> & Hc1).
      cbv beta iota.
      destruct (IH ins1 (out ++ block_at n baseline j) Hc1) as [ins' Hins].
      exists ins'. etrans; [exact Hins|].
      unfold expand. cbn [map concat]. by rewrite app_assoc.
Qed.

Let remotesignatures : gmap Z (nat * bytes) :=
  Pyrsync2.signature_dict 0 (map (signature_of md5) (blocks_of n baseline)) ∅.

Hypothesis separates : strong_hash_separates md5 n baseline baseline.
Hypothesis weak_separates : weak_checksum_separates n baseline.
Hypothesis whole_blocks : (length baseline mod n = 0)%nat.

Lemma weakchecksum_nil : weakchecksum [] = (0, 0, 0).
Proof. reflexivity. Qed.

(** The empty window read at the end of the stream matches no block. *)
Lemma empty_window_no_match (j : nat) (strong : bytes) (w : Z) :
  remotesignatures !! w = Some (j, strong) -> strong <> md5 [].
Proof.
  intros Hget Hstrong.
  apply (remotesignatures_lookup md5 n n_pos baseline) in Hget as (Hj & _ & Hmd5).
  pose proof (separates 0%nat 0%nat j ltac:(lia) Hj) as Hsep.
  rewrite take_0 in Hsep. rewrite <- Hmd5 in Hsep. specialize (Hsep (eq_sym Hstrong)).
  by apply (block_at_nonempty n n_pos baseline j Hj).
Qed.

Lemma rsync_aligned_step (max_buffer : Z) (s : Pyrsync2.scan) :
  rsync_aligned n baseline s ->
  match Pyrsync2.step md5 remotesignatures (Z.of_nat n) max_buffer s with
  | Pyrsync2.Continue s' => rsync_aligned n baseline s'
  | Pyrsync2.Break s' =>
      Forall is_block_ref
             (Pyrsync2.yielded s' ++ Pyrsync2.flush (Pyrsync2.current_block s'))
  | Pyrsync2.Raise _ _ => False
  end.
Proof.
  destruct s as [ds lv m cb w wo c a b nb ts out]. unfold rsync_aligned. rsync_simpl.
  intros (Hcontent & -> & -> & -> & Hrefs & k & Hcur & Hk).
  unfold Pyrsync2.step, Pyrsync2.reseed. rsync_simpl.
  pose proof (read_facts (Z.of_nat n) ds ltac:(lia)) as Hread.
  destruct (read (Z.of_nat n) ds) as [blk ds1].
  destruct Hread as (Hblk & Hc1 & _ & Hcur1 & Hlen & Hrem).
  rewrite Hcontent, Hcur, Nat2Z.id in Hblk. fold (block_at n baseline k) in Hblk.
  destruct (weakchecksum blk) as [[c1 a1] b1] eqn:Hweak. rsync_simpl.
  rewrite drop_0.
  destruct (decide (k * n < length baseline)%nat) as [Hinside|Hend].
  - (* a whole block, and the dict has its weak checksum *)
    assert (Hkc : (k < block_count n baseline)%nat) by (by apply block_count_bounds).
    assert (Hfull : length blk = n).
    { rewrite Hlen, Nat2Z.id. unfold remaining. rewrite Hcontent, Hcur.
      apply Nat.min_l.
      pose proof (whole_block_fits _ n k n_pos whole_blocks Hinside). lia. }
    destruct (signature_dict_key (map (signature_of md5) (blocks_of n baseline)) 0 ∅ c1)
      as [[j strong] Hget].
    { right. exists k, (md5 blk). change (map ?f ?l) with (f <$> l).
      rewrite list_lookup_fmap, lookup_blocks_of by done.
      unfold signature_of. cbn. rewrite <- Hblk, Hweak. reflexivity. }
    fold remotesignatures in Hget. rewrite Hget.
    apply (remotesignatures_lookup md5 n n_pos baseline) in Hget as (Hj & Hc & Hmd5).
    assert (Hsame : block_at n baseline j = blk).
    { rewrite Hblk. apply weak_separates; [done..|].
      rewrite <- Hc, <- Hblk, Hweak. reflexivity. }
    rewrite bool_decide_eq_true_2 by (by rewrite Hmd5, Hsame).
    rsync_simpl. cbn [Pyrsync2.flush app].
    assert (Hrefs' : Forall is_block_ref (out ++ [Pyrsync2.BlockRef j])).
    { apply Forall_app. split; [exact Hrefs|]. by constructor. }
    destruct (closed ds1).
    + rsync_simpl. cbn [Pyrsync2.flush]. by rewrite app_nil_r.
    + rsync_simpl. split; [congruence|]. do 3 (split; [done|]).
      split; [exact Hrefs'|]. exists (S k). rewrite Hcur1, Hcur, Hfull.
      split; [lia|]. apply (whole_block_fits _ n k n_pos whole_blocks Hinside).
  - (* the end of the stream *)
    assert (Hnil : blk = []).
    { rewrite Hblk. unfold block_at. rewrite drop_ge by lia. apply take_nil. }
    clear Hblk. subst blk. cbn [length] in *.
    assert (Hshift :
      match Pyrsync2.shift (Z.of_nat n) max_buffer
              (Pyrsync2.Scan ds1 true true [] [] 0 c1 a1 b1 nb ts out) with
      | Pyrsync2.Continue s' => rsync_aligned n baseline s'
      | Pyrsync2.Break s' =>
          Forall is_block_ref
                 (Pyrsync2.yielded s' ++ Pyrsync2.flush (Pyrsync2.current_block s'))
      | Pyrsync2.Raise _ _ => False
      end).
    { unfold Pyrsync2.shift, Pyrsync2.pull. rsync_simpl.
      pose proof (read_facts 1 ds1 ltac:(lia)) as Hread.
      destruct (read 1 ds1) as [got ds2].
      destruct Hread as (_ & _ & _ & Hcur2 & Hlen2 & _).
      assert (Hrem1 : remaining ds1 = 0%nat).
      { rewrite Hrem. unfold remaining. rewrite Hcontent, Hcur. lia. }
      destruct got as [|x got]; [|cbn [length] in Hlen2; lia].
      destruct (Z.of_nat n =? 0) eqn:E0; [lia|]. rsync_simpl.
      assert (Htell : tell ds2 mod Z.of_nat n = 0).
      { unfold tell. cbn [length] in Hcur2.
        replace (Z.of_nat (cursor ds2)) with (Z.of_nat k * Z.of_nat n) by lia.
        apply Z_mod_mult. }
      rewrite Htell.
      match goal with |- context [if ?c then _ else _] => change c with true end.
      rsync_simpl. cbn [drop Pyrsync2.flush]. by rewrite !app_nil_r. }
    destruct (remotesignatures !! c1) as [[j strong]|] eqn:Hget; [|exact Hshift].
    rewrite bool_decide_eq_false_2; [exact Hshift|].
    eapply empty_window_no_match, Hget.
Qed.

Lemma rsync_aligned_loop (max_buffer : Z) :
  forall fuel s s' e,
    rsync_aligned n baseline s ->
    Pyrsync2.scan_loop md5 fuel remotesignatures (Z.of_nat n) max_buffer s = (s', e) ->
    e = Pyrsync2.Unfinished
    \/ (e = Pyrsync2.Returned
        /\ Forall is_block_ref
                  (Pyrsync2.yielded s' ++ Pyrsync2.flush (Pyrsync2.current_block s'))).
Proof.
  induction fuel as [|fuel IH]; intros s s' e Haligned H.
  - injection H as _ <-. by left.
  - cbn [Pyrsync2.scan_loop] in H.
    pose proof (rsync_aligned_step max_buffer s Haligned) as Hstep.
    destruct (Pyrsync2.step md5 remotesignatures (Z.of_nat n) max_buffer s)
      as [s1|s1|e1 s1]; [|injection H as <- <-; by right|done].
    eapply IH; eassumption.
Qed.

End IdenticalStreams.

Lemma strong_hash_separates_b_sound (md5 : bytes -> bytes) (n : nat)
  (candidate baseline : bytes) :
  strong_hash_separates_b md5 n candidate baseline = true ->
  strong_hash_separates md5 n candidate baseline.
Proof.
  unfold strong_hash_separates_b. intros H i l j Hil Hj Heq.
  rewrite forallb_forall in H.
  specialize (H i ltac:(apply in_seq; lia)). rewrite forallb_forall in H.
  specialize (H l ltac:(apply in_seq; lia)). rewrite forallb_forall in H.
  specialize (H j ltac:(apply in_seq; lia)).
  rewrite bool_decide_eq_true_2 in H by exact Heq.
  apply bool_decide_eq_true_1 in H. exact H.
Qed.

Section RoundTrip.

Variable md5 : bytes -> bytes.

(** C1, as the code has it.  Take any baseline and positive block size such
    that the strong hash tells every window of the baseline from every
    baseline block with other content.  Run on a candidate stream with the
    same bytes and on the signatures of the baseline, [rsyncdelta] ends
    within [length baseline + 2] iterations.  When it ends by returning,
    [patchstream] applied to what it yielded, with the baseline as source,
    writes exactly the bytes of the baseline.  When moreover the length of
    the baseline is a multiple of the block size and no two blocks with
    different content share a weak checksum, it does end by returning, and
    what it yielded are block references only. *)
Theorem identical_streams_roundtrip :
  forall (baseline : bytes) (flag flag' : bool) (blocksize max_buffer : Z),
    0 < blocksize ->
    strong_hash_separates md5 (Z.to_nat blocksize) baseline baseline ->
    exists sigs delta ending,
      Pyrsync2.blockchecksums md5 (Stream baseline 0 flag) blocksize = Some sigs
      /\ Pyrsync2.rsyncdelta md5 (length baseline + 2) (Stream baseline 0 flag') sigs
           blocksize max_buffer
         = (delta, ending)
      /\ ending <> Pyrsync2.Unfinished
      /\ (ending = Pyrsync2.Returned ->
          forall instream,
            content instream = baseline ->
            exists instream',
              Pyrsync2.patchstream instream [] delta blocksize = Ok (instream', baseline))
      /\ ((length baseline mod Z.to_nat blocksize = 0)%nat ->
          weak_checksum_separates (Z.to_nat blocksize) baseline ->
          ending = Pyrsync2.Returned /\ Forall is_block_ref delta).
Proof.
  intros baseline flag flag' blocksize max_buffer HB Hsep.
  set (n := Z.to_nat blocksize) in *.
  assert (Hn : (0 < n)%nat) by (unfold n; lia).
  assert (HnB : Z.of_nat n = blocksize) by (unfold n; lia).
  exists (map (signature_of md5) (blocks_of n baseline)).
  unfold Pyrsync2.blockchecksums, Pyrsync2.rsyncdelta.
  rewrite checksums_from_blocks by (cbn; lia). cbn [cursor content]. rewrite drop_0.
  fold n.
  destruct (rsync_loop_completes md5 n Hn baseline baseline Hsep max_buffer
              (length baseline + 2) (Pyrsync2.scan_init (Stream baseline 0 flag')))
    as (s' & e & Hloop & Hres).
  { unfold rsync_measure, remaining. cbn. lia. }
  { unfold rsync_inv. cbn. rewrite drop_0. done. }
  rewrite HnB in Hloop. rewrite Hloop.
  assert (Haligned : (length baseline mod n = 0)%nat ->
            weak_checksum_separates n baseline ->
            e = Pyrsync2.Returned
            /\ Forall is_block_ref
                      (Pyrsync2.yielded s' ++ Pyrsync2.flush (Pyrsync2.current_block s'))).
  { intros Hwhole Hweak. rewrite <- HnB in Hloop.
    apply (rsync_aligned_loop md5 n Hn baseline Hsep Hweak Hwhole) in Hloop.
    - destruct Hloop as [->|Hret]; [|exact Hret].
      destruct Hres as [[? _]|?]; discriminate.
    - unfold rsync_aligned. cbn. repeat split; [constructor|].
      exists 0%nat. split; [reflexivity | lia]. }
  destruct Hres as [[-> Hexpand]| ->].
  - eexists _, _. split; [reflexivity|]. split; [reflexivity|].
    split; [discriminate|]. split; [|exact Haligned].
    intros _ instream Hcontent.
    destruct (patchstream_expand n Hn baseline
                (Pyrsync2.yielded s' ++ Pyrsync2.flush (Pyrsync2.current_block s'))
                instream [] Hcontent) as [ins' Hpatch].
    exists ins'. rewrite HnB, Hexpand in Hpatch. exact Hpatch.
  - eexists _, _. split; [reflexivity|]. split; [reflexivity|].
    split; [discriminate|]. split; [discriminate|].
    intros Hwhole Hweak. destruct (Haligned Hwhole Hweak) as [? _]. discriminate.
Qed.

End RoundTrip.

Lemma identical_streams_roundtrip_witness :
  exists sigs delta ending,
    Pyrsync2.blockchecksums MD5.digest (Stream [1; 2; 3; 4; 5; 6] 0 false) 3 = Some sigs
    /\ Pyrsync2.rsyncdelta MD5.digest (length [1; 2; 3; 4; 5; 6] + 2)
         (Stream [1; 2; 3; 4; 5; 6] 0 false) sigs 3 3
       = (delta, ending)
    /\ ending <> Pyrsync2.Unfinished
    /\ (ending = Pyrsync2.Returned ->
        forall instream,
          content instream = [1; 2; 3; 4; 5; 6] ->
          exists instream',
            Pyrsync2.patchstream instream [] delta 3
            = Ok (instream', [1; 2; 3; 4; 5; 6]))
    /\ ((length [1; 2; 3; 4; 5; 6] mod Z.to_nat 3 = 0)%nat ->
        weak_checksum_separates (Z.to_nat 3) [1; 2; 3; 4; 5; 6] ->
        ending = Pyrsync2.Returned /\ Forall is_block_ref delta).
Proof.
  apply (identical_streams_roundtrip MD5.digest [1; 2; 3; 4; 5; 6] false false 3 3).
  - lia.
  - apply strong_hash_separates_b_sound. vm_compute. reflexivity.
Defined.

(** C1 as stated fails: the baseline [1; 0; 1; 0; 2; 0] is two whole blocks
    of three bytes with the same weak checksum; the dict of [rsyncdelta]
    keeps the second only, and the first block of the identical candidate
    goes out as a literal. *)
Lemma identical_streams_yield_literal :
  Pyrsync2.blockchecksums MD5.digest (open [1; 0; 1; 0; 2; 0]) 3
  = Some (map (signature_of MD5.digest) [[1; 0; 1]; [0; 2; 0]])
  /\ Pyrsync2.rsyncdelta MD5.digest 8 (open [1; 0; 1; 0; 2; 0])
       (map (signature_of MD5.digest) [[1; 0; 1]; [0; 2; 0]]) 3 3
     = ([Pyrsync2.Literal [1; 0; 1]; Pyrsync2.BlockRef 1], Pyrsync2.Returned)
  /\ len [1; 0; 1; 0; 2; 0] mod 3 = 0
  /\ ~ Forall no_nonempty_literal [Pyrsync2.Literal [1; 0; 1]; Pyrsync2.BlockRef 1].
Proof.
  split; [vm_compute; reflexivity|]. split; [vm_compute; reflexivity|].
  split; [reflexivity|]. intros H. apply Forall_cons in H as [H _]. discriminate.
Qed.

(** On five zero bytes with block size 3, the tail of the identical
    candidate matches the short last block once [datastream] is [None], and
    line 220 raises [AttributeError]. *)
Example rsyncdelta_raises_in_tail :
  Pyrsync2.rsyncdelta MD5.digest 7 (open [0; 0; 0; 0; 0])
    (map (signature_of MD5.digest) [[0; 0; 0]; [0; 0]]) 3 3
  = ([Pyrsync2.Literal [0; 0; 0]; Pyrsync2.BlockRef 1], Pyrsync2.Threw AttributeError).
Proof. vm_compute. reflexivity. Qed.

(** ** The table during the blueprint scan *)

Lemma entries_cons (k : Z) (bucket : list Pyzsync.entry) (t : Pyzsync.table) :
  entries ((k, bucket) :: t) = map (pair k) bucket ++ entries t.
Proof. reflexivity. Qed.

Lemma entries_tbl_get (k : Z) (t : Pyzsync.table) (bucket : list Pyzsync.entry)
  (e : Pyzsync.entry) :
  Pyzsync.tbl_get k t = Some bucket -> e ∈ bucket -> (k, e) ∈ entries t.
Proof.
  induction t as [|[k0 b0] t IH]; [discriminate|].
  cbn [Pyzsync.tbl_get]. rewrite entries_cons. intros Hget He.
  apply elem_of_app. destruct (k0 =? k) eqn:E.
  - apply Z.eqb_eq in E as ->. injection Hget as ->. left.
    apply (list_elem_of_fmap_2 (pair k)). exact He.
  - right. apply IH; assumption.
Qed.

Lemma entries_tbl_set (k : Z) (bucket' : list Pyzsync.entry) (t : Pyzsync.table)
  (w : Z) (e : Pyzsync.entry) :
  (w, e) ∈ entries (Pyzsync.tbl_set k bucket' t) ->
  (w, e) ∈ entries t \/ (w = k /\ e ∈ bucket').
Proof.
  induction t as [|[k0 b0] t IH]; cbn [Pyzsync.tbl_set].
  - rewrite entries_cons. intros [H|H]%elem_of_app; [|by left].
    apply list_elem_of_fmap in H as (e' & Heq & He'). injection Heq as -> ->. by right.
  - destruct (k0 =? k) eqn:E; rewrite !entries_cons.
    + apply Z.eqb_eq in E as ->. intros [H|H]%elem_of_app.
      * apply list_elem_of_fmap in H as (e' & Heq & He'). injection Heq as -> ->. by right.
      * left. apply elem_of_app. by right.
    + intros [H|H]%elem_of_app.
      * left. apply elem_of_app. by left.
      * destruct (IH H) as [?|?]; [|by right]. left. apply elem_of_app. by right.
Qed.

Lemma confirm_entries (local_strong : bytes) (offset : Z) (bucket : list Pyzsync.entry) :
  forall bucket' hit,
    Pyzsync.confirm local_strong offset bucket = Ok (bucket', hit) ->
    forall e, e ∈ bucket' ->
      e ∈ bucket
      \/ exists b, e = Pyzsync.Triple b local_strong offset
                   /\ Pyzsync.Pair b local_strong ∈ bucket.
Proof.
  induction bucket as [|e0 bucket IH]; intros bucket' hit H e He.
  - injection H as <- <-. by left.
  - destruct e0 as [b s | b s off]; cbn [Pyzsync.confirm] in H; [|discriminate].
    case_bool_decide as Hs.
    + injection H as <- <-. apply elem_of_cons in He as [->|He].
      * right. exists b. subst s. split; [reflexivity | left].
      * left. by right.
    + destruct (Pyzsync.confirm local_strong offset bucket) as [[rest' hit']|] eqn:E;
        [|discriminate].
      injection H as <- <-. apply elem_of_cons in He as [->|He].
      * left. left.
      * destruct (IH _ _ eq_refl e He) as [?|(b' & -> & ?)].
        -- left. by right.
        -- right. exists b'. split; [reflexivity | by right].
Qed.

(** The table that [zsync_delta] builds: the signatures of the sequence, as
    pairs. *)
Lemma entries_add_signature (t : Pyzsync.table) (block : nat) (sig : signature)
  (w : Z) (e : Pyzsync.entry) :
  (w, e) ∈ entries (Pyzsync.add_signature t block sig) ->
  (w, e) ∈ entries t \/ (w = fst sig /\ e = Pyzsync.Pair block (snd sig)).
Proof.
  destruct sig as [weak strong]. unfold Pyzsync.add_signature. cbn [fst snd].
  destruct (Pyzsync.tbl_get weak t) as [bucket|] eqn:Hget;
    intros [H|[-> H]]%entries_tbl_set; try (by left).
  - apply elem_of_app in H as [H|H].
    + left. eapply entries_tbl_get; eassumption.
    + apply list_elem_of_singleton in H as ->. by right.
  - apply list_elem_of_singleton in H as ->. by right.
Qed.

Lemma entries_index_signatures (sigs : list signature) :
  forall block t w e,
    (w, e) ∈ entries (Pyzsync.index_signatures block sigs t) ->
    (w, e) ∈ entries t
    \/ exists i strong,
         sigs !! i = Some (w, strong) /\ e = Pyzsync.Pair (block + i) strong.
Proof.
  induction sigs as [|sig sigs IH]; intros block t w e H; [by left|].
  cbn [Pyzsync.index_signatures] in H.
  apply IH in H as [H|(i & strong & Hi & ->)].
  - apply entries_add_signature in H as [H|[-> ->]]; [by left|].
    right. exists 0%nat, (snd sig). rewrite Nat.add_0_r. by destruct sig.
  - right. exists (S i), strong. split; [exact Hi|]. f_equal. lia.
Qed.

Lemma table_of_initial (sigs : list signature) :
  table_of sigs (Pyzsync.index_signatures 0 sigs []).
Proof.
  intros w e [H|(i & strong & Hi & ->)]%entries_index_signatures; [inversion H|].
  exact Hi.
Qed.

Lemma resolved_ok_initial (md5 : bytes -> bytes) (n : nat) (candidate : bytes)
  (sigs : list signature) :
  resolved_ok md5 n candidate (Pyzsync.index_signatures 0 sigs []).
Proof.
  intros w b strong off [H|(i & s & _ & ?)]%entries_index_signatures;
    [inversion H | discriminate].
Qed.

(** Sliding a full window by one byte. *)
Lemma rollingchecksum_window (w rest : bytes) (blocksize x oldbyte c a b : Z) :
  len w = blocksize ->
  weakchecksum w = (c, a, b) ->
  w ++ [x] = oldbyte :: rest ->
  rollingchecksum oldbyte x a b blocksize = weakchecksum rest.
Proof.
  intros Hlen Hsum Hw. destruct w as [|y w'].
  - injection Hw as <- <-. rewrite weakchecksum_sums in Hsum. injection Hsum as _ <- <-.
    rewrite weakchecksum_sums. unfold rollingchecksum, composite.
    cbn [weighted_sum unweighted_sum]. unfold len in Hlen. cbn [length] in Hlen.
    repeat f_equal; lia.
  - injection Hw as -> <-.
    rewrite weakchecksum_sums in Hsum. injection Hsum as _ <- <-.
    rewrite weakchecksum_sums. unfold rollingchecksum, composite.
    rewrite weighted_sum_snoc, unweighted_sum_snoc.
    cbn [weighted_sum unweighted_sum]. rewrite <- Hlen.
    repeat f_equal; lia.
Qed.

Lemma window_slides (n o : nat) (candidate w rest : bytes) (x oldbyte : Z) :
  w = take n (drop o candidate) ->
  length w = n ->
  x :: [] = take 1 (drop (o + n) candidate) ->
  w ++ [x] = oldbyte :: rest ->
  rest = take n (drop (S o) candidate) /\ length rest = n.
Proof.
  intros Hw Hlen Hx Happ.
  assert (Hjoin : w ++ [x] = take (S n) (drop o candidate)).
  { rewrite Hw, Hx, <- drop_drop, take_take_drop. f_equal. lia. }
  rewrite Hjoin in Happ.
  destruct (drop o candidate) as [|y l] eqn:Hdrop; [discriminate|].
  cbn [take] in Happ. injection Happ as -> <-.
  assert (Hl : drop (S o) candidate = l).
  { replace (S o) with (o + 1)%nat by lia. rewrite <- drop_drop, Hdrop. reflexivity. }
  rewrite Hl. split; [reflexivity|].
  apply (f_equal length) in Hjoin. rewrite length_app in Hjoin. cbn [length take] in Hjoin.
  lia.
Qed.

Section BlueprintSoundness.

Variable md5 : bytes -> bytes.
Variable n : nat.
Hypothesis n_pos : (0 < n)%nat.
Variable candidate : bytes.
Variable sigs : list signature.

Lemma zsync_reseed_window (s : Pyzsync.scan) :
  zsync_inv md5 n candidate sigs s ->
  let s0 := Pyzsync.reseed (Z.of_nat n) s in
  content (Pyzsync.datastream s0) = candidate
  /\ Pyzsync.remote_hashes s0 = Pyzsync.remote_hashes s
  /\ Pyzsync.live s0 = Pyzsync.live s
  /\ (Pyzsync.live s0 = true -> zsync_window n candidate s0).
Proof.
  destruct s as [ds lv t m off w c a b nb ts].
  unfold zsync_inv, Pyzsync.reseed. zsync_simpl.
  intros (Hcontent & _ & _ & Hlive).
  destruct m; [destruct lv|]; zsync_simpl.
  - specialize (Hlive eq_refl). destruct Hlive as (Hoff & Hpos).
    unfold zsync_next in *. revert Hoff Hpos. zsync_simpl. intros Hoff Hpos.
    pose proof (read_facts (Z.of_nat n) ds ltac:(lia)) as Hread.
    destruct (read (Z.of_nat n) ds) as [blk ds1].
    destruct Hread as (Hblk & Hc1 & _ & Hcur & Hlen & Hrem).
    destruct (weakchecksum blk) as [[c1 a1] b1] eqn:Hweak.
    zsync_simpl. split; [congruence|]. split; [done|]. split; [done|]. intros _.
    unfold zsync_window. zsync_simpl. rewrite Nat2Z.id in *.
    split; [lia|]. rewrite Hcontent in Hblk.
    destruct Hpos as [Hpos|[Hend Hbeyond]].
    + split; [by rewrite Hblk, Hpos|]. split; [exact Hweak|].
      destruct (decide (n <= remaining ds)%nat).
      * left. rewrite Hcur, Hlen, Hpos. lia.
      * right. unfold remaining in *. rewrite Hc1, Hcontent in *. lia.
    + assert (Hnil : blk = []).
      { destruct blk; [done|]. cbn [length] in Hlen. lia. }
      split.
      { rewrite Hnil, drop_ge by lia. by rewrite take_nil. }
      split; [exact Hweak|]. right. split; lia.
  - split; [done|]. split; [done|]. split; [done|]. intros Hlv. discriminate.
  - split; [done|]. split; [done|]. split; [done|]. exact Hlive.
Qed.

Lemma zsync_window_next (s : Pyzsync.scan) :
  zsync_window n candidate s -> zsync_next n candidate s.
Proof.
  unfold zsync_window, zsync_next. intros (Hoff & _ & _ & Hpos).
  split; [lia|]. destruct Hpos as [[_ Hcur]|[Hend Hbeyond]].
  - left. lia.
  - right. split; [done | lia].
Qed.

Lemma zsync_window_matches (s : Pyzsync.scan) :
  zsync_window n candidate s ->
  matches_at md5 n candidate (Pyzsync.checksum s) (md5 (Pyzsync.window s))
             (Pyzsync.local_offset s).
Proof.
  unfold zsync_window, matches_at. intros (Hoff & Hw & Hsum & _).
  split; [exact Hoff|]. rewrite <- Hw. unfold signature_of. rewrite Hsum. reflexivity.
Qed.

(** The [else] branch keeps the invariant. *)
Lemma zsync_shift_inv (s : Pyzsync.scan) :
  content (Pyzsync.datastream s) = candidate ->
  table_of sigs (Pyzsync.remote_hashes s) ->
  resolved_ok md5 n candidate (Pyzsync.remote_hashes s) ->
  (Pyzsync.live s = true -> zsync_window n candidate s) ->
  match Pyzsync.shift (Z.of_nat n) s with
  | Pyzsync.Continue s' | Pyzsync.Break s' => zsync_inv md5 n candidate sigs s'
  | Pyzsync.Raise _ => True
  end.
Proof.
  destruct s as [ds lv t m off w c a b nb ts]. zsync_simpl.
  intros Hcontent Htable Hres Hwin.
  unfold Pyzsync.shift, Pyzsync.pull. zsync_simpl.
  destruct lv.
  - specialize (Hwin eq_refl). unfold zsync_window in Hwin. revert Hwin. zsync_simpl.
    intros (Hoff & Hw & Hsum & Hpos).
    pose proof (read_facts 1 ds ltac:(lia)) as Hread.
    destruct (read 1 ds) as [got ds1].
    destruct Hread as (Hgot & Hc1 & _ & Hcur & Hlen & Hrem).
    destruct got as [|x got].
    + destruct (Z.of_nat n =? 0) eqn:E0; [lia|]. zsync_simpl.
      destruct (len w <=? tell ds1 mod Z.of_nat n).
      * unfold zsync_inv. zsync_simpl. split; [congruence|].
        do 2 (split; [done|]). discriminate.
      * destruct w as [|oldbyte rest]; [done|].
        destruct (rollingchecksum _ _ _ _ _) as [[c1 a1] b1].
        unfold zsync_inv. zsync_simpl. split; [congruence|].
        do 2 (split; [done|]). discriminate.
    + zsync_simpl.
      assert (Hone : got = []).
      { cbn [length] in Hlen. destruct got; [done | cbn [length] in Hlen; lia]. }
      subst got. cbn [length] in Hcur, Hlen, Hrem.
      destruct Hpos as [[Hfull Hpos]|[Hend _]]; [|lia].
      destruct (w ++ [x]) as [|oldbyte rest] eqn:Happ; [by destruct w|].
      rewrite Hcontent, Hpos in Hgot. change (Z.to_nat 1) with 1%nat in Hgot.
      destruct (window_slides n (Z.to_nat off) candidate w rest x oldbyte Hw Hfull Hgot Happ)
        as [Hrest Hrlen].
      pose proof (rollingchecksum_window w rest (Z.of_nat n) x oldbyte c a b
                    ltac:(unfold len; lia) Hsum Happ) as Hroll.
      destruct (rollingchecksum _ _ _ _ _) as [[c1 a1] b1].
      unfold zsync_inv. zsync_simpl. split; [congruence|]. split; [done|]. split; [done|].
      intros _. unfold zsync_window. zsync_simpl.
      replace (Z.to_nat (off + 1)) with (S (Z.to_nat off)) by lia.
      split; [lia|]. split; [exact Hrest|]. split; [by rewrite Hroll|].
      left. split; [exact Hrlen | lia].
  - zsync_simpl. destruct (len w <=? ts).
    + unfold zsync_inv. zsync_simpl. do 3 (split; [done|]). discriminate.
    + destruct w as [|oldbyte rest]; [done|].
      destruct (rollingchecksum _ _ _ _ _) as [[c1 a1] b1].
      unfold zsync_inv. zsync_simpl. do 3 (split; [done|]). discriminate.
Qed.

(** One iteration keeps the invariant. *)
Lemma zsync_step_inv (s : Pyzsync.scan) :
  zsync_inv md5 n candidate sigs s ->
  match Pyzsync.step md5 (Z.of_nat n) s with
  | Pyzsync.Continue s' | Pyzsync.Break s' => zsync_inv md5 n candidate sigs s'
  | Pyzsync.Raise _ => True
  end.
Proof.
  intros Hinv. pose proof (zsync_reseed_window s Hinv) as Hseed.
  destruct Hinv as (_ & Htable & Hres & _).
  unfold Pyzsync.step.
  set (s0 := Pyzsync.reseed (Z.of_nat n) s) in *. clearbody s0.
  destruct Hseed as (Hcontent & Ht & Hlive & Hwin). rewrite <- Ht in Htable, Hres.
  clear Ht Hlive s.
  destruct (Pyzsync.tbl_get _ _) as [bucket|] eqn:Hget;
    [|by apply zsync_shift_inv].
  destruct (Pyzsync.confirm _ _ _) as [[bucket' hit]|e] eqn:Hconfirm; [|done].
  zsync_simpl.
  destruct (Pyzsync.live s0) eqn:Hlv; [|done].
  specialize (Hwin eq_refl).
  assert (Hinv' : zsync_inv md5 n candidate sigs
            (Pyzsync.Scan (Pyzsync.datastream s0) true
               (Pyzsync.tbl_set (Pyzsync.checksum s0) bucket' (Pyzsync.remote_hashes s0))
               (hit || Pyzsync.matched s0) (Pyzsync.local_offset s0) (Pyzsync.window s0)
               (Pyzsync.checksum s0) (Pyzsync.sum_a s0) (Pyzsync.sum_b s0)
               (Pyzsync.newbyte s0) (Pyzsync.tailsize s0))).
  { unfold zsync_inv. zsync_simpl. split; [exact Hcontent|]. split; [|split].
    - intros w e [H|[-> H]]%entries_tbl_set; [by apply Htable|].
      destruct (confirm_entries _ _ _ _ _ Hconfirm e H) as [He|(b & -> & He)].
      + apply Htable. eapply entries_tbl_get; eassumption.
      + pose proof (Htable _ _ (entries_tbl_get _ _ _ _ Hget He)) as Hsig.
        exact Hsig.
    - intros w b strong off [H|[-> H]]%entries_tbl_set; [by eapply Hres|].
      destruct (confirm_entries _ _ _ _ _ Hconfirm _ H) as [He|(b' & Heq & He)].
      + eapply Hres. eapply entries_tbl_get; eassumption.
      + injection Heq as -> -> ->. by apply zsync_window_matches.
    - intros _. destruct (hit || Pyzsync.matched s0) eqn:Hm.
      + apply zsync_window_next in Hwin. exact Hwin.
      + destruct s0; exact Hwin. }
  destruct (closed _); exact Hinv'.
Qed.

Lemma zsync_loop_inv :
  forall fuel s s',
    zsync_inv md5 n candidate sigs s ->
    Pyzsync.scan_loop md5 fuel (Z.of_nat n) s = Done s' ->
    zsync_inv md5 n candidate sigs s'.
Proof.
  induction fuel as [|fuel IH]; intros s s' Hinv H; [discriminate|].
  cbn [Pyzsync.scan_loop] in H.
  pose proof (zsync_step_inv s Hinv) as Hstep.
  destruct (Pyzsync.step md5 (Z.of_nat n) s) as [s1|s1|e]; [|by injection H as <-|done].
  eapply IH; eassumption.
Qed.

Lemma zsync_init_inv (flag : bool) :
  zsync_inv md5 n candidate sigs
    (Pyzsync.scan_init (Stream candidate 0 flag)
       (Pyzsync.index_signatures 0 sigs []) (Z.of_nat n)).
Proof.
  unfold zsync_inv, Pyzsync.scan_init. zsync_simpl. cbn [content].
  split; [done|]. split; [apply table_of_initial|]. split.
  - apply resolved_ok_initial.
  - intros _. unfold zsync_next. zsync_simpl. cbn [cursor]. split; [lia|]. left. lia.
Qed.

End BlueprintSoundness.

Section ResolvedSlots.

Variable md5 : bytes -> bytes.

Lemma blueprint_resolved_slot (mk : nat -> Z -> bytes -> Pyzsync.slot)
  (fuel : nat) (candidate : bytes) (flag : bool) (sigs : list signature)
  (blocksize : Z) (s : Pyzsync.scan) (instructions : list Pyzsync.slot)
  (to_request : list nat) (i : nat) (off : Z) :
  0 < blocksize ->
  (forall b w strong, mk b w strong <> Pyzsync.SInt off) ->
  Pyzsync.scan_loop md5 fuel blocksize
    (Pyzsync.scan_init (Stream candidate 0 flag)
       (Pyzsync.index_signatures 0 sigs []) blocksize) = Done s ->
  fold_result (fun acc kv => fold_result (place_with mk (fst kv)) acc (snd kv))
              (replicate (length sigs) Pyzsync.SNone, []) (Pyzsync.remote_hashes s)
  = Ok (instructions, to_request) ->
  instructions !! i = Some (Pyzsync.SInt off) ->
  0 <= off
  /\ sigs !! i
     = Some (signature_of md5 (take (Z.to_nat blocksize) (drop (Z.to_nat off) candidate))).
Proof.
  intros HB Hmk Hloop Hfold Hslot.
  set (n := Z.to_nat blocksize).
  assert (Hn : (0 < n)%nat) by (unfold n; lia).
  assert (HnB : blocksize = Z.of_nat n) by (unfold n; lia).
  pose proof (scan_keeps_blocks md5 _ _ _ _ _ Hloop) as [_ Hperm].
  rewrite HnB in Hloop.
  apply (zsync_loop_inv md5 n Hn candidate sigs) in Hloop; [|apply zsync_init_inv; exact Hn].
  destruct Hloop as (_ & Htable & Hres & _).
  destruct (get_instructions_with mk _ _ Hperm) as (ins & Hget & Hlen & Hslots).
  rewrite Hget in Hfold. injection Hfold as <- <-.
  assert (Hi : (i < length sigs)%nat)
    by (rewrite <- Hlen; eapply lookup_lt_Some, Hslot).
  destruct (entry_of_block _ _ i Hperm Hi) as (w & e & Hwe & Hb).
  pose proof (Hslots w e Hwe) as Hs. rewrite Hb, Hslot in Hs.
  destruct e as [b strong | b strong o]; cbn [slot_with Pyzsync.entry_block] in *.
  - injection Hs as Hs. symmetry in Hs. by apply Hmk in Hs.
  - injection Hs as <-. subst b.
    destruct (Hres _ _ _ _ Hwe) as [Hoff Hsig]. split; [exact Hoff|].
    rewrite Hsig. apply (Htable _ _ Hwe).
Qed.

Lemma zsync_delta_resolved_slot (fuel : nat) (candidate : bytes) (flag : bool)
  (sigs : list signature) (blocksize : Z) (instructions : list Pyzsync.slot)
  (to_request : list nat) (i : nat) (off : Z) :
  0 < blocksize ->
  Pyzsync.zsync_delta md5 fuel (Stream candidate 0 flag) sigs blocksize
  = Done (instructions, to_request) ->
  instructions !! i = Some (Pyzsync.SInt off) ->
  0 <= off
  /\ sigs !! i
     = Some (signature_of md5 (take (Z.to_nat blocksize) (drop (Z.to_nat off) candidate))).
Proof.
  intros HB H Hslot. unfold Pyzsync.zsync_delta in H.
  destruct (Pyzsync.scan_loop md5 fuel blocksize _) as [s| |] eqn:Hloop; try discriminate.
  unfold Pyzsync.get_instructions in H. rewrite place_is_place_with in H.
  destruct (fold_result _ _ _) as [[ins req]|] eqn:Hfold; [|discriminate].
  injection H as <- <-.
  eapply (blueprint_resolved_slot (triple_of blocksize)); try eassumption. done.
Qed.

Lemma zsyncdelta_resolved_slot (fuel : nat) (candidate : bytes) (flag : bool)
  (sigs : list signature) (blocksize : Z) (instructions : list Pyzsync.slot)
  (to_request : list nat) (i : nat) (off : Z) :
  0 < blocksize ->
  Pyrsync2.zsyncdelta md5 fuel (Stream candidate 0 flag) sigs blocksize
  = Done (instructions, to_request) ->
  instructions !! i = Some (Pyzsync.SInt off) ->
  0 <= off
  /\ sigs !! i
     = Some (signature_of md5 (take (Z.to_nat blocksize) (drop (Z.to_nat off) candidate))).
Proof.
  intros HB H Hslot. unfold Pyrsync2.zsyncdelta in H.
  destruct (Pyzsync.scan_loop md5 fuel blocksize _) as [s| |] eqn:Hloop; try discriminate.
  unfold Pyrsync2.get_instructions in H. rewrite place2_is_place_with in H.
  destruct (fold_result _ _ _) as [[ins req]|] eqn:Hfold; [|discriminate].
  injection H as <- <-.
  eapply (blueprint_resolved_slot pair_of); try eassumption. done.
Qed.

(** X1.  A resolved slot of a blueprint holds a byte offset of the candidate
    at which a window with the signature of the block stands. *)
Theorem resolved_slot_names_matching_window :
  forall (fuel : nat) (candidate : bytes) (flag : bool) (sigs : list signature)
         (blocksize : Z) (instructions : list Pyzsync.slot) (to_request : list nat),
    0 < blocksize ->
    Pyzsync.zsync_delta md5 fuel (Stream candidate 0 flag) sigs blocksize
      = Done (instructions, to_request)
    \/ Pyrsync2.zsyncdelta md5 fuel (Stream candidate 0 flag) sigs blocksize
       = Done (instructions, to_request) ->
    forall i off,
      instructions !! i = Some (Pyzsync.SInt off) ->
      0 <= off
      /\ sigs !! i
         = Some (signature_of md5
                   (take (Z.to_nat blocksize) (drop (Z.to_nat off) candidate))).
Proof.
  intros fuel candidate flag sigs blocksize instructions to_request HB [H|H] i off Hslot.
  - eapply zsync_delta_resolved_slot; eassumption.
  - eapply zsyncdelta_resolved_slot; eassumption.
Qed.

End ResolvedSlots.

Lemma resolved_slot_names_matching_window_witness :
  0 <= 4
  /\ map (signature_of MD5.digest) [[1; 2; 3]; [4; 5; 6]; [7]] !! 1%nat
     = Some (signature_of MD5.digest
               (take (Z.to_nat 3) (drop (Z.to_nat 4) [9; 1; 2; 3; 4; 5; 6; 7; 8]))).
Proof.
  apply (resolved_slot_names_matching_window MD5.digest 20 [9; 1; 2; 3; 4; 5; 6; 7; 8]
           false (map (signature_of MD5.digest) [[1; 2; 3]; [4; 5; 6]; [7]]) 3
           [Pyzsync.SInt 1; Pyzsync.SInt 4; Pyzsync.STriple 6 458759 (MD5.digest [7])]
           [2%nat]).
  - lia.
  - left. vm_compute. reflexivity.
  - reflexivity.
Defined.

(** ** Fetching, merging and patching *)

Lemma get_blocks_fetch (requests : list nat) (blocksize : Z) :
  0 <= blocksize ->
  forall ds,
    Pyzsync.get_blocks ds requests blocksize
    = Ok (map (fun i => (i, block_at (Z.to_nat blocksize) (content ds) i)) requests).
Proof.
  intros HB. induction requests as [|block rest IH]; intros ds; [reflexivity|].
  cbn [Pyzsync.get_blocks map]. unfold seek.
  destruct (Z.of_nat block * blocksize <? 0) eqn:Eneg; [apply Z.ltb_lt in Eneg; nia|].
  unfold read. destruct (blocksize <? 0) eqn:EB; [lia|].
  cbn [content cursor auto_close]. rewrite IH. cbn [content].
  unfold block_at. do 4 f_equal. rewrite Z2Nat.inj_mul, Nat2Z.id by lia. reflexivity.
Qed.

Lemma patch_slot (blocksize : Z) (instream : stream) (out : bytes) (e : Pyzsync.slot) :
  0 < blocksize -> patchable e ->
  exists instream',
    Pyzsync.patch_element blocksize (instream, out) e
    = Ok (instream', out ++ slot_bytes (Z.to_nat blocksize) (content instream) e)
    /\ content instream' = content instream.
Proof.
  intros HB He. destruct e as [|off| | |data]; try done; cbn [Pyzsync.patch_element].
  - cbn [patchable] in He. destruct (blocksize =? 0) eqn:E0; [lia|].
    unfold seek. destruct (off <? 0) eqn:Eneg; [lia|].
    rewrite read_block by done. cbn [content cursor auto_close slot_bytes].
    eexists. split; reflexivity.
  - exists instream. done.
Qed.

Lemma patchstream_slots (blocksize : Z) (delta : list Pyzsync.slot) :
  0 < blocksize -> Forall patchable delta ->
  forall instream out,
    exists instream',
      Pyzsync.patchstream instream out delta blocksize
      = Ok (instream',
            out ++ concat (map (slot_bytes (Z.to_nat blocksize) (content instream)) delta))
      /\ content instream' = content instream.
Proof.
  intros HB. unfold Pyzsync.patchstream.
  induction 1 as [|e delta He _ IH]; intros instream out.
  - exists instream. cbn. by rewrite app_nil_r.
  - cbn [fold_result].
    destruct (patch_slot blocksize instream out e HB He) as (ins1 & -> & Hc1).
    cbv beta iota.
    destruct (IH ins1 (out ++ slot_bytes (Z.to_nat blocksize) (content instream) e))
      as (ins' & Hfold & Hc).
    exists ins'. rewrite Hc1 in Hfold. split; [|congruence].
    etrans; [exact Hfold|]. cbn [map concat]. by rewrite app_assoc.
Qed.

Lemma window_as_slice (n o : nat) (candidate : bytes) :
  exists i l,
    (i + l <= length candidate)%nat
    /\ take n (drop o candidate) = take l (drop i candidate).
Proof.
  destruct (decide (o <= length candidate)%nat) as [Ho|Ho].
  - exists o, (Nat.min n (length candidate - o)). split; [lia|].
    destruct (decide (n <= length candidate - o)%nat).
    + by rewrite Nat.min_l by lia.
    + rewrite Nat.min_r by lia. rewrite !take_ge; [done|rewrite length_drop; lia..].
  - exists 0%nat, 0%nat. split; [lia|]. rewrite drop_ge by lia. by rewrite take_nil.
Qed.

Section BlueprintRoundTrip.

Variable md5 : bytes -> bytes.

(** X2.  The whole zsync exchange. The remote side sends the signatures of
    its file; the local side scans its own file and returns a blueprint and
    a request list; the remote side cuts the requested blocks; the local
    side merges them into the blueprint and patches. When the scan returns
    and the strong hash tells windows of the local file from different
    blocks of the remote file, what is written is the remote file. *)
Theorem blueprint_exchange_rebuilds_remote :
  forall (fuel : nat) (candidate remote : bytes) (flag : bool) (blocksize : Z)
         (instructions : list Pyzsync.slot) (to_request : list nat)
         (source local : stream),
    0 < blocksize ->
    strong_hash_separates md5 (Z.to_nat blocksize) candidate remote ->
    Pyzsync.zsync_delta md5 fuel (Stream candidate 0 flag)
      (map (signature_of md5) (blocks_of (Z.to_nat blocksize) remote)) blocksize
    = Done (instructions, to_request) ->
    content source = remote ->
    content local = candidate ->
    exists blocks merged local',
      Pyzsync.get_blocks source to_request blocksize = Ok blocks
      /\ Pyzsync.merge_instructions_blocks instructions blocks blocksize = Ok merged
      /\ Pyzsync.patchstream local [] merged blocksize = Ok (local', remote).
Proof.
  intros fuel candidate remote flag blocksize instructions to_request source local
    HB Hsep Hdelta Hsource Hlocal.
  set (n := Z.to_nat blocksize) in *.
  assert (Hn : (0 < n)%nat) by (unfold n; lia).
  set (sigs := map (signature_of md5) (blocks_of n remote)) in *.
  assert (Hsigs : length sigs = block_count n remote)
    by (unfold sigs; rewrite length_map; apply length_blocks_of).
  destruct (blueprint_slot_cases md5 _ _ _ _ _ _ Hdelta) as (Hlen & Hnd & Hbound & Hcases).
  pose proof (get_blocks_fetch to_request blocksize ltac:(lia) source) as Hblocks.
  fold n in Hblocks. rewrite Hsource in Hblocks.
  set (blocks := map (fun i => (i, block_at n remote i)) to_request) in *.
  assert (Hidx : map fst blocks = to_request).
  { unfold blocks. rewrite map_map. cbn [fst]. apply map_id. }
  destruct (merge_unresolved blocksize blocks instructions) as
    (merged & Hmerge & Hmlen & Hin & Hout).
  { rewrite Hidx. exact Hnd. }
  { intros i c Hic.
    assert (Hi : i ∈ to_request)
      by (rewrite <- Hidx; apply (list_elem_of_fmap_2 fst _ _ Hic)).
    destruct (Hcases i (Hbound i Hi)) as [[_ Hnot]|[Hws _]]; [done|exact Hws]. }
  (* every slot of the merged blueprint stands for its block of the remote file *)
  assert (Hslots : forall i, (i < block_count n remote)%nat ->
            exists slot, merged !! i = Some slot
                         /\ patchable slot
                         /\ slot_bytes n candidate slot = block_at n remote i).
  { intros i Hi.
    destruct (decide (i ∈ to_request)) as [Hreq|Hreq].
    - exists (Pyzsync.SBytes (block_at n remote i)). split; [|done].
      apply Hin. unfold blocks.
      apply (list_elem_of_fmap_2 (fun i => (i, block_at n remote i))). exact Hreq.
    - rewrite <- Hsigs in Hi.
      destruct (Hcases i Hi) as [[[off Hoff] _]|[_ ?]]; [|done].
      exists (Pyzsync.SInt off). split; [by rewrite Hout by (by rewrite Hidx)|].
      destruct (zsync_delta_resolved_slot md5 _ _ _ _ _ _ _ i off HB Hdelta Hoff)
        as [Hpos Hsig].
      split; [exact Hpos|]. cbn [slot_bytes]. fold n in Hsig.
      rewrite Hsigs in Hi. unfold sigs in Hsig.
      change (map ?f ?l) with (f <$> l) in Hsig.
      rewrite list_lookup_fmap, lookup_blocks_of in Hsig by done.
      injection Hsig as _ Hmd5.
      destruct (window_as_slice n (Z.to_nat off) candidate) as (i0 & l & Hil & Hslice).
      rewrite Hslice in *. apply Hsep; [exact Hil | exact Hi | by symmetry]. }
  assert (Hmerged : length merged = block_count n remote) by congruence.
  assert (Hpatchable : Forall patchable merged).
  { apply Forall_lookup. intros i x Hx.
    assert (Hi : (i < block_count n remote)%nat)
      by (rewrite <- Hmerged; eapply lookup_lt_Some, Hx).
    destruct (Hslots i Hi) as (slot & Hslot & Hp & _). congruence. }
  assert (Hbytes : map (slot_bytes n candidate) merged = blocks_of n remote).
  { apply list_eq. intros i. change (map ?f ?l) with (f <$> l).
    rewrite list_lookup_fmap.
    destruct (decide (i < block_count n remote)%nat) as [Hi|Hi].
    - destruct (Hslots i Hi) as (slot & -> & _ & Hb).
      rewrite lookup_blocks_of by done. cbn. by rewrite Hb.
    - rewrite !(proj2 (lookup_ge_None _ _)); [done| |].
      + rewrite length_blocks_of. lia.
      + lia. }
  destruct (patchstream_slots blocksize merged HB Hpatchable local []) as (local' & Hpatch & _).
  exists blocks, merged, local'. split; [exact Hblocks|]. split; [exact Hmerge|].
  rewrite Hpatch. fold n. rewrite Hlocal, Hbytes, concat_blocks_of by done. reflexivity.
Qed.

End BlueprintRoundTrip.

Lemma blueprint_exchange_rebuilds_remote_witness :
  exists blocks merged local',
    Pyzsync.get_blocks (open [1; 2; 3; 4; 5; 6; 7]) [2%nat] 3 = Ok blocks
    /\ Pyzsync.merge_instructions_blocks
         [Pyzsync.SInt 1; Pyzsync.SInt 4; Pyzsync.STriple 6 458759 (MD5.digest [7])]
         blocks 3
       = Ok merged
    /\ Pyzsync.patchstream (open [9; 1; 2; 3; 4; 5; 6; 7; 8]) [] merged 3
       = Ok (local', [1; 2; 3; 4; 5; 6; 7]).
Proof.
  apply (blueprint_exchange_rebuilds_remote MD5.digest 20 [9; 1; 2; 3; 4; 5; 6; 7; 8]
           [1; 2; 3; 4; 5; 6; 7] false 3
           [Pyzsync.SInt 1; Pyzsync.SInt 4; Pyzsync.STriple 6 458759 (MD5.digest [7])]
           [2%nat] (open [1; 2; 3; 4; 5; 6; 7]) (open [9; 1; 2; 3; 4; 5; 6; 7; 8])).
  - lia.
  - apply strong_hash_separates_b_sound. vm_compute. reflexivity.
  - vm_compute. reflexivity.
  - reflexivity.
  - reflexivity.
Defined.

(** ** The two blueprint encoders *)

Lemma place_without_offset (blocksize weak : Z) (instructions : list Pyzsync.slot)
  (to_request : list nat) (e : Pyzsync.entry) :
  Pyrsync2.place weak (map without_offset instructions, to_request) e
  = match Pyzsync.place blocksize weak (instructions, to_request) e with
    | Ok (ins, req) => Ok (map without_offset ins, req)
    | Err x => Err x
    end.
Proof.
  unfold Pyrsync2.place, Pyzsync.place. rewrite length_map.
  case_bool_decide; [|reflexivity].
  change (map ?f ?l) with (f <$> l).
  destruct e; rewrite list_fmap_insert; reflexivity.
Qed.

Lemma get_instructions_without_offset (blocksize : Z) (es : list (Z * Pyzsync.entry)) :
  forall instructions to_request,
    fold_result (fun acc we => Pyrsync2.place (fst we) acc (snd we))
                (map without_offset instructions, to_request) es
    = match fold_result (fun acc we => Pyzsync.place blocksize (fst we) acc (snd we))
                        (instructions, to_request) es with
      | Ok (ins, req) => Ok (map without_offset ins, req)
      | Err x => Err x
      end.
Proof.
  induction es as [|[w e] es IH]; intros instructions to_request; [reflexivity|].
  cbn [fold_result fst snd]. rewrite (place_without_offset blocksize).
  destruct (Pyzsync.place blocksize w (instructions, to_request) e) as [[ins req]|x];
    [apply IH | reflexivity].
Qed.

(** X3.  [zsyncdelta] of pyrsync2.py and [zsync_delta] of pyzsync.py end
    alike: with the same exception, or with the same request list and the
    same array but for the slots of the requested blocks, which hold [(weak,
    strong)] in the one and [(offset, weak, strong)] in the other. *)
Theorem zsyncdelta_is_zsync_delta_without_offsets :
  forall (md5 : bytes -> bytes) (fuel : nat) (ds : stream) (sigs : list signature)
         (blocksize : Z),
    Pyrsync2.zsyncdelta md5 fuel ds sigs blocksize
    = match Pyzsync.zsync_delta md5 fuel ds sigs blocksize with
      | Done (instructions, to_request) =>
          Done (map without_offset instructions, to_request)
      | Raised e => Raised e
      | OutOfFuel => OutOfFuel
      end.
Proof.
  intros md5 fuel ds sigs blocksize.
  unfold Pyrsync2.zsyncdelta, Pyzsync.zsync_delta.
  destruct (Pyzsync.scan_loop md5 fuel blocksize _) as [s| |]; [|reflexivity..].
  unfold Pyrsync2.get_instructions, Pyzsync.get_instructions.
  rewrite !fold_result_entries.
  pose proof (get_instructions_without_offset blocksize
                (entries (Pyzsync.remote_hashes s))
                (replicate (length sigs) Pyzsync.SNone) []) as H.
  change (map ?f ?l) with (f <$> l) in H. rewrite fmap_replicate in H.
  cbn [without_offset] in H. rewrite H. clear H.
  destruct (fold_result _ _ _) as [[ins req]|x]; reflexivity.
Qed.

(** ** Fetching the requested blocks *)

(** X4.  [get_blocks] yields, in the order of the requests and wherever the
    stream stands, each requested index with the [blocksize] bytes (fewer at
    the end of the content, none beyond it) at [index * blocksize]. *)
Theorem get_blocks_yields_requested_blocks :
  forall (ds : stream) (requests : list nat) (blocksize : Z),
    0 <= blocksize ->
    Pyzsync.get_blocks ds requests blocksize
    = Ok (map (fun i =>
                 (i, take (Z.to_nat blocksize)
                          (drop (i * Z.to_nat blocksize) (content ds))))
              requests).
Proof.
  intros ds requests blocksize HB. apply (get_blocks_fetch requests blocksize HB).
Qed.

Lemma get_blocks_yields_requested_blocks_witness :
  Pyzsync.get_blocks (Stream [1; 2; 3; 4; 5; 6; 7] 5 false) [2; 0; 4]%nat 3
  = Ok (map (fun i => (i, take (Z.to_nat 3) (drop (i * Z.to_nat 3) [1; 2; 3; 4; 5; 6; 7])))
            [2; 0; 4]%nat).
Proof.
  apply (get_blocks_yields_requested_blocks (Stream [1; 2; 3; 4; 5; 6; 7] 5 false)
           [2; 0; 4]%nat 3).
  lia.
Defined.

(** ** Merging *)

Lemma first_component_error (instructions : list Pyzsync.slot) (block : nat) (e : exn) :
  Pyzsync.first_component instructions block = Err e ->
  e = TypeError \/ e = IndexError.
Proof.
  unfold Pyzsync.first_component.
  destruct (instructions !! block) as [[| | | |[|x data]]|]; intros H;
    try discriminate; injection H as <-; auto.
Qed.

(** What one merge can do to the array. *)
Lemma merge_one (instructions : list Pyzsync.slot) (block : nat) (content : bytes)
  (blocksize : Z) (instructions' : list Pyzsync.slot) :
  (let offset := Z.of_nat block * blocksize in
   match Pyzsync.first_component instructions block with
   | Err e => Err e
   | Ok c =>
       if c =? offset then Ok (<[block := Pyzsync.SBytes content]> instructions)
       else Ok instructions
   end) = Ok instructions' ->
  (instructions' = instructions
   \/ instructions' = <[block := Pyzsync.SBytes content]> instructions)
  /\ forall off, instructions !! block <> Some (Pyzsync.SInt off).
Proof.
  cbv zeta. destruct (Pyzsync.first_component instructions block) as [c|e] eqn:Hc;
    [|discriminate].
  intros H. split.
  - destruct (c =? _); injection H as <-; auto.
  - intros off Hoff. unfold Pyzsync.first_component in Hc. rewrite Hoff in Hc.
    discriminate.
Qed.

(** X5.  A merge that succeeds keeps the length of the array, leaves every
    locally resolved slot as it is, and changes a slot only into the bytes
    of a block given for its index. *)
Theorem merge_changes_only_named_slots :
  forall (blocks : list (nat * bytes)) (blocksize : Z)
         (instructions merged : list Pyzsync.slot),
    Pyzsync.merge_instructions_blocks instructions blocks blocksize = Ok merged ->
    length merged = length instructions
    /\ (forall i off, instructions !! i = Some (Pyzsync.SInt off) ->
          merged !! i = Some (Pyzsync.SInt off))
    /\ (forall i slot, merged !! i = Some slot ->
          instructions !! i = Some slot
          \/ exists c, (i, c) ∈ blocks /\ slot = Pyzsync.SBytes c).
Proof.
  unfold Pyzsync.merge_instructions_blocks.
  induction blocks as [|[block content] blocks IH]; intros blocksize instructions merged H.
  - injection H as <-. split; [done|]. split; [done|]. intros i slot Hs. by left.
  - cbn [fold_result] in H.
    destruct (match Pyzsync.first_component instructions block with
              | Ok c => _ | Err e => _ end) as [ins1|e] eqn:Hone; [|discriminate].
    apply merge_one in Hone as [Hins1 Hfree].
    destruct (IH _ _ _ H) as (Hlen & Hkeep & Hfrom).
    assert (Hlen1 : length ins1 = length instructions)
      by (destruct Hins1 as [->| ->]; [done | apply length_insert]).
    split; [congruence|]. split.
    + intros i off Hoff. apply Hkeep.
      destruct Hins1 as [->| ->]; [done|].
      rewrite list_lookup_insert_ne; [done|]. intros <-. by apply (Hfree off).
    + intros i slot Hs. destruct (Hfrom i slot Hs) as [H1|(c & Hc & ->)].
      * destruct Hins1 as [->| ->]; [by left|].
        destruct (decide (block = i)) as [<-|Hne].
        -- assert (block < length instructions)%nat as Hlt
             by (rewrite <- (length_insert instructions block (Pyzsync.SBytes content));
                 eapply lookup_lt_Some, H1).
           rewrite list_lookup_insert_eq in H1 by done. injection H1 as <-.
           right. exists content. split; [left | done].
        -- rewrite list_lookup_insert_ne in H1 by done. by left.
      * right. exists c. split; [by right | done].
Qed.

Lemma merge_changes_only_named_slots_witness :
  length [Pyzsync.SInt 1; Pyzsync.SBytes [7; 8; 9]] = length [Pyzsync.SInt 1; Pyzsync.STriple 3 5 []].
Proof.
  apply (merge_changes_only_named_slots [(1%nat, [7; 8; 9])] 3
           [Pyzsync.SInt 1; Pyzsync.STriple 3 5 []]
           [Pyzsync.SInt 1; Pyzsync.SBytes [7; 8; 9]]).
  reflexivity.
Defined.

(** X6.  A block given for a slot that already holds a local offset is
    refused: the merge raises, [TypeError] at that block if not an exception
    earlier. *)
Theorem merge_refuses_resolved_slot :
  forall (blocks : list (nat * bytes)) (blocksize : Z) (instructions : list Pyzsync.slot)
         (i : nat) (c : bytes) (off : Z),
    (i, c) ∈ blocks ->
    instructions !! i = Some (Pyzsync.SInt off) ->
    Pyzsync.merge_instructions_blocks instructions blocks blocksize = Err TypeError
    \/ Pyzsync.merge_instructions_blocks instructions blocks blocksize = Err IndexError.
Proof.
  unfold Pyzsync.merge_instructions_blocks.
  induction blocks as [|[block content] blocks IH];
    intros blocksize instructions i c off Hin Hslot; [inversion Hin|].
  cbn [fold_result].
  destruct (match Pyzsync.first_component instructions block with
            | Ok c => _ | Err e => _ end) as [ins1|e] eqn:Hone.
  - apply merge_one in Hone as [Hins1 Hfree].
    apply elem_of_cons in Hin as [Heq|Hin].
    + injection Heq as -> ->. by destruct (Hfree off).
    + apply (IH blocksize ins1 i c off Hin).
      destruct Hins1 as [->| ->]; [done|].
      rewrite list_lookup_insert_ne; [done|]. intros <-. by apply (Hfree off).
  - destruct (Pyzsync.first_component instructions block) as [v|e'] eqn:Hc.
    + destruct (v =? _); discriminate.
    + injection Hone as <-. apply first_component_error in Hc as [->| ->]; auto.
Qed.

Lemma merge_refuses_resolved_slot_witness :
  Pyzsync.merge_instructions_blocks [Pyzsync.SInt 4; Pyzsync.STriple 3 5 []]
    [(1%nat, [7; 8; 9]); (0%nat, [1; 2; 3])] 3 = Err TypeError
  \/ Pyzsync.merge_instructions_blocks [Pyzsync.SInt 4; Pyzsync.STriple 3 5 []]
       [(1%nat, [7; 8; 9]); (0%nat, [1; 2; 3])] 3 = Err IndexError.
Proof.
  apply (merge_refuses_resolved_slot [(1%nat, [7; 8; 9]); (0%nat, [1; 2; 3])] 3
           [Pyzsync.SInt 4; Pyzsync.STriple 3 5 []] 0%nat [1; 2; 3] 4).
  - right. left.
  - reflexivity.
Defined.

(** ** Patching from a blueprint *)

(** X7.  On a merged blueprint (local offsets and bytes only) [patchstream]
    writes, slot by slot, the [blocksize] bytes of the source at the offset
    or the bytes of the slot; the position of the source beforehand does not
    matter. *)
Theorem patchstream_writes_slots :
  forall (instream : stream) (outstream : bytes) (delta : list Pyzsync.slot)
         (blocksize : Z),
    0 < blocksize ->
    Forall patchable delta ->
    exists instream',
      Pyzsync.patchstream instream outstream delta blocksize
      = Ok (instream',
            outstream
            ++ concat (map (slot_bytes (Z.to_nat blocksize) (content instream)) delta))
      /\ content instream' = content instream.
Proof.
  intros instream outstream delta blocksize HB Hdelta.
  apply (patchstream_slots blocksize delta HB Hdelta).
Qed.

Lemma patchstream_writes_slots_witness :
  exists instream',
    Pyzsync.patchstream (Stream [1; 2; 3; 4; 5] 2 false) [0]
      [Pyzsync.SInt 3; Pyzsync.SBytes [9]; Pyzsync.SInt 0] 2
    = Ok (instream',
          [0] ++ concat (map (slot_bytes (Z.to_nat 2)
                                (content (Stream [1; 2; 3; 4; 5] 2 false)))
                             [Pyzsync.SInt 3; Pyzsync.SBytes [9]; Pyzsync.SInt 0]))
    /\ content instream' = content (Stream [1; 2; 3; 4; 5] 2 false).
Proof.
  apply (patchstream_writes_slots (Stream [1; 2; 3; 4; 5] 2 false) [0]
           [Pyzsync.SInt 3; Pyzsync.SBytes [9]; Pyzsync.SInt 0] 2).
  - lia.
  - repeat constructor; cbn; lia.
Defined.



(** ** Applying a delta *)

(** X9.  For a positive block size [patchstream] of pyrsync2.py never
    raises: it writes every literal as it is and, for every block reference,
    the [blocksize] bytes of the source at [index * blocksize] (fewer at the
    end of the source, none beyond it), wherever the source stood before. *)
Theorem patchstream_writes_expansion :
  forall (instream : stream) (outstream : bytes) (delta : list Pyrsync2.element)
         (blocksize : Z),
    0 < blocksize ->
    exists instream',
      Pyrsync2.patchstream instream outstream delta blocksize
      = Ok (instream',
            outstream ++ expand (Z.to_nat blocksize) (content instream) delta).
Proof.
  intros instream outstream delta blocksize HB.
  destruct (patchstream_expand (Z.to_nat blocksize) ltac:(lia) (content instream) delta
              instream outstream eq_refl) as [ins' Hpatch].
  exists ins'. rewrite Z2Nat.id in Hpatch by lia. exact Hpatch.
Qed.

Lemma patchstream_writes_expansion_witness :
  exists instream',
    Pyrsync2.patchstream (Stream [1; 2; 3; 4; 5] 4 false) [0]
      [Pyrsync2.BlockRef 1; Pyrsync2.Literal [9]; Pyrsync2.BlockRef 2; Pyrsync2.BlockRef 7] 2
    = Ok (instream',
          [0] ++ expand (Z.to_nat 2) (content (Stream [1; 2; 3; 4; 5] 4 false))
                   [Pyrsync2.BlockRef 1; Pyrsync2.Literal [9]; Pyrsync2.BlockRef 2;
                    Pyrsync2.BlockRef 7]).
Proof.
  apply (patchstream_writes_expansion (Stream [1; 2; 3; 4; 5] 4 false) [0]
           [Pyrsync2.BlockRef 1; Pyrsync2.Literal [9]; Pyrsync2.BlockRef 2;
            Pyrsync2.BlockRef 7] 2).
  lia.
Defined.

(** X10.  With block size 0 the test [isinstance(element, int) and
    blocksize] of line 288 fails for every element: literals are written as
    they are and the source is not touched, and the first block reference
    raises [TypeError]. *)
Theorem patchstream_zero_blocksize :
  forall (instream : stream) (outstream : bytes) (delta : list Pyrsync2.element),
    (Forall (fun e => ~ is_block_ref e) delta ->
     Pyrsync2.patchstream instream outstream delta 0
     = Ok (instream, outstream ++ expand 0 [] delta))
    /\ (Exists is_block_ref delta ->
        Pyrsync2.patchstream instream outstream delta 0 = Err TypeError).
Proof.
  intros instream outstream delta. unfold Pyrsync2.patchstream. split.
  - intros Hlit. revert outstream.
    induction Hlit as [|e delta He _ IH]; intros outstream.
    + cbn. by rewrite app_nil_r.
    + destruct e as [data|j]; [|by destruct He].
      cbn [fold_result Pyrsync2.patch_element]. rewrite IH.
      unfold expand. cbn [map concat]. by rewrite app_assoc.
  - intros Hex. revert outstream.
    induction Hex as [e delta He|e delta _ IH]; intros outstream.
    + destruct e as [data|j]; [done|]. reflexivity.
    + destruct e as [data|j]; [|reflexivity].
      cbn [fold_result Pyrsync2.patch_element]. apply IH.
Qed.

Lemma patch_element_is_patchstream_block (instream : stream) (outstream : bytes)
  (e : Pyrsync2.element) (blocksize : Z) :
  Pyrsync2.patch_element blocksize (instream, outstream) e
  = Pyrsync2.patchstream_block instream outstream e blocksize.
Proof. destruct e; reflexivity. Qed.

(** X11.  A delta can be applied piece by piece: [patchstream] over a delta
    is [patchstream] over the elements before any one of them, then
    [patchstream_block] on that element, then [patchstream] over the rest,
    with the source and the sink handed on and the first exception ending
    the whole. *)
Theorem patchstream_by_blocks :
  forall (instream : stream) (outstream : bytes) (before : list Pyrsync2.element)
         (e : Pyrsync2.element) (rest : list Pyrsync2.element) (blocksize : Z),
    Pyrsync2.patchstream instream outstream (before ++ e :: rest) blocksize
    = match Pyrsync2.patchstream instream outstream before blocksize with
      | Ok (instream1, outstream1) =>
          match Pyrsync2.patchstream_block instream1 outstream1 e blocksize with
          | Ok (instream2, outstream2) =>
              Pyrsync2.patchstream instream2 outstream2 rest blocksize
          | Err x => Err x
          end
      | Err x => Err x
      end.
Proof.
  intros instream outstream before e rest blocksize.
  unfold Pyrsync2.patchstream. rewrite fold_result_app.
  destruct (fold_result _ _ before) as [[ins1 out1]|x]; [|reflexivity].
  cbn [fold_result]. rewrite patch_element_is_patchstream_block.
  destruct (Pyrsync2.patchstream_block ins1 out1 e blocksize) as [[ins2 out2]|x];
    reflexivity.
Qed.

(** ** The signature generator outside its domain *)


(** ** The composite weak checksum *)

Lemma unweighted_sum_bounds (data : bytes) :
  Forall is_byte data -> 0 <= unweighted_sum data <= 255 * len data.
Proof.
  induction 1 as [|x data Hx _ IH]; [unfold len; cbn; lia|].
  cbn [unweighted_sum]. rewrite len_cons. unfold is_byte in Hx. lia.
Qed.

Lemma weighted_sum_nonneg (data : bytes) : Forall is_byte data -> 0 <= weighted_sum data.
Proof.
  induction 1 as [|x data Hx _ IH]; [done|].
  cbn [weighted_sum]. pose proof (len_nonneg (x :: data)). unfold is_byte in Hx. nia.
Qed.

Lemma lor_shiftl_low (a b : Z) :
  0 <= a < 65536 -> 0 <= b -> Z.lor (Z.shiftl b 16) a = b * 65536 + a.
Proof.
  intros Ha Hb.
  assert (Hland : Z.land (Z.shiftl b 16) a = 0).
  { apply Z.bits_inj'. intros k Hk. rewrite Z.land_spec, Z.bits_0.
    destruct (decide (k < 16)) as [Hlt|Hge].
    - rewrite Z.shiftl_spec_low by lia. reflexivity.
    - rewrite (Z.bits_above_log2 a k); [apply andb_false_r | lia |].
      destruct (decide (a = 0)) as [->|Hne]; [cbn; lia|].
      assert (Z.log2 a < 16); [|lia].
      apply Z.log2_lt_pow2; lia. }
  rewrite <- Z.lxor_lor by exact Hland.
  rewrite <- Z.add_nocarry_lxor by exact Hland.
  rewrite Z.shiftl_mul_pow2 by lia. reflexivity.
Qed.

(** X13.  For a window of at most 257 bytes the composite [(b << 16) | a]
    keeps the two sums apart: [a] is below [2^16], so it is the low 16 bits
    of the checksum and [b] is the rest. (On longer windows [a] can reach
    into the bits of [b].) *)
Theorem weakchecksum_packs_both_sums :
  forall (data : bytes) (c a b : Z),
    Forall is_byte data ->
    (length data <= 257)%nat ->
    weakchecksum data = (c, a, b) ->
    0 <= a < 65536
    /\ 0 <= b
    /\ c = b * 65536 + a
    /\ Z.land c 65535 = a
    /\ Z.shiftr c 16 = b.
Proof.
  intros data c a b Hbytes Hlen Hsum.
  rewrite weakchecksum_sums in Hsum. injection Hsum as <- <- <-.
  pose proof (unweighted_sum_bounds data Hbytes) as Ha.
  pose proof (weighted_sum_nonneg data Hbytes) as Hb.
  assert (Ha' : 0 <= unweighted_sum data < 65536) by (unfold len in Ha; lia).
  unfold composite. rewrite lor_shiftl_low by done.
  split; [exact Ha'|]. split; [exact Hb|]. split; [reflexivity|]. split.
  - change 65535 with (Z.ones 16). rewrite Z.land_ones by lia.
    change (2 ^ 16) with 65536. rewrite Z.add_comm, Z.mod_add by lia.
    apply Z.mod_small. exact Ha'.
  - rewrite Z.shiftr_div_pow2 by lia. change (2 ^ 16) with 65536.
    rewrite Z.add_comm, Z.div_add by lia. rewrite Z.div_small by exact Ha'. lia.
Qed.

Lemma weakchecksum_packs_both_sums_witness :
  0 <= 10 < 65536 /\ 0 <= 29 /\ 1900554 = 29 * 65536 + 10
  /\ Z.land 1900554 65535 = 10 /\ Z.shiftr 1900554 16 = 29.
Proof.
  apply (weakchecksum_packs_both_sums [9; 1; 0] 1900554 10 29).
  - repeat constructor; unfold is_byte; lia.
  - cbn. lia.
  - reflexivity.
Defined.

(** ** The streaming encoder on any candidate *)

Section StreamingDelta.

Variable md5 : bytes -> bytes.

(** X14.  The round trip of the rsync exchange, for any two files. One side
    sends the signatures of its file (the baseline); the other runs
    [rsyncdelta] on its own file (the candidate); the first applies the
    delta to the baseline. When the strong hash tells windows of the
    candidate from different blocks of the baseline, [rsyncdelta] ends
    within [length candidate + 2] iterations, by returning or at the
    [AttributeError] of line 220; when it returns, [patchstream] writes the
    candidate. *)
Theorem rsyncdelta_rebuilds_candidate :
  forall (candidate baseline : bytes) (flag flag' : bool) (blocksize max_buffer : Z),
    0 < blocksize ->
    strong_hash_separates md5 (Z.to_nat blocksize) candidate baseline ->
    exists sigs delta ending,
      Pyrsync2.blockchecksums md5 (Stream baseline 0 flag) blocksize = Some sigs
      /\ Pyrsync2.rsyncdelta md5 (length candidate + 2) (Stream candidate 0 flag') sigs
           blocksize max_buffer
         = (delta, ending)
      /\ (ending = Pyrsync2.Returned \/ ending = Pyrsync2.Threw AttributeError)
      /\ (ending = Pyrsync2.Returned ->
          forall instream,
            content instream = baseline ->
            exists instream',
              Pyrsync2.patchstream instream [] delta blocksize = Ok (instream', candidate)).
Proof.
  intros candidate baseline flag flag' blocksize max_buffer HB Hsep.
  set (n := Z.to_nat blocksize) in *.
  assert (Hn : (0 < n)%nat) by (unfold n; lia).
  assert (HnB : Z.of_nat n = blocksize) by (unfold n; lia).
  exists (map (signature_of md5) (blocks_of n baseline)).
  unfold Pyrsync2.blockchecksums, Pyrsync2.rsyncdelta.
  rewrite checksums_from_blocks by (cbn; lia). cbn [cursor content]. rewrite drop_0.
  fold n.
  destruct (rsync_loop_completes md5 n Hn candidate baseline Hsep max_buffer
              (length candidate + 2) (Pyrsync2.scan_init (Stream candidate 0 flag')))
    as (s' & e & Hloop & Hres).
  { unfold rsync_measure, remaining. cbn. lia. }
  { unfold rsync_inv. cbn. rewrite drop_0. done. }
  rewrite HnB in Hloop. rewrite Hloop.
  destruct Hres as [[-> Hexpand]| ->].
  - eexists _, _. split; [reflexivity|]. split; [reflexivity|].
    split; [by left|].
    intros _ instream Hcontent.
    destruct (patchstream_expand n Hn baseline
                (Pyrsync2.yielded s' ++ Pyrsync2.flush (Pyrsync2.current_block s'))
                instream [] Hcontent) as [ins' Hpatch].
    exists ins'. rewrite HnB, Hexpand in Hpatch. exact Hpatch.
  - eexists _, _. split; [reflexivity|]. split; [reflexivity|].
    split; [by right | discriminate].
Qed.

End StreamingDelta.

Lemma rsyncdelta_rebuilds_candidate_witness :
  exists sigs delta ending,
    Pyrsync2.blockchecksums MD5.digest (Stream [1; 2; 3; 4; 5; 6; 7] 0 false) 3 = Some sigs
    /\ Pyrsync2.rsyncdelta MD5.digest (length [9; 4; 5; 6; 8; 1; 2; 3] + 2)
         (Stream [9; 4; 5; 6; 8; 1; 2; 3] 0 false) sigs 3 4
       = (delta, ending)
    /\ (ending = Pyrsync2.Returned \/ ending = Pyrsync2.Threw AttributeError)
    /\ (ending = Pyrsync2.Returned ->
        forall instream,
          content instream = [1; 2; 3; 4; 5; 6; 7] ->
          exists instream',
            Pyrsync2.patchstream instream [] delta 3
            = Ok (instream', [9; 4; 5; 6; 8; 1; 2; 3])).
Proof.
  apply (rsyncdelta_rebuilds_candidate MD5.digest [9; 4; 5; 6; 8; 1; 2; 3]
           [1; 2; 3; 4; 5; 6; 7] false false 3 4).
  - lia.
  - apply strong_hash_separates_b_sound. vm_compute. reflexivity.
Defined.

(** ** What the streaming encoder yields *)

Section DeltaElements.

Variable md5 : bytes -> bytes.
Variable num_blocks : nat.
Variable remotesignatures : gmap Z (nat * bytes).
Hypothesis in_range :
  forall w j strong, remotesignatures !! w = Some (j, strong) -> (j < num_blocks)%nat.

Variables blocksize max_buffer : Z.
Hypothesis blocksize_pos : 0 < blocksize.
Hypothesis max_buffer_pos : 1 <= max_buffer.

Lemma flush_within (cb : bytes) (bound : Z) :
  len cb <= bound -> Forall (element_within num_blocks bound) (Pyrsync2.flush cb).
Proof.
  intros Hcb. destruct cb as [|x cb]; [constructor|].
  constructor; [|constructor]. cbn [element_within].
  rewrite len_cons in *. pose proof (len_nonneg cb). lia.
Qed.

Lemma rsync_reseed_bounded (s : Pyrsync2.scan) :
  rsync_bounded num_blocks blocksize max_buffer s ->
  rsync_bounded num_blocks blocksize max_buffer (Pyrsync2.reseed blocksize s).
Proof.
  unfold Pyrsync2.reseed. destruct (Pyrsync2.matched s && Pyrsync2.live s); [|done].
  destruct (read blocksize (Pyrsync2.datastream s)) as [blk ds].
  destruct (weakchecksum blk) as [[c a] b]. done.
Qed.

Lemma rsync_shift_bounded (s : Pyrsync2.scan) :
  rsync_bounded num_blocks blocksize max_buffer s ->
  match Pyrsync2.shift blocksize max_buffer s with
  | Pyrsync2.Continue s' => rsync_bounded num_blocks blocksize max_buffer s'
  | Pyrsync2.Break s' =>
      Forall (element_within num_blocks max_buffer) (Pyrsync2.yielded s')
      /\ len (Pyrsync2.current_block s') <= blocksize - 1
  | Pyrsync2.Raise _ s' =>
      Forall (element_within num_blocks max_buffer) (Pyrsync2.yielded s')
  end.
Proof.
  destruct s as [ds lv m cb w wo c a b nb ts out].
  unfold rsync_bounded, Pyrsync2.shift, Pyrsync2.pull. rsync_simpl.
  intros (Hout & Hcb & Hts).
  assert (Hbreak : forall ts', 0 <= ts' < blocksize ->
            len w - Z.of_nat wo <= ts' ->
            Forall (element_within num_blocks max_buffer) (out ++ Pyrsync2.flush cb)
            /\ len (drop wo w) <= blocksize - 1).
  { intros ts' Hts' Hle. split.
    - apply Forall_app. split; [exact Hout | by apply flush_within].
    - unfold len in *. rewrite length_drop. lia. }
  assert (Hpush : forall oldbyte : Z,
            let '(cb0, out0) :=
              if max_buffer <=? len cb then ([], out ++ [Pyrsync2.Literal cb])
              else (cb, out) in
            Forall (element_within num_blocks max_buffer) out0
            /\ len (cb0 ++ [oldbyte]) <= max_buffer).
  { intros oldbyte. destruct (max_buffer <=? len cb) eqn:E.
    - apply Z.leb_le in E. split.
      + apply Forall_app. split; [exact Hout|]. constructor; [|constructor].
        cbn [element_within]. lia.
      + unfold len. cbn. lia.
    - apply Z.leb_gt in E. split; [exact Hout|].
      rewrite len_app. unfold len at 2. cbn. lia. }
  destruct lv.
  - destruct (read 1 ds) as [[|x got] ds1].
    + destruct (blocksize =? 0) eqn:E0; [exact Hout|]. rsync_simpl.
      assert (Htell : 0 <= tell ds1 mod blocksize < blocksize)
        by (apply Z.mod_pos_bound; lia).
      destruct (len w - Z.of_nat wo <=? tell ds1 mod blocksize) eqn:Ew.
      * apply Z.leb_le in Ew. rsync_simpl. by apply (Hbreak _ Htell).
      * destruct (_ !! wo) as [oldbyte|]; [|exact Hout].
        destruct (rollingchecksum _ _ _ _ _) as [[c1 a1] b1].
        specialize (Hpush oldbyte).
        destruct (if max_buffer <=? len cb then _ else _) as [cb0 out0].
        rsync_simpl. destruct Hpush as [? ?]. done.
    + rsync_simpl.
      destruct (_ !! wo) as [oldbyte|]; [|exact Hout].
      destruct (rollingchecksum _ _ _ _ _) as [[c1 a1] b1].
      specialize (Hpush oldbyte).
      destruct (if max_buffer <=? len cb then _ else _) as [cb0 out0].
      rsync_simpl. destruct Hpush as [? ?]. split; [done|]. split; [done|]. discriminate.
  - specialize (Hts eq_refl). rsync_simpl.
    destruct (len w - Z.of_nat wo <=? ts) eqn:Ew.
    + apply Z.leb_le in Ew. rsync_simpl. by apply (Hbreak _ Hts).
    + destruct (_ !! wo) as [oldbyte|]; [|exact Hout].
      destruct (rollingchecksum _ _ _ _ _) as [[c1 a1] b1].
      specialize (Hpush oldbyte).
      destruct (if max_buffer <=? len cb then _ else _) as [cb0 out0].
      rsync_simpl. destruct Hpush as [? ?]. done.
Qed.

Lemma rsync_step_bounded (s : Pyrsync2.scan) :
  rsync_bounded num_blocks blocksize max_buffer s ->
  match Pyrsync2.step md5 remotesignatures blocksize max_buffer s with
  | Pyrsync2.Continue s' => rsync_bounded num_blocks blocksize max_buffer s'
  | Pyrsync2.Break s' =>
      Forall (element_within num_blocks max_buffer) (Pyrsync2.yielded s')
      /\ len (Pyrsync2.current_block s') <= blocksize - 1
  | Pyrsync2.Raise _ s' =>
      Forall (element_within num_blocks max_buffer) (Pyrsync2.yielded s')
  end.
Proof.
  intros Hs%rsync_reseed_bounded. unfold Pyrsync2.step.
  set (s0 := Pyrsync2.reseed blocksize s) in *. clearbody s0.
  pose proof (rsync_shift_bounded s0 Hs) as Hshift.
  destruct (remotesignatures !! Pyrsync2.checksum s0) as [[j strong]|] eqn:Hget;
    [|exact Hshift].
  case_bool_decide; [|exact Hshift]. clear Hshift.
  apply in_range in Hget.
  destruct s0 as [ds lv m cb w wo c a b nb ts out].
  unfold rsync_bounded in *. revert Hs. rsync_simpl. intros (Hout & Hcb & Hts).
  assert (Hout' : Forall (element_within num_blocks max_buffer)
                         (out ++ Pyrsync2.flush cb ++ [Pyrsync2.BlockRef j])).
  { apply Forall_app. split; [exact Hout|]. apply Forall_app.
    split; [by apply flush_within|]. by repeat constructor. }
  destruct lv; [|exact Hout'].
  destruct (closed ds); rsync_simpl.
  - split; [exact Hout'|]. unfold len. cbn. lia.
  - split; [exact Hout'|]. split; [unfold len; cbn; lia | discriminate].
Qed.

Lemma rsync_loop_bounded :
  forall fuel s,
    rsync_bounded num_blocks blocksize max_buffer s ->
    let '(s', e) :=
      Pyrsync2.scan_loop md5 fuel remotesignatures blocksize max_buffer s in
    Forall (element_within num_blocks max_buffer) (Pyrsync2.yielded s')
    /\ (e = Pyrsync2.Returned -> len (Pyrsync2.current_block s') <= blocksize - 1).
Proof.
  induction fuel as [|fuel IH]; intros s Hs.
  - cbn. split; [apply Hs | discriminate].
  - cbn [Pyrsync2.scan_loop].
    pose proof (rsync_step_bounded s Hs) as Hstep.
    destruct (Pyrsync2.step md5 remotesignatures blocksize max_buffer s) as [s1|s1|e s1].
    + apply IH, Hstep.
    + destruct Hstep. done.
    + split; [exact Hstep | discriminate].
Qed.

End DeltaElements.

(** X15.  Whatever the signatures and wherever it stops, [rsyncdelta] with a
    positive block size and a positive [max_buffer] yields only references
    to blocks of the signature sequence and non-empty literals; a literal
    has at most [max_buffer] bytes, or, for the last one, which holds what
    was left of the window, fewer than [blocksize]. *)
Theorem rsyncdelta_yields_bounded_elements :
  forall (md5 : bytes -> bytes) (fuel : nat) (ds : stream) (sigs : list signature)
         (blocksize max_buffer : Z),
    0 < blocksize ->
    1 <= max_buffer ->
    Forall (element_within (length sigs) (Z.max max_buffer (blocksize - 1)))
           (fst (Pyrsync2.rsyncdelta md5 fuel ds sigs blocksize max_buffer)).
Proof.
  intros md5 fuel ds sigs blocksize max_buffer HB Hmb.
  unfold Pyrsync2.rsyncdelta.
  pose proof (rsync_loop_bounded md5 (length sigs) (Pyrsync2.signature_dict 0 sigs ∅)) as H.
  specialize (H ltac:(intros w j strong Hget;
                      apply (signature_dict_lookup 1 ltac:(lia)) in Hget as [[_ Hj]|Hj];
                      [apply lookup_lt_Some in Hj; rewrite Nat.sub_0_r in Hj; exact Hj
                      | by rewrite lookup_empty in Hj])).
  assert (Hinit : rsync_bounded (length sigs) blocksize max_buffer (Pyrsync2.scan_init ds)).
  { unfold rsync_bounded, Pyrsync2.scan_init. rsync_simpl. split; [constructor|].
    split; [unfold len; cbn; lia | discriminate]. }
  specialize (H blocksize max_buffer HB Hmb fuel (Pyrsync2.scan_init ds) Hinit).
  destruct (Pyrsync2.scan_loop md5 fuel _ blocksize max_buffer _) as [s' e].
  destruct H as [Hout Hcb].
  assert (Hweak : Forall (element_within (length sigs) (Z.max max_buffer (blocksize - 1)))
                         (Pyrsync2.yielded s')).
  { eapply Forall_impl; [exact Hout|]. intros [data|j]; cbn [element_within]; lia. }
  destruct e; cbn [fst]; try exact Hweak.
  apply Forall_app. split; [exact Hweak|].
  apply flush_within. specialize (Hcb eq_refl). lia.
Qed.

Lemma rsyncdelta_yields_bounded_elements_witness :
  Forall (element_within
            (length (map (signature_of MD5.digest) [[1; 2; 3]; [4; 5; 6]; [7]]))
            (Z.max 2 (3 - 1)))
         (fst (Pyrsync2.rsyncdelta MD5.digest 20 (open [9; 9; 9; 4; 5; 6; 8; 1; 2; 3])
                 (map (signature_of MD5.digest) [[1; 2; 3]; [4; 5; 6]; [7]]) 3 2)).
Proof.
  apply (rsyncdelta_yields_bounded_elements MD5.digest 20
           (open [9; 9; 9; 4; 5; 6; 8; 1; 2; 3])
           (map (signature_of MD5.digest) [[1; 2; 3]; [4; 5; 6]; [7]]) 3 2); lia.
Defined.

(** ** The streaming encoder without signatures *)

Section NoSignatures.

Variable md5 : bytes -> bytes.

Lemma rsync_shift_literals (blocksize max_buffer : Z) (s : Pyrsync2.scan) :
  Forall (fun e => ~ is_block_ref e) (Pyrsync2.yielded s) ->
  match Pyrsync2.shift blocksize max_buffer s with
  | Pyrsync2.Continue s' | Pyrsync2.Break s' =>
      Forall (fun e => ~ is_block_ref e) (Pyrsync2.yielded s')
  | Pyrsync2.Raise e _ => e <> AttributeError
  end.
Proof.
  destruct s as [ds lv m cb w wo c a b nb ts out].
  unfold Pyrsync2.shift, Pyrsync2.pull. rsync_simpl. intros Hout.
  assert (Hflush : Forall (fun e => ~ is_block_ref e) (out ++ Pyrsync2.flush cb)).
  { apply Forall_app. split; [exact Hout|]. destruct cb; repeat constructor. tauto. }
  assert (Hpush : forall cb0 out0,
            (if max_buffer <=? len cb then ([], out ++ [Pyrsync2.Literal cb])
             else (cb, out)) = (cb0, out0) ->
            Forall (fun e => ~ is_block_ref e) out0).
  { intros cb0 out0 H. destruct (max_buffer <=? len cb); injection H as <- <-;
      [|exact Hout].
    apply Forall_app. split; [exact Hout|]. repeat constructor. tauto. }
  destruct lv.
  - destruct (read 1 ds) as [[|x got] ds1].
    + destruct (blocksize =? 0); [done|]. rsync_simpl.
      destruct (len w - Z.of_nat wo <=? _); [exact Hflush|].
      destruct (_ !! wo) as [oldbyte|]; [|done].
      destruct (rollingchecksum _ _ _ _ _) as [[c1 a1] b1].
      destruct (if max_buffer <=? len cb then _ else _) as [cb0 out0].
      apply (Hpush _ _ eq_refl).
    + rsync_simpl.
      destruct (_ !! wo) as [oldbyte|]; [|done].
      destruct (rollingchecksum _ _ _ _ _) as [[c1 a1] b1].
      destruct (if max_buffer <=? len cb then _ else _) as [cb0 out0].
      apply (Hpush _ _ eq_refl).
  - rsync_simpl. destruct (len w - Z.of_nat wo <=? _); [exact Hflush|].
    destruct (_ !! wo) as [oldbyte|]; [|done].
    destruct (rollingchecksum _ _ _ _ _) as [[c1 a1] b1].
    destruct (if max_buffer <=? len cb then _ else _) as [cb0 out0].
    apply (Hpush _ _ eq_refl).
Qed.

Lemma rsync_loop_literals (blocksize max_buffer : Z) :
  forall fuel s,
    Forall (fun e => ~ is_block_ref e) (Pyrsync2.yielded s) ->
    let '(s', e) := Pyrsync2.scan_loop md5 fuel ∅ blocksize max_buffer s in
    e <> Pyrsync2.Threw AttributeError
    /\ (e = Pyrsync2.Returned ->
        Forall (fun e => ~ is_block_ref e) (Pyrsync2.yielded s')).
Proof.
  induction fuel as [|fuel IH]; intros s Hs; [done|].
  cbn [Pyrsync2.scan_loop]. unfold Pyrsync2.step. rewrite lookup_empty.
  assert (Hs0 : Forall (fun e => ~ is_block_ref e)
                       (Pyrsync2.yielded (Pyrsync2.reseed blocksize s))).
  { unfold Pyrsync2.reseed. destruct (_ && _); [|exact Hs].
    destruct (read _ _) as [blk ds]. destruct (weakchecksum blk) as [[c a] b]. exact Hs. }
  pose proof (rsync_shift_literals blocksize max_buffer _ Hs0) as Hshift.
  destruct (Pyrsync2.shift blocksize max_buffer _) as [s1|s1|e s1].
  - apply IH, Hshift.
  - done.
  - split; [congruence | discriminate].
Qed.

(** X16.  Without signatures (an empty baseline) [rsyncdelta] returns, and
    the delta is the candidate cut into literals. *)
Theorem rsyncdelta_without_signatures :
  forall (candidate : bytes) (flag : bool) (blocksize max_buffer : Z),
    0 < blocksize ->
    exists delta,
      Pyrsync2.rsyncdelta md5 (length candidate + 2) (Stream candidate 0 flag) []
        blocksize max_buffer
      = (delta, Pyrsync2.Returned)
      /\ Forall (fun e => ~ is_block_ref e) delta
      /\ expand (Z.to_nat blocksize) [] delta = candidate.
Proof.
  intros candidate flag blocksize max_buffer HB.
  set (n := Z.to_nat blocksize) in *.
  assert (Hn : (0 < n)%nat) by (unfold n; lia).
  assert (HnB : Z.of_nat n = blocksize) by (unfold n; lia).
  assert (Hsep : strong_hash_separates md5 n candidate []).
  { intros i l j _ Hj. rewrite block_count_nil in Hj by done. lia. }
  destruct (rsync_loop_completes md5 n Hn candidate [] Hsep max_buffer
              (length candidate + 2) (Pyrsync2.scan_init (Stream candidate 0 flag)))
    as (s' & e & Hloop & Hres).
  { unfold rsync_measure, remaining. cbn. lia. }
  { unfold rsync_inv. cbn. rewrite drop_0. done. }
  rewrite blocks_of_nil in Hloop by done. cbn [map Pyrsync2.signature_dict] in Hloop.
  rewrite HnB in Hloop.
  pose proof (rsync_loop_literals blocksize max_buffer (length candidate + 2)
                (Pyrsync2.scan_init (Stream candidate 0 flag))
                ltac:(constructor)) as Hlit.
  unfold Pyrsync2.rsyncdelta. cbn [Pyrsync2.signature_dict].
  rewrite Hloop in Hlit |- *. destruct Hlit as [Hne Hlit].
  destruct Hres as [[-> Hexpand]| ->]; [|done].
  eexists. split; [reflexivity|]. split; [|exact Hexpand].
  apply Forall_app. split; [by apply Hlit|].
  destruct (Pyrsync2.current_block s'); repeat constructor. tauto.
Qed.

End NoSignatures.

Lemma rsyncdelta_without_signatures_witness :
  exists delta,
    Pyrsync2.rsyncdelta MD5.digest (length [1; 2; 3; 4; 5] + 2)
      (Stream [1; 2; 3; 4; 5] 0 false) [] 2 3
    = (delta, Pyrsync2.Returned)
    /\ Forall (fun e => ~ is_block_ref e) delta
    /\ expand (Z.to_nat 2) [] delta = [1; 2; 3; 4; 5].
Proof.
  apply (rsyncdelta_without_signatures MD5.digest [1; 2; 3; 4; 5] false 2 3). lia.
Defined.

(** ** A candidate with nothing to read *)

Lemma filter_all {A : Type} (P : A -> Prop) `{!forall x, Decision (P x)} (l : list A) :
  Forall P l -> filter P l = l.
Proof.
  induction 1 as [|x l Hx _ IH]; [reflexivity|].
  rewrite filter_cons_True by done. by rewrite IH.
Qed.

Lemma filter_none {A : Type} (P : A -> Prop) `{!forall x, Decision (P x)} (l : list A) :
  Forall (fun x => ~ P x) l -> filter P l = [].
Proof.
  induction 1 as [|x l Hx _ IH]; [reflexivity|].
  rewrite filter_cons_False by done. exact IH.
Qed.

Lemma read_exhausted (n : Z) (ds : stream) :
  0 < n -> remaining ds = 0%nat ->
  read n ds = ([], Stream (content ds) (cursor ds + 0) (auto_close ds)).
Proof.
  intros Hn Hrem. rewrite read_block by done. unfold remaining in Hrem.
  rewrite drop_ge by lia. rewrite take_nil. reflexivity.
Qed.

Lemma tbl_get_initial_absent (sigs : list signature) (w : Z) :
  w ∉ map fst sigs -> Pyzsync.tbl_get w (Pyzsync.index_signatures 0 sigs []) = None.
Proof.
  intros Hw.
  apply (tbl_get_absent (group (map fst sigs)) w (first_occurrences (map fst sigs)) _
           (shape_index_signatures sigs)).
  by rewrite elem_of_first_occurrences.
Qed.

Section ExhaustedCandidate.

Variable md5 : bytes -> bytes.

(** The scan of a stream with nothing left to read: one iteration, and
    the table is as built. *)
Lemma scan_loop_exhausted (fuel : nat) (ds : stream) (t : Pyzsync.table)
  (blocksize : Z) :
  0 < blocksize ->
  remaining ds = 0%nat ->
  Pyzsync.tbl_get 0 t = None ->
  exists s',
    Pyzsync.scan_loop md5 (S fuel) blocksize (Pyzsync.scan_init ds t blocksize) = Done s'
    /\ Pyzsync.remote_hashes s' = t.
Proof.
  intros HB Hrem Hget. cbn [Pyzsync.scan_loop].
  unfold Pyzsync.step, Pyzsync.scan_init, Pyzsync.reseed. zsync_simpl.
  rewrite (read_exhausted blocksize ds HB Hrem).
  change (weakchecksum []) with (0, 0, 0). zsync_simpl. rewrite Hget.
  unfold Pyzsync.shift, Pyzsync.pull. zsync_simpl.
  assert (Hrem' : remaining (Stream (content ds) (cursor ds + 0) (auto_close ds)) = 0%nat)
    by (unfold remaining in *; cbn [content cursor]; lia).
  rewrite (read_exhausted 1 _ ltac:(lia) Hrem'). cbn [content cursor auto_close].
  destruct (blocksize =? 0) eqn:E0; [lia|]. zsync_simpl.
  assert (Htell : 0 <= tell (Stream (content ds) (cursor ds + 0 + 0) (auto_close ds))
                       mod blocksize) by (apply Z.mod_pos_bound; lia).
  destruct (len [] <=? _) eqn:E; [eauto|].
  apply Z.leb_gt in E. unfold len in E. cbn [length] in E. lia.
Qed.

(** X17.  A candidate stream with nothing left to read (an empty local
    file), scanned against signatures none of which has the weak checksum 0
    of the empty window: the scan returns at its first iteration, every
    block is requested, in the order of the table, and the array holds
    [(block * blocksize, weak, strong)] for every block. *)
Theorem exhausted_candidate_requests_every_block :
  forall (fuel : nat) (ds : stream) (sigs : list signature) (blocksize : Z),
    0 < blocksize ->
    remaining ds = 0%nat ->
    0 ∉ map fst sigs ->
    exists instructions,
      Pyzsync.zsync_delta md5 (S fuel) ds sigs blocksize
      = Done (instructions, table_order (map fst sigs))
      /\ length instructions = length sigs
      /\ forall i w strong,
           sigs !! i = Some (w, strong) ->
           instructions !! i
           = Some (Pyzsync.STriple (Z.of_nat i * blocksize) w strong).
Proof.
  intros fuel ds sigs blocksize HB Hrem Hzero.
  unfold Pyzsync.zsync_delta.
  destruct (scan_loop_exhausted fuel ds (Pyzsync.index_signatures 0 sigs []) blocksize
              HB Hrem (tbl_get_initial_absent sigs 0 Hzero)) as (s' & -> & ->).
  pose proof (block_order_initial sigs) as Hperm.
  destruct (get_instructions_with (triple_of blocksize) _ _ Hperm)
    as (ins & Hget & Hlen & Hslot).
  unfold Pyzsync.get_instructions. rewrite place_is_place_with, Hget.
  assert (Hpairs : Forall (fun we : Z * Pyzsync.entry => is_pair (snd we) = true)
                          (entries (Pyzsync.index_signatures 0 sigs []))).
  { apply Forall_forall. intros [w e] [H|(i & s & _ & ->)]%entries_index_signatures;
      [inversion H | reflexivity]. }
  rewrite (filter_all _ _ Hpairs). fold (block_order (Pyzsync.index_signatures 0 sigs [])).
  rewrite block_order_index_signatures_exact.
  exists ins. split; [reflexivity|]. split; [exact Hlen|].
  intros i w strong Hi.
  destruct (entry_of_block _ _ i Hperm (lookup_lt_Some _ _ _ Hi)) as (w' & e & Hwe & Hb).
  pose proof (Hslot w' e Hwe) as Hs. rewrite Hb in Hs.
  apply entries_index_signatures in Hwe as [H|(i' & s & Hi' & ->)]; [inversion H|].
  cbn [Pyzsync.entry_block Nat.add] in Hb. subst i'.
  rewrite Hi in Hi'. injection Hi' as <- <-. exact Hs.
Qed.

End ExhaustedCandidate.

Lemma exhausted_candidate_requests_every_block_witness :
  exists instructions,
    Pyzsync.zsync_delta MD5.digest 1 (open [])
      (map (signature_of MD5.digest) [[1; 0; 1]; [5; 5; 5]; [0; 2; 0]]) 3
    = Done (instructions,
            table_order
              (map fst (map (signature_of MD5.digest) [[1; 0; 1]; [5; 5; 5]; [0; 2; 0]])))
    /\ length instructions
       = length (map (signature_of MD5.digest) [[1; 0; 1]; [5; 5; 5]; [0; 2; 0]])
    /\ forall i w strong,
         map (signature_of MD5.digest) [[1; 0; 1]; [5; 5; 5]; [0; 2; 0]] !! i
         = Some (w, strong) ->
         instructions !! i = Some (Pyzsync.STriple (Z.of_nat i * 3) w strong).
Proof.
  apply (exhausted_candidate_requests_every_block MD5.digest 0 (open [])
           (map (signature_of MD5.digest) [[1; 0; 1]; [5; 5; 5]; [0; 2; 0]]) 3).
  - lia.
  - reflexivity.
  - set (weaks := map fst _). vm_compute in weaks. subst weaks.
    rewrite !elem_of_cons, elem_of_nil. lia.
Defined.

(** ** A candidate that is the remote file *)

Lemma tbl_get_of_shape (g : Z -> list nat) (w : Z) (keys : list Z) :
  forall t,
    shape t = map (fun k => (k, g k)) keys ->
    w ∈ keys ->
    exists bucket,
      Pyzsync.tbl_get w t = Some bucket /\ map Pyzsync.entry_block bucket = g w.
Proof.
  induction keys as [|k keys IH]; intros t Hshape Hw; [inversion Hw|].
  destruct t as [|[k0 b0] t]; [discriminate|].
  rewrite shape_cons in Hshape. cbn [map] in Hshape.
  injection Hshape as -> Hb0 Hrest.
  cbn [Pyzsync.tbl_get]. destruct (k =? w) eqn:E.
  - apply Z.eqb_eq in E as ->. exists b0. done.
  - apply Z.eqb_neq in E. apply elem_of_cons in Hw as [->|Hw]; [done|].
    apply IH; assumption.
Qed.

Lemma group_singleton (weaks : list Z) (k : nat) (w : Z) :
  NoDup weaks -> weaks !! k = Some w -> group weaks w = [k].
Proof.
  intros Hnd Hk. unfold group.
  assert (Hlt : (k < length weaks)%nat) by (eapply lookup_lt_Some, Hk).
  rewrite (filter_ext_elem_of _ (fun i => i = k)).
  - replace (length weaks) with (k + S (length weaks - S k))%nat by lia.
    rewrite seq_app, filter_app. cbn [seq Nat.add].
    rewrite filter_cons_True by done.
    rewrite !filter_absent; [reflexivity| |]; rewrite elem_of_seq; lia.
  - intros i _. split; [|by intros ->].
    intros Hi. eapply NoDup_lookup; eassumption.
Qed.

Lemma entries_tbl_set_new (k : Z) (bucket bucket' : list Pyzsync.entry)
  (t : Pyzsync.table) (e : Pyzsync.entry) :
  Pyzsync.tbl_get k t = Some bucket -> e ∈ bucket' ->
  (k, e) ∈ entries (Pyzsync.tbl_set k bucket' t).
Proof.
  intros Hget He. apply (entries_tbl_get k _ bucket'); [|exact He].
  clear He. induction t as [|[k0 b0] t IH]; [discriminate|].
  cbn [Pyzsync.tbl_get Pyzsync.tbl_set] in *. destruct (k0 =? k) eqn:E.
  - cbn [Pyzsync.tbl_get]. by rewrite E.
  - cbn [Pyzsync.tbl_get]. rewrite E. by apply IH.
Qed.

Lemma block_order_of_shape (sigs : list signature) (t : Pyzsync.table) :
  shape t = shape (Pyzsync.index_signatures 0 sigs []) ->
  block_order t ≡ₚ seq 0 (length sigs).
Proof.
  intros Hshape. rewrite block_order_shape, Hshape, <- block_order_shape.
  apply block_order_initial.
Qed.

(** The blueprint of a table in which every block is matched at its own
    offset. *)
Lemma get_instructions_all_matched (sigs : list signature) (blocksize : Z)
  (t : Pyzsync.table) :
  blueprint_progress sigs (length sigs) blocksize t ->
  Pyzsync.get_instructions t blocksize (length sigs)
  = Ok (map (fun i => Pyzsync.SInt (Z.of_nat i * blocksize)) (seq 0 (length sigs)), []).
Proof.
  intros (Hshape & _ & Hprog).
  pose proof (block_order_of_shape sigs t Hshape) as Hperm.
  destruct (get_instructions_with (triple_of blocksize) _ _ Hperm)
    as (ins & Hget & Hlen & Hslot).
  unfold Pyzsync.get_instructions. rewrite place_is_place_with, Hget.
  assert (Hblock : forall w e, (w, e) ∈ entries t ->
            exists strong,
              e = Pyzsync.Triple (Pyzsync.entry_block e) strong
                    (Z.of_nat (Pyzsync.entry_block e) * blocksize)).
  { intros w e Hwe. pose proof (Hprog w e Hwe) as He.
    assert (Pyzsync.entry_block e ∈ block_order t) as Hb
      by (apply (list_elem_of_fmap_2 (fun we => Pyzsync.entry_block (snd we)) _ _ Hwe)).
    rewrite Hperm in Hb. apply elem_of_seq in Hb.
    destruct e as [b s | b s off]; cbn [Pyzsync.entry_block] in *; [lia|].
    destruct He as [_ ->]. eauto. }
  rewrite filter_none.
  2:{ apply Forall_forall. intros [w e] Hwe. destruct (Hblock w e Hwe) as [s ->]. done. }
  cbn [map]. do 2 f_equal. apply list_eq. intros i.
  change (map ?f ?l) with (f <$> l). rewrite list_lookup_fmap.
  destruct (decide (i < length sigs)%nat) as [Hi|Hi].
  - rewrite lookup_seq_lt by done. cbn.
    destruct (entry_of_block _ _ i Hperm Hi) as (w & e & Hwe & Hb).
    pose proof (Hslot w e Hwe) as Hs. destruct (Hblock w e Hwe) as [s Heq].
    rewrite Hb in *. rewrite Heq in Hs. exact Hs.
  - rewrite lookup_seq_ge by lia. apply lookup_ge_None. lia.
Qed.

Section IdenticalFile.

Variable md5 : bytes -> bytes.
Variable n : nat.
Hypothesis n_pos : (0 < n)%nat.
Variable data : bytes.

Let sigs : list signature := map (signature_of md5) (blocks_of n data).

Hypothesis weaks_differ : NoDup (map fst sigs).
Hypothesis weaks_nonzero : 0 ∉ map fst sigs.

Lemma length_sigs : length sigs = block_count n data.
Proof. unfold sigs. rewrite length_map. apply length_blocks_of. Qed.

Lemma lookup_sigs (k : nat) :
  (k < block_count n data)%nat ->
  sigs !! k = Some (signature_of md5 (block_at n data k)).
Proof.
  intros Hk. unfold sigs. change (map ?f ?l) with (f <$> l).
  by rewrite list_lookup_fmap, lookup_blocks_of.
Qed.

(** One iteration between two blocks: the block read matches its own
    signature, or the stream is at its end and the loop is left. *)
Lemma zsync_aligned_step (k : nat) (s : Pyzsync.scan) :
  (k <= block_count n data)%nat ->
  zsync_aligned n data sigs k s ->
  match Pyzsync.step md5 (Z.of_nat n) s with
  | Pyzsync.Continue s' =>
      (k < block_count n data)%nat /\ zsync_aligned n data sigs (S k) s'
  | Pyzsync.Break s' =>
      blueprint_progress sigs (block_count n data) (Z.of_nat n) (Pyzsync.remote_hashes s')
  | Pyzsync.Raise _ => False
  end.
Proof.
  intros Hk. destruct s as [ds lv t m off w c a b nb ts].
  unfold zsync_aligned. zsync_simpl.
  intros (Hcontent & -> & -> & Hcur & -> & Hshape & Htable & Hprog).
  unfold Pyzsync.step, Pyzsync.reseed. zsync_simpl.
  pose proof (read_facts (Z.of_nat n) ds ltac:(lia)) as Hread.
  destruct (read (Z.of_nat n) ds) as [blk ds1].
  destruct Hread as (Hblk & Hc1 & Hac & Hcur1 & Hlen & Hrem).
  rewrite Nat2Z.id, Hcontent in *.
  destruct (weakchecksum blk) as [[c1 a1] b1] eqn:Hweak. zsync_simpl.
  rewrite shape_index_signatures in Hshape.
  destruct (decide (k < block_count n data)%nat) as [Hin|Hend].
  - (* block [k] *)
    pose proof (proj1 (block_count_bounds n n_pos data k) Hin) as Hinside.
    rewrite Nat.min_l in Hcur by lia. rewrite Hcur in Hblk.
    fold (block_at n data k) in Hblk.
    pose proof (lookup_sigs k Hin) as Hsig. rewrite <- Hblk in Hsig.
    unfold signature_of in Hsig. rewrite Hweak in Hsig. cbn [fst] in Hsig.
    assert (Hweaks : map fst sigs !! k = Some c1).
    { change ((fst <$> sigs) !! k = Some c1). rewrite list_lookup_fmap.
      exact (f_equal (fmap fst) Hsig). }
    destruct (tbl_get_of_shape _ c1 _ t Hshape) as (bucket & Hget & Hblocks).
    { apply elem_of_first_occurrences. eapply list_elem_of_lookup_2, Hweaks. }
    rewrite (group_singleton _ k c1 weaks_differ Hweaks) in Hblocks.
    destruct bucket as [|e [|e' bucket]]; try discriminate.
    cbn [map] in Hblocks. injection Hblocks as Hblock.
    assert (Hwe : (c1, e) ∈ entries t) by (eapply entries_tbl_get; [exact Hget | left]).
    pose proof (Hprog _ _ Hwe) as He. pose proof (Htable _ _ Hwe) as Hes.
    destruct e as [b0 s0 | b0 s0 off0]; cbn [Pyzsync.entry_block entry_strong] in *;
      [|lia].
    subst b0.
    assert (Heq : Some (c1, md5 blk) = Some (c1, s0)) by (etrans; [symmetry; exact Hsig | exact Hes]).
    injection Heq as <-.
    rewrite Hget. cbn [Pyzsync.confirm]. rewrite bool_decide_eq_true_2 by done.
    zsync_simpl.
    set (off' := Z.of_nat k * Z.of_nat n - Z.of_nat n + Z.of_nat n) in *.
    set (t' := Pyzsync.tbl_set c1 [Pyzsync.Triple k (md5 blk) off'] t).
    assert (Hshape' : shape t' = shape (Pyzsync.index_signatures 0 sigs [])).
    { rewrite shape_index_signatures, <- Hshape.
      apply (tbl_set_shape c1 [Pyzsync.Pair k (md5 blk)]); [exact Hget | reflexivity]. }
    assert (Hnew : (c1, Pyzsync.Triple k (md5 blk) off') ∈ entries t')
      by (eapply entries_tbl_set_new; [exact Hget | left]).
    assert (Hprogress : blueprint_progress sigs (S k) (Z.of_nat n) t').
    { split; [exact Hshape'|]. split.
      - intros w' e' [H|[-> H]]%entries_tbl_set; [by apply Htable|].
        apply list_elem_of_singleton in H as ->. exact Hsig.
      - intros w' e' Hin'. pose proof Hin' as [H|[-> H]]%entries_tbl_set.
        + pose proof (Hprog _ _ H) as He'.
          destruct e' as [b' s' | b' s' off'']; [|lia].
          destruct (decide (b' = k)) as [->|Hne]; [|lia].
          exfalso.
          assert ((w', Pyzsync.Pair k s') = (c1, Pyzsync.Triple k (md5 blk) off')) as Heq;
            [|discriminate].
          apply (NoDup_map_inj (fun we => Pyzsync.entry_block (snd we)) (entries t'));
            [|done..].
          fold (block_order t'). rewrite (block_order_of_shape sigs t' Hshape').
          apply NoDup_seq.
        + apply list_elem_of_singleton in H as ->. split; [lia|]. unfold off'. lia. }
    assert (Hcur' : cursor ds1 = Nat.min (S k * n) (length data)).
    { rewrite Hcur1, Hcur, Hlen. unfold remaining. rewrite Hcontent, Hcur.
      cbn [Nat.mul]. lia. }
    destruct (closed ds1) eqn:Hclosed.
    + (* the stream reports itself closed: this was the last block *)
      zsync_simpl. fold t'.
      assert (S k = block_count n data) as <-; [|exact Hprogress].
      unfold closed in Hclosed. apply andb_prop in Hclosed as [_ Hclosed].
      apply bool_decide_eq_true_1 in Hclosed. rewrite Hc1, Hcur' in Hclosed.
      destruct (decide (S k < block_count n data)%nat) as [Hmore|]; [|lia].
      apply (block_count_bounds n n_pos) in Hmore. lia.
    + zsync_simpl. fold t'. split; [exact Hin|].
      unfold zsync_aligned. zsync_simpl.
      split; [congruence|]. split; [done|]. split; [done|]. split; [exact Hcur'|].
      split; [|exact Hprogress]. unfold off'. lia.
  - (* the end of the stream *)
    assert (k = block_count n data) as -> by lia.
    assert (Hout : (length data <= block_count n data * n)%nat).
    { destruct (decide (block_count n data * n < length data)%nat) as [Hlt|]; [|lia].
      apply (block_count_bounds n n_pos) in Hlt. lia. }
    rewrite Nat.min_r in Hcur by lia.
    assert (Hrem0 : remaining ds = 0%nat) by (unfold remaining; rewrite Hcontent; lia).
    assert (Hnil : blk = []).
    { destruct blk; [done|]. cbn [length] in Hlen. lia. }
    clear Hblk. subst blk. change (weakchecksum []) with (0, 0, 0) in Hweak.
    injection Hweak as <- <- <-.
    rewrite (tbl_get_absent _ 0 _ t Hshape)
      by (by rewrite elem_of_first_occurrences).
    unfold Pyzsync.shift, Pyzsync.pull. zsync_simpl.
    assert (Hrem1 : remaining ds1 = 0%nat) by lia.
    rewrite (read_exhausted 1 ds1 ltac:(lia) Hrem1).
    destruct (Z.of_nat n =? 0) eqn:E0; [lia|]. zsync_simpl.
    assert (Htell : 0 <= tell (Stream (content ds1) (cursor ds1 + 0) (auto_close ds1))
                         mod Z.of_nat n) by (apply Z.mod_pos_bound; lia).
    destruct (len [] <=? _) eqn:E.
    + zsync_simpl. split; [by rewrite shape_index_signatures|]. done.
    + apply Z.leb_gt in E. unfold len in E. cbn [length] in E. lia.
Qed.

Lemma zsync_aligned_loop :
  forall fuel k s,
    (k <= block_count n data)%nat ->
    (block_count n data - k < fuel)%nat ->
    zsync_aligned n data sigs k s ->
    exists s',
      Pyzsync.scan_loop md5 fuel (Z.of_nat n) s = Done s'
      /\ blueprint_progress sigs (block_count n data) (Z.of_nat n)
           (Pyzsync.remote_hashes s').
Proof.
  induction fuel as [|fuel IH]; intros k s Hk Hfuel Haligned; [lia|].
  cbn [Pyzsync.scan_loop].
  pose proof (zsync_aligned_step k s Hk Haligned) as Hstep.
  destruct (Pyzsync.step md5 (Z.of_nat n) s) as [s1|s1|e]; [|eauto|done].
  destruct Hstep as [Hlt Hnext]. apply (IH (S k)); [lia | lia | exact Hnext].
Qed.

End IdenticalFile.

(** X18.  A local file that is the remote file already, block for block:
    when the blocks have weak checksums that differ from one another and
    from 0 (the checksum of the empty window read at the end of the file),
    the scan returns after one iteration per block and one more, every block
    is found at its own offset, and nothing is requested. *)
Theorem identical_file_requests_nothing :
  forall (md5 : bytes -> bytes) (data : bytes) (flag : bool) (blocksize : Z)
         (fuel : nat),
    0 < blocksize ->
    NoDup (map fst (map (signature_of md5) (blocks_of (Z.to_nat blocksize) data))) ->
    0 ∉ map fst (map (signature_of md5) (blocks_of (Z.to_nat blocksize) data)) ->
    (block_count (Z.to_nat blocksize) data < fuel)%nat ->
    Pyzsync.zsync_delta md5 fuel (Stream data 0 flag)
      (map (signature_of md5) (blocks_of (Z.to_nat blocksize) data)) blocksize
    = Done (map (fun i => Pyzsync.SInt (Z.of_nat i * blocksize))
                (seq 0 (block_count (Z.to_nat blocksize) data)),
            []).
Proof.
  intros md5 data flag blocksize fuel HB Hnd Hzero Hfuel.
  set (n := Z.to_nat blocksize) in *.
  assert (Hn : (0 < n)%nat) by (unfold n; lia).
  assert (HnB : blocksize = Z.of_nat n) by (unfold n; lia).
  set (sigs := map (signature_of md5) (blocks_of n data)) in *.
  assert (Hlen : length sigs = block_count n data) by (apply length_sigs).
  unfold Pyzsync.zsync_delta. rewrite HnB.
  destruct (zsync_aligned_loop md5 n Hn data Hnd Hzero fuel 0
              (Pyzsync.scan_init (Stream data 0 flag)
                 (Pyzsync.index_signatures 0 sigs []) (Z.of_nat n)))
    as (s' & -> & Hfinal); [lia | lia | |].
  - unfold zsync_aligned, Pyzsync.scan_init. zsync_simpl. cbn [content cursor].
    do 3 (split; [done|]). split; [lia|]. split; [lia|].
    split; [reflexivity|]. split; [apply table_of_initial|].
    intros w e [H|(i & s & _ & ->)]%entries_index_signatures; [inversion H | lia].
  - fold sigs in Hfinal. rewrite <- Hlen in *.
    rewrite (get_instructions_all_matched sigs (Z.of_nat n) _ Hfinal). reflexivity.
Qed.

Lemma identical_file_requests_nothing_witness :
  Pyzsync.zsync_delta MD5.digest 4 (Stream [1; 2; 3; 4; 5; 6; 7] 0 false)
    (map (signature_of MD5.digest) (blocks_of (Z.to_nat 3) [1; 2; 3; 4; 5; 6; 7])) 3
  = Done (map (fun i => Pyzsync.SInt (Z.of_nat i * 3))
              (seq 0 (block_count (Z.to_nat 3) [1; 2; 3; 4; 5; 6; 7])),
          []).
Proof.
  apply (identical_file_requests_nothing MD5.digest [1; 2; 3; 4; 5; 6; 7] false 3 4).
  - lia.
  - set (weaks := map fst _). vm_compute in weaks. subst weaks.
    repeat (apply NoDup_cons_2 || apply NoDup_nil_2);
      rewrite ?elem_of_cons, ?elem_of_nil; lia.
  - set (weaks := map fst _). vm_compute in weaks. subst weaks.
    rewrite !elem_of_cons, elem_of_nil. lia.
  - vm_compute. lia.
Defined.

(** ** The signature generator from any position *)

(** X19.  Both signature generators start at the position of the stream:
    they yield the signatures of the blocks of what is left to read, and
    nothing for the bytes before. *)
Theorem block_checksums_start_at_stream_position :
  forall (md5 : bytes -> bytes) (instream : stream) (blocksize : Z),
    0 < blocksize ->
    let rest := drop (cursor instream) (content instream) in
    Pyzsync.block_checksums md5 instream blocksize
    = Some (map (signature_of md5) (blocks_of (Z.to_nat blocksize) rest))
    /\ Pyrsync2.blockchecksums md5 instream blocksize
       = Some (map (signature_of md5) (blocks_of (Z.to_nat blocksize) rest)).
Proof.
  intros md5 instream blocksize HB rest.
  split; apply checksums_from_blocks; first [exact HB | lia].
Qed.

Lemma block_checksums_start_at_stream_position_witness :
  Pyzsync.block_checksums MD5.digest (Stream [1; 2; 3; 4; 5; 6; 7] 2 false) 3
  = Some (map (signature_of MD5.digest) [[3; 4; 5]; [6; 7]])
  /\ Pyrsync2.blockchecksums MD5.digest (Stream [1; 2; 3; 4; 5; 6; 7] 2 false) 3
     = Some (map (signature_of MD5.digest) [[3; 4; 5]; [6; 7]]).
Proof.
  apply (block_checksums_start_at_stream_position MD5.digest
           (Stream [1; 2; 3; 4; 5; 6; 7] 2 false) 3).
  lia.
Defined.

(** ** The two [patchstream]s *)

(** X20.  [patchstream] of pyzsync.py seeks to the integer it is given,
    [patchstream] of pyrsync2.py to the integer times the block size: the
    first, run on a delta with every block reference turned into the byte
    offset of the block, does what the second does on the delta. *)
Theorem patchstream_offsets_for_block_references :
  forall (instream : stream) (outstream : bytes) (delta : list Pyrsync2.element)
         (blocksize : Z),
    Pyzsync.patchstream instream outstream (map (slot_of_element blocksize) delta)
      blocksize
    = Pyrsync2.patchstream instream outstream delta blocksize.
Proof.
  intros instream outstream delta blocksize.
  unfold Pyzsync.patchstream, Pyrsync2.patchstream.
  revert instream outstream.
  induction delta as [|e delta IH]; intros instream outstream; [reflexivity|].
  cbn [map fold_result].
  assert (Hone : Pyzsync.patch_element blocksize (instream, outstream)
                   (slot_of_element blocksize e)
                 = Pyrsync2.patch_element blocksize (instream, outstream) e)
    by (destruct e; reflexivity).
  rewrite Hone.
  destruct (Pyrsync2.patch_element blocksize (instream, outstream) e) as [[ins out]|x];
    [apply IH | reflexivity].
Qed.

(** ** The streaming encoder on the baseline itself, of any length *)

Section IdenticalFileDelta.

Variable md5 : bytes -> bytes.
Variable n : nat.
Hypothesis n_pos : (0 < n)%nat.
Variable baseline : bytes.

Hypothesis separates : strong_hash_separates md5 n baseline baseline.
Hypothesis weak_separates : weak_checksum_separates n baseline.

(** The empty window read at the end of the stream matches no block. *)
Lemma empty_window_unmatched (j : nat) (strong : bytes) (w : Z) :
  Pyrsync2.signature_dict 0 (map (signature_of md5) (blocks_of n baseline)) ∅ !! w
  = Some (j, strong) ->
  strong <> md5 [].
Proof.
  intros Hget Hstrong.
  apply (remotesignatures_lookup md5 n n_pos baseline) in Hget as (Hj & _ & Hmd5).
  pose proof (separates 0%nat 0%nat j ltac:(lia) Hj) as Hsep.
  rewrite take_0 in Hsep. rewrite <- Hmd5 in Hsep. specialize (Hsep (eq_sym Hstrong)).
  by apply (block_at_nonempty n n_pos baseline j Hj).
Qed.

Lemma rsync_block_aligned_step (max_buffer : Z) (k : nat) (s : Pyrsync2.scan) :
  (k <= block_count n baseline)%nat ->
  rsync_block_aligned n baseline k s ->
  match Pyrsync2.step md5
          (Pyrsync2.signature_dict 0 (map (signature_of md5) (blocks_of n baseline)) ∅)
          (Z.of_nat n) max_buffer s with
  | Pyrsync2.Continue s' =>
      (k < block_count n baseline)%nat /\ rsync_block_aligned n baseline (S k) s'
  | Pyrsync2.Break s' =>
      Forall is_block_ref
             (Pyrsync2.yielded s' ++ Pyrsync2.flush (Pyrsync2.current_block s'))
      /\ length (Pyrsync2.yielded s' ++ Pyrsync2.flush (Pyrsync2.current_block s'))
         = block_count n baseline
  | Pyrsync2.Raise _ _ => False
  end.
Proof.
  intros Hk. destruct s as [ds lv m cb w wo c a b nb ts out].
  unfold rsync_block_aligned. rsync_simpl.
  intros (Hcontent & -> & -> & -> & Hrefs & Hdone & Hcur).
  unfold Pyrsync2.step, Pyrsync2.reseed. rsync_simpl.
  pose proof (read_facts (Z.of_nat n) ds ltac:(lia)) as Hread.
  destruct (read (Z.of_nat n) ds) as [blk ds1].
  destruct Hread as (Hblk & Hc1 & _ & Hcur1 & Hlen & Hrem).
  rewrite Nat2Z.id, Hcontent in *.
  destruct (weakchecksum blk) as [[c1 a1] b1] eqn:Hweak. rsync_simpl.
  rewrite drop_0.
  destruct (decide (k < block_count n baseline)%nat) as [Hin|Hend].
  - (* block [k], and the dict has its weak checksum *)
    pose proof (proj1 (block_count_bounds n n_pos baseline k) Hin) as Hinside.
    rewrite Nat.min_l in Hcur by lia. rewrite Hcur in Hblk.
    fold (block_at n baseline k) in Hblk.
    destruct (signature_dict_key (map (signature_of md5) (blocks_of n baseline)) 0 ∅ c1)
      as [[j strong] Hget].
    { right. exists k, (md5 blk). change (map ?f ?l) with (f <$> l).
      rewrite list_lookup_fmap, lookup_blocks_of by done.
      unfold signature_of. cbn. rewrite <- Hblk, Hweak. reflexivity. }
    rewrite Hget.
    apply (remotesignatures_lookup md5 n n_pos baseline) in Hget as (Hj & Hc & Hmd5).
    assert (Hsame : block_at n baseline j = blk).
    { rewrite Hblk. apply weak_separates; [done..|].
      rewrite <- Hc, <- Hblk, Hweak. reflexivity. }
    rewrite bool_decide_eq_true_2 by (by rewrite Hmd5, Hsame).
    rsync_simpl. cbn [Pyrsync2.flush app].
    assert (Hrefs' : Forall is_block_ref (out ++ [Pyrsync2.BlockRef j])).
    { apply Forall_app. split; [exact Hrefs|]. by constructor. }
    assert (Hdone' : length (out ++ [Pyrsync2.BlockRef j]) = S k)
      by (rewrite length_app; cbn [length]; lia).
    assert (Hcur' : cursor ds1 = Nat.min (S k * n) (length baseline)).
    { rewrite Hcur1, Hcur, Hlen. unfold remaining. rewrite Hcontent, Hcur.
      cbn [Nat.mul]. lia. }
    destruct (closed ds1) eqn:Hclosed.
    + rsync_simpl. cbn [Pyrsync2.flush]. rewrite app_nil_r.
      split; [exact Hrefs'|]. rewrite Hdone'.
      unfold closed in Hclosed. apply andb_prop in Hclosed as [_ Hclosed].
      apply bool_decide_eq_true_1 in Hclosed. rewrite Hc1, Hcur' in Hclosed.
      destruct (decide (S k < block_count n baseline)%nat) as [Hmore|]; [|lia].
      apply (block_count_bounds n n_pos) in Hmore. lia.
    + rsync_simpl. split; [exact Hin|]. unfold rsync_block_aligned. rsync_simpl.
      split; [congruence|]. do 3 (split; [done|]). done.
  - (* the end of the stream *)
    assert (k = block_count n baseline) as -> by lia.
    assert (Hout : (length baseline <= block_count n baseline * n)%nat).
    { destruct (decide (block_count n baseline * n < length baseline)%nat) as [Hlt|];
        [|lia].
      apply (block_count_bounds n n_pos) in Hlt. lia. }
    rewrite Nat.min_r in Hcur by lia.
    assert (Hrem0 : remaining ds = 0%nat) by (unfold remaining; rewrite Hcontent; lia).
    assert (Hnil : blk = []).
    { destruct blk; [done|]. cbn [length] in Hlen. lia. }
    clear Hblk. subst blk. cbn [length] in *.
    assert (Hshift :
      match Pyrsync2.shift (Z.of_nat n) max_buffer
              (Pyrsync2.Scan ds1 true true [] [] 0 c1 a1 b1 nb ts out) with
      | Pyrsync2.Continue s' =>
          (block_count n baseline < block_count n baseline)%nat
          /\ rsync_block_aligned n baseline (S (block_count n baseline)) s'
      | Pyrsync2.Break s' =>
          Forall is_block_ref
                 (Pyrsync2.yielded s' ++ Pyrsync2.flush (Pyrsync2.current_block s'))
          /\ length (Pyrsync2.yielded s' ++ Pyrsync2.flush (Pyrsync2.current_block s'))
             = block_count n baseline
      | Pyrsync2.Raise _ _ => False
      end).
    { unfold Pyrsync2.shift, Pyrsync2.pull. rsync_simpl.
      assert (Hrem1 : remaining ds1 = 0%nat) by lia.
      rewrite (read_exhausted 1 ds1 ltac:(lia) Hrem1).
      destruct (Z.of_nat n =? 0) eqn:E0; [lia|]. rsync_simpl.
      assert (Htell : 0 <= tell (Stream (content ds1) (cursor ds1 + 0) (auto_close ds1))
                           mod Z.of_nat n) by (apply Z.mod_pos_bound; lia).
      destruct (len [] - Z.of_nat 0 <=? _) eqn:E.
      - rsync_simpl. cbn [drop Pyrsync2.flush]. rewrite !app_nil_r. done.
      - apply Z.leb_gt in E. unfold len in E. cbn [length] in E. lia. }
    destruct (_ !! c1) as [[j strong]|] eqn:Hget; [|exact Hshift].
    rewrite bool_decide_eq_false_2; [exact Hshift|].
    eapply empty_window_unmatched, Hget.
Qed.

Lemma rsync_block_aligned_loop (max_buffer : Z) :
  forall fuel k s,
    (k <= block_count n baseline)%nat ->
    (block_count n baseline - k < fuel)%nat ->
    rsync_block_aligned n baseline k s ->
    exists s',
      Pyrsync2.scan_loop md5 fuel
        (Pyrsync2.signature_dict 0 (map (signature_of md5) (blocks_of n baseline)) ∅)
        (Z.of_nat n) max_buffer s
      = (s', Pyrsync2.Returned)
      /\ Forall is_block_ref
                (Pyrsync2.yielded s' ++ Pyrsync2.flush (Pyrsync2.current_block s'))
      /\ length (Pyrsync2.yielded s' ++ Pyrsync2.flush (Pyrsync2.current_block s'))
         = block_count n baseline.
Proof.
  induction fuel as [|fuel IH]; intros k s Hk Hfuel Haligned; [lia|].
  cbn [Pyrsync2.scan_loop].
  pose proof (rsync_block_aligned_step max_buffer k s Hk Haligned) as Hstep.
  destruct (Pyrsync2.step md5 _ (Z.of_nat n) max_buffer s) as [s1|s1|e s1];
    [|eauto|done].
  destruct Hstep as [Hlt Hnext]. apply (IH (S k)); [lia | lia | exact Hnext].
Qed.

End IdenticalFileDelta.

(** X21.  [rsyncdelta] run on the baseline itself, whatever its length: when
    the strong hash tells windows of the baseline from different blocks and
    no two different blocks share a weak checksum, it returns after one
    iteration per block and one more, and yields one block reference per
    block and nothing else. *)
Theorem identical_file_yields_block_references :
  forall (md5 : bytes -> bytes) (baseline : bytes) (flag : bool)
         (blocksize max_buffer : Z) (fuel : nat),
    0 < blocksize ->
    strong_hash_separates md5 (Z.to_nat blocksize) baseline baseline ->
    weak_checksum_separates (Z.to_nat blocksize) baseline ->
    (block_count (Z.to_nat blocksize) baseline < fuel)%nat ->
    exists delta,
      Pyrsync2.rsyncdelta md5 fuel (Stream baseline 0 flag)
        (map (signature_of md5) (blocks_of (Z.to_nat blocksize) baseline))
        blocksize max_buffer
      = (delta, Pyrsync2.Returned)
      /\ Forall is_block_ref delta
      /\ length delta = block_count (Z.to_nat blocksize) baseline.
Proof.
  intros md5 baseline flag blocksize max_buffer fuel HB Hsep Hweak Hfuel.
  set (n := Z.to_nat blocksize) in *.
  assert (Hn : (0 < n)%nat) by (unfold n; lia).
  assert (HnB : blocksize = Z.of_nat n) by (unfold n; lia).
  unfold Pyrsync2.rsyncdelta. rewrite HnB.
  destruct (rsync_block_aligned_loop md5 n Hn baseline Hsep Hweak max_buffer fuel 0
              (Pyrsync2.scan_init (Stream baseline 0 flag)))
    as (s' & -> & Hrefs & Hlen); [lia | lia | |].
  - unfold rsync_block_aligned, Pyrsync2.scan_init. rsync_simpl. cbn [content cursor].
    do 4 (split; [done|]). split; [constructor|]. split; [reflexivity | lia].
  - eexists. split; [reflexivity|]. done.
Qed.

Lemma identical_file_yields_block_references_witness :
  exists delta,
    Pyrsync2.rsyncdelta MD5.digest 4 (Stream [1; 2; 3; 4; 5; 6; 7] 0 false)
      (map (signature_of MD5.digest) (blocks_of (Z.to_nat 3) [1; 2; 3; 4; 5; 6; 7]))
      3 5
    = (delta, Pyrsync2.Returned)
    /\ Forall is_block_ref delta
    /\ length delta = block_count (Z.to_nat 3) [1; 2; 3; 4; 5; 6; 7].
Proof.
  apply (identical_file_yields_block_references MD5.digest [1; 2; 3; 4; 5; 6; 7] false
           3 5 4).
  - lia.
  - apply strong_hash_separates_b_sound. vm_compute. reflexivity.
  - intros i j Hi Hj Heq.
    assert (Hi' : (i < 3)%nat) by exact Hi. assert (Hj' : (j < 3)%nat) by exact Hj.
    destruct i as [|[|[|i]]]; [| | |lia]; destruct j as [|[|[|j]]]; try lia;
      try reflexivity; vm_compute in Heq; discriminate.
  - vm_compute. lia.
Defined.

(** ** Merging twice *)

Lemma first_component_lookup (instructions instructions' : list Pyzsync.slot) (i : nat) :
  instructions' !! i = instructions !! i ->
  Pyzsync.first_component instructions' i = Pyzsync.first_component instructions i.
Proof. unfold Pyzsync.first_component. by intros ->. Qed.

Lemma merge_untouched (blocks : list (nat * bytes)) (blocksize : Z) :
  forall instructions merged,
    Pyzsync.merge_instructions_blocks instructions blocks blocksize = Ok merged ->
    forall i, i ∉ map fst blocks -> merged !! i = instructions !! i.
Proof.
  unfold Pyzsync.merge_instructions_blocks.
  induction blocks as [|[block content] blocks IH]; intros instructions merged H i Hi.
  - by injection H as <-.
  - cbn [fold_result] in H. cbn [map fst] in Hi.
    apply not_elem_of_cons in Hi as [Hne Hi].
    destruct (Pyzsync.first_component instructions block) as [v|e]; [|discriminate].
    destruct (v =? _).
    + rewrite (IH _ _ H i Hi). by apply list_lookup_insert_ne.
    + apply (IH _ _ H i Hi).
Qed.

Lemma merge_settled (blocks : list (nat * bytes)) (blocksize : Z) :
  forall instructions,
    Forall (settled blocksize instructions) blocks ->
    Pyzsync.merge_instructions_blocks instructions blocks blocksize = Ok instructions.
Proof.
  unfold Pyzsync.merge_instructions_blocks.
  induction blocks as [|[block content] blocks IH]; intros instructions Hall;
    [reflexivity|].
  apply Forall_cons in Hall as [(v & Hv & Hsame) Hall]. cbn [fst snd] in *.
  cbn [fold_result]. rewrite Hv.
  destruct (v =? _) eqn:E.
  - apply Z.eqb_eq in E. rewrite list_insert_id by (by apply Hsame). by apply IH.
  - by apply IH.
Qed.

Lemma merge_settles (blocks : list (nat * bytes)) (blocksize : Z) :
  forall instructions merged,
    NoDup (map fst blocks) ->
    Forall (fun bc => snd bc <> []) blocks ->
    Pyzsync.merge_instructions_blocks instructions blocks blocksize = Ok merged ->
    Forall (settled blocksize merged) blocks.
Proof.
  induction blocks as [|[block content] blocks IH];
    intros instructions merged Hnd Hne H; [constructor|].
  cbn [map fst] in Hnd. apply NoDup_cons in Hnd as [Hfresh Hnd].
  apply Forall_cons in Hne as [Hcontent Hne]. cbn [snd] in Hcontent.
  unfold Pyzsync.merge_instructions_blocks in H. cbn [fold_result] in H.
  destruct (Pyzsync.first_component instructions block) as [v|e] eqn:Hv; [|discriminate].
  destruct (v =? Z.of_nat block * blocksize) eqn:E.
  - fold (Pyzsync.merge_instructions_blocks
            (<[block := Pyzsync.SBytes content]> instructions) blocks blocksize) in H.
    constructor; [|by eapply IH].
    assert (Hlt : (block < length instructions)%nat).
    { unfold Pyzsync.first_component in Hv.
      destruct (instructions !! block) eqn:Hslot; [|discriminate].
      eapply lookup_lt_Some, Hslot. }
    pose proof (merge_untouched _ _ _ _ H block Hfresh) as Hblock.
    rewrite list_lookup_insert_eq in Hblock by done.
    destruct content as [|x content]; [done|].
    exists x. cbn [fst snd]. split; [|done].
    unfold Pyzsync.first_component. by rewrite Hblock.
  - fold (Pyzsync.merge_instructions_blocks instructions blocks blocksize) in H.
    constructor; [|by eapply IH].
    pose proof (merge_untouched _ _ _ _ H block Hfresh) as Hblock.
    exists v. cbn [fst snd]. split.
    + by rewrite (first_component_lookup _ _ _ Hblock).
    + intros ->. rewrite Z.eqb_refl in E. discriminate.
Qed.

(** X22.  Merging the same blocks again changes nothing: when no two of the
    blocks are for one index and none is empty, a merge that has succeeded
    succeeds again on its own result and returns it as it is. *)
Theorem merge_again_changes_nothing :
  forall (blocks : list (nat * bytes)) (blocksize : Z)
         (instructions merged : list Pyzsync.slot),
    NoDup (map fst blocks) ->
    Forall (fun bc => snd bc <> []) blocks ->
    Pyzsync.merge_instructions_blocks instructions blocks blocksize = Ok merged ->
    Pyzsync.merge_instructions_blocks merged blocks blocksize = Ok merged.
Proof.
  intros blocks blocksize instructions merged Hnd Hne H.
  apply merge_settled. eapply merge_settles; eassumption.
Qed.

Lemma merge_again_changes_nothing_witness :
  Pyzsync.merge_instructions_blocks
    [Pyzsync.SBytes [0; 8; 9]; Pyzsync.SInt 4; Pyzsync.SBytes [7]]
    [(2%nat, [7]); (0%nat, [0; 8; 9])] 3
  = Ok [Pyzsync.SBytes [0; 8; 9]; Pyzsync.SInt 4; Pyzsync.SBytes [7]].
Proof.
  apply (merge_again_changes_nothing [(2%nat, [7]); (0%nat, [0; 8; 9])] 3
           [Pyzsync.STriple 0 5 []; Pyzsync.SInt 4; Pyzsync.STriple 6 5 []]
           [Pyzsync.SBytes [0; 8; 9]; Pyzsync.SInt 4; Pyzsync.SBytes [7]]).
  - cbn [map fst]. repeat (apply NoDup_cons_2 || apply NoDup_nil_2);
      rewrite ?elem_of_cons, ?elem_of_nil; lia.
  - repeat constructor; discriminate.
  - reflexivity.
Defined.
